(** * couchbase-php-client: the synchronous bridge of [connection_handle.cxx]

    A shallow embedding of [src/core/connection_handle.cxx]: the error-context
    builders, the per-operation option decoders, the operation facade, the
    cluster-level option decoder, the connection teardown and the
    cluster-version probe, followed by the properties proved about them.

    Conventions.

    - A [zval] is the host-language dynamic value; a [const zval*] argument
      is an [option zval] ([None] is [nullptr]).
    - A C++ function that returns [core_error_info] and writes through a
      reference returns the pair of the error and the new value of the
      referenced field.
    - A request field assigned by a decoder has type [option T]: [None] means
      that the decoder did not touch it, so that it keeps the default of its
      declaration (the request types are declared in the engine's headers).
      Some integer members are unsigned and narrower than a [zend_long],
      and the assignment converts: the flags and the expiry of an upsert
      (32 bits), the durability timeout (16 bits) and the partition
      identifier, the partition uuid and the sequence number of a mutation
      token (16, 64 and 64 bits).  These fields hold the converted number.
      The other integer fields record the [zend_long] that is assigned to
      them.
    - Reading through a null pointer, an empty [std::optional] or the wrong
      member of a [zval] is undefined behaviour: the computation ends in
      [Undefined]. *)

From Stdlib Require Import ZArith List String Ascii Bool Lia.
From Stdlib Require DecimalString HexadecimalString HexadecimalN HexadecimalFacts.
From Equations Require Import Equations.
Import ListNotations.

Local Open Scope Z_scope.
Local Open Scope string_scope.

(** ** Formatting ([fmt::format]) *)

Definition dquote : string := String (ascii_of_nat 34) EmptyString.

(** [fmt::format("{}", n)] for an integer. *)
Definition fmt_dec (n : Z) : string :=
  DecimalString.NilZero.string_of_int (Z.to_int n).

(** [fmt::format("{:x}", n)] for an unsigned integer. *)
Definition fmt_hex (n : Z) : string :=
  HexadecimalString.NilZero.string_of_uint (N.to_hex_uint (Z.to_N n)).

(** Conversion of a [zend_long] to an unsigned integer of [w] bits. *)
Definition to_unsigned (w : Z) (n : Z) : Z := n mod 2 ^ w.

Definition to_uint64 : Z -> Z := to_unsigned 64.
Definition to_uint32 : Z -> Z := to_unsigned 32.
Definition to_uint16 : Z -> Z := to_unsigned 16.

(** ** The host-language value model (Zend) *)

Module Zend.

Inductive zend_key : Type :=
| KIdx (h : Z)
| KStr (s : string).

#[warnings="-register-all"]
Inductive zval : Type :=
| ZNull
| ZFalse
| ZTrue
| ZLong (l : Z)
| ZDouble (bits : Z)
| ZString (s : string)
| ZArray (ht : list (zend_key * zval))
| ZObject (handle : Z).

(** A [HashTable] keeps its entries in insertion order. *)
Definition HashTable : Type := list (zend_key * zval).

Inductive ztype : Type :=
| IS_NULL | IS_FALSE | IS_TRUE | IS_LONG | IS_DOUBLE | IS_STRING | IS_ARRAY
| IS_OBJECT.

Definition Z_TYPE_P (v : zval) : ztype :=
  match v with
  | ZNull => IS_NULL
  | ZFalse => IS_FALSE
  | ZTrue => IS_TRUE
  | ZLong _ => IS_LONG
  | ZDouble _ => IS_DOUBLE
  | ZString _ => IS_STRING
  | ZArray _ => IS_ARRAY
  | ZObject _ => IS_OBJECT
  end.

Definition key_is (name : string) (k : zend_key) : bool :=
  match k with
  | KStr s => String.eqb s name
  | KIdx _ => false
  end.

(** [zend_symtable_str_find]: the value stored under the string key [name],
    [None] for [nullptr].  Every name looked up in this file is an
    alphabetic literal, so the numeric-string case of the symbol table does
    not arise. *)
Fixpoint zend_symtable_str_find (ht : HashTable) (name : string) : option zval :=
  match ht with
  | [] => None
  | (k, v) :: rest =>
      if key_is name k then Some v else zend_symtable_str_find rest name
  end.

(** The values visited by [ZEND_HASH_FOREACH_VAL]. *)
Definition hash_values (ht : HashTable) : list zval := map snd ht.

(** [add_assoc_*]: store [v] under the string key [name], replacing the value
    of an entry that already has this key. *)
Fixpoint add_assoc (ht : HashTable) (name : string) (v : zval) : HashTable :=
  match ht with
  | [] => [(KStr name, v)]
  | (k, w) :: rest =>
      if key_is name k then (k, v) :: rest else (k, w) :: add_assoc rest name v
  end.

Definition add_assoc_bool (ht : HashTable) (name : string) (b : bool) : HashTable :=
  add_assoc ht name (if b then ZTrue else ZFalse).

End Zend.

Export Zend.

(** ** Results of computations *)

(** A computation of the bridge either finishes with a value or runs into
    undefined behaviour. *)
Inductive outcome (A : Type) : Type :=
| Done (a : A)
| Undefined.

Arguments Done {A} a.
Arguments Undefined {A}.

Definition obind {A B : Type} (m : outcome A) (k : A -> outcome B) : outcome B :=
  match m with
  | Done a => k a
  | Undefined => Undefined
  end.

Notation "'let*' x ':=' m 'in' k" := (obind m (fun x => k))
  (at level 10, x pattern, m at level 100, k at level 200).

Definition defined {A : Type} (m : outcome A) : Prop :=
  match m with
  | Done _ => True
  | Undefined => False
  end.

(** [Z_STRVAL_P]/[Z_STRLEN_P]: only a string [zval] has a string member. *)
Definition Z_STR_P (v : zval) : outcome string :=
  match v with
  | ZString s => Done s
  | _ => Undefined
  end.

(** [Z_ARRVAL_P] of a pointer: defined for a non-null pointer to an array. *)
Definition Z_ARRVAL_P (p : option zval) : outcome HashTable :=
  match p with
  | Some (ZArray ht) => Done ht
  | _ => Undefined
  end.

(** [cb_string_new] of a [zend_string] pointer: the key of a hash entry as a string;
    the key pointer is null for an entry with an integer index. *)
Definition cb_string_new_key (k : zend_key) : outcome string :=
  match k with
  | KStr s => Done s
  | KIdx _ => Undefined
  end.

(** ** Error codes and error information *)

(** [std::error_code].  The three codes the bridge compares against are
    named; [engine_errc n] is any other non-zero status of the engine. *)
Inductive error_code : Type :=
| ec_success
| common_errc_invalid_argument
| common_errc_service_not_available
| common_errc_parsing_failure
| key_value_errc_document_not_found
| engine_errc (n : positive).

(** [explicit operator bool] of [std::error_code]. *)
Definition ec_set (e : error_code) : bool :=
  match e with
  | ec_success => false
  | _ => true
  end.

Definition error_code_eqb (a b : error_code) : bool :=
  match a, b with
  | ec_success, ec_success => true
  | common_errc_invalid_argument, common_errc_invalid_argument => true
  | common_errc_service_not_available, common_errc_service_not_available => true
  | common_errc_parsing_failure, common_errc_parsing_failure => true
  | key_value_errc_document_not_found, key_value_errc_document_not_found => true
  | engine_errc n, engine_errc m => Pos.eqb n m
  | _, _ => false
  end.

(** ** Error contexts *)

Module ErrorContext.

(** [io::retry_reason]; [retry_reason_other] is a value outside the
    enumerators listed by [retry_reason_to_string]. *)
Inductive retry_reason : Type :=
| do_not_retry
| socket_not_available
| service_not_available
| node_not_available
| kv_not_my_vbucket
| kv_collection_outdated
| kv_error_map_retry_indicated
| kv_locked
| kv_temporary_failure
| kv_sync_write_in_progress
| kv_sync_write_re_commit_in_progress
| service_response_code_indicated
| socket_closed_while_in_flight
| circuit_breaker_open
| query_prepared_statement_failure
| query_index_not_found
| analytics_temporary_failure
| search_too_many_requests
| views_temporary_failure
| views_no_active_partition
| unknown
| retry_reason_other (code : Z).

Definition retry_reason_to_string (reason : retry_reason) : string :=
  match reason with
  | do_not_retry => "do_not_retry"
  | socket_not_available => "socket_not_available"
  | service_not_available => "service_not_available"
  | node_not_available => "node_not_available"
  | kv_not_my_vbucket => "kv_not_my_vbucket"
  | kv_collection_outdated => "kv_collection_outdated"
  | kv_error_map_retry_indicated => "kv_error_map_retry_indicated"
  | kv_locked => "kv_locked"
  | kv_temporary_failure => "kv_temporary_failure"
  | kv_sync_write_in_progress => "kv_sync_write_in_progress"
  | kv_sync_write_re_commit_in_progress => "kv_sync_write_re_commit_in_progress"
  | service_response_code_indicated => "service_response_code_indicated"
  | socket_closed_while_in_flight => "socket_closed_while_in_flight"
  | circuit_breaker_open => "circuit_breaker_open"
  | query_prepared_statement_failure => "query_prepared_statement_failure"
  | query_index_not_found => "query_index_not_found"
  | analytics_temporary_failure => "analytics_temporary_failure"
  | search_too_many_requests => "search_too_many_requests"
  | views_temporary_failure => "views_temporary_failure"
  | views_no_active_partition => "views_no_active_partition"
  | unknown => "unknown"
  | retry_reason_other _ => "unexpected"
  end.

(** [std::set<std::string>::insert]: a set keeps one copy of each element. *)
Definition set_insert (x : string) (s : list string) : list string :=
  if existsb (String.eqb x) s then s else (s ++ [x])%list.

(** The loop [for (reason : ctx.retry_reasons) out.retry_reasons.insert(...)]
    shared by the six builders. *)
Definition insert_retry_reasons (reasons : list retry_reason) : list string :=
  fold_left (fun out reason => set_insert (retry_reason_to_string reason) out)
            reasons [].

Record document_id : Type := {
  bucket : string;
  scope : string;
  collection : string;
  key : string
}.

Record error_map_info_t : Type := {
  name : string;
  description : string
}.

Record enhanced_error_info_t : Type := {
  reference : string;
  context : string
}.

(** The raw failure context of a key-value response
    ([error_context::key_value]), with the members the builder reads. *)
Record key_value : Type := {
  kv_id : document_id;
  kv_ec : error_code;
  kv_opaque : Z;
  kv_cas : Z;
  kv_status_code : option Z;
  error_map_info : option error_map_info_t;
  enhanced_error_info : option enhanced_error_info_t;
  kv_last_dispatched_to : option string;
  kv_last_dispatched_from : option string;
  kv_retry_attempts : Z;
  kv_retry_reasons : list retry_reason
}.

(** The typed error context of a key-value failure. *)
Record key_value_error_context : Type := {
  out_bucket : string;
  out_scope : string;
  out_collection : string;
  out_id : string;
  out_opaque : Z;
  out_cas : Z;
  out_status_code : option Z;
  error_map_name : option string;
  error_map_description : option string;
  enhanced_error_reference : option string;
  enhanced_error_context : option string;
  out_last_dispatched_to : option string;
  out_last_dispatched_from : option string;
  out_retry_attempts : Z;
  out_retry_reasons : list string
}.

(** [build_error_context] (lines 84-114).  Inside the test of
    [ctx.enhanced_error_info] the second assignment reads
    [ctx.error_map_info->description]: the arrow dereferences
    [error_map_info], which is undefined when that optional is empty. *)
Definition build_error_context (ctx : key_value) : outcome key_value_error_context :=
  let status_code := option_map (to_unsigned 16) (kv_status_code ctx) in
  let error_map_name := option_map name (error_map_info ctx) in
  let error_map_description := option_map description (error_map_info ctx) in
  let* (enhanced_reference, enhanced_context) :=
    match enhanced_error_info ctx with
    | Some info =>
        match error_map_info ctx with
        | Some map_info => Done (Some (reference info), Some (description map_info))
        | None => Undefined
        end
    | None => Done (None, None)
    end in
  Done {| out_bucket := bucket (kv_id ctx);
          out_scope := scope (kv_id ctx);
          out_collection := collection (kv_id ctx);
          out_id := key (kv_id ctx);
          out_opaque := kv_opaque ctx;
          out_cas := kv_cas ctx;
          out_status_code := status_code;
          error_map_name := error_map_name;
          error_map_description := error_map_description;
          enhanced_error_reference := enhanced_reference;
          enhanced_error_context := enhanced_context;
          out_last_dispatched_to := kv_last_dispatched_to ctx;
          out_last_dispatched_from := kv_last_dispatched_from ctx;
          out_retry_attempts := kv_retry_attempts ctx;
          out_retry_reasons := insert_retry_reasons (kv_retry_reasons ctx) |}.

(** The raw contexts of the HTTP services.  Query, analytics and search
    contexts have the same members up to the name of the statement, and the
    builder of each copies them one by one (lines 116-192). *)
Record http_service_context : Type := {
  svc_ec : error_code;
  svc_client_context_id : string;
  svc_statement : string;
  svc_index_name : string;
  svc_parameters : option string;
  svc_first_error_message : string;
  svc_first_error_code : Z;
  svc_http_status : Z;
  svc_http_body : string;
  svc_retry_attempts : Z;
  svc_retry_reasons : list retry_reason
}.

Record query_error_context : Type := {
  q_client_context_id : string;
  q_statement : string;
  q_parameters : option string;
  q_first_error_message : string;
  q_first_error_code : Z;
  q_http_status : Z;
  q_http_body : string;
  q_retry_attempts : Z;
  q_retry_reasons : list string
}.

Definition build_query_error_context (ctx : http_service_context) : query_error_context :=
  {| q_client_context_id := svc_client_context_id ctx;
     q_statement := svc_statement ctx;
     q_parameters := svc_parameters ctx;
     q_first_error_message := svc_first_error_message ctx;
     q_first_error_code := svc_first_error_code ctx;
     q_http_status := svc_http_status ctx;
     q_http_body := svc_http_body ctx;
     q_retry_attempts := svc_retry_attempts ctx;
     q_retry_reasons := insert_retry_reasons (svc_retry_reasons ctx) |}.

(** [build_analytics_error_context] has the body of the query builder. *)
Definition build_analytics_error_context (ctx : http_service_context) : query_error_context :=
  build_query_error_context ctx.

Record search_error_context : Type := {
  s_client_context_id : string;
  s_index_name : string;
  s_query : string;
  s_parameters : option string;
  s_http_status : Z;
  s_http_body : string;
  s_retry_attempts : Z;
  s_retry_reasons : list string
}.

Definition build_search_query_error_context (ctx : http_service_context) : search_error_context :=
  {| s_client_context_id := svc_client_context_id ctx;
     s_index_name := svc_index_name ctx;
     s_query := svc_statement ctx;
     s_parameters := svc_parameters ctx;
     s_http_status := svc_http_status ctx;
     s_http_body := svc_http_body ctx;
     s_retry_attempts := svc_retry_attempts ctx;
     s_retry_reasons := insert_retry_reasons (svc_retry_reasons ctx) |}.

Record view : Type := {
  view_ec : error_code;
  view_client_context_id : string;
  view_design_document_name : string;
  view_view_name : string;
  view_query_string : list string;
  view_http_status : Z;
  view_http_body : string;
  view_retry_attempts : Z;
  view_retry_reasons : list retry_reason
}.

Record view_query_error_context : Type := {
  v_client_context_id : string;
  v_design_document_name : string;
  v_view_name : string;
  v_query_string : list string;
  v_http_status : Z;
  v_http_body : string;
  v_retry_attempts : Z;
  v_retry_reasons : list string
}.

Definition build_view_query_error_context (ctx : view) : view_query_error_context :=
  {| v_client_context_id := view_client_context_id ctx;
     v_design_document_name := view_design_document_name ctx;
     v_view_name := view_view_name ctx;
     v_query_string := view_query_string ctx;
     v_http_status := view_http_status ctx;
     v_http_body := view_http_body ctx;
     v_retry_attempts := view_retry_attempts ctx;
     v_retry_reasons := insert_retry_reasons (view_retry_reasons ctx) |}.

Record http : Type := {
  http_ec : error_code;
  http_client_context_id : string;
  http_method : string;
  http_path : string;
  http_http_status : Z;
  http_http_body : string;
  http_retry_attempts : Z;
  http_retry_reasons : list retry_reason;
  http_last_dispatched_from : option string;
  http_last_dispatched_to : option string
}.

Record http_error_context : Type := {
  h_client_context_id : string;
  h_method : string;
  h_path : string;
  h_http_status : Z;
  h_http_body : string;
  h_retry_attempts : Z;
  h_retry_reasons : list string;
  h_last_dispatched_from : option string;
  h_last_dispatched_to : option string
}.

Definition build_http_error_context (ctx : http) : http_error_context :=
  {| h_client_context_id := http_client_context_id ctx;
     h_method := http_method ctx;
     h_path := http_path ctx;
     h_http_status := http_http_status ctx;
     h_http_body := http_http_body ctx;
     h_retry_attempts := http_retry_attempts ctx;
     h_retry_reasons := insert_retry_reasons (http_retry_reasons ctx);
     h_last_dispatched_from := http_last_dispatched_from ctx;
     h_last_dispatched_to := http_last_dispatched_to ctx |}.

(** The variant of typed contexts carried by [core_error_info]. *)
Inductive error_context_variant : Type :=
| no_error_context
| ctx_key_value (c : key_value_error_context)
| ctx_query (c : query_error_context)
| ctx_analytics (c : query_error_context)
| ctx_view (c : view_query_error_context)
| ctx_search (c : search_error_context)
| ctx_http (c : http_error_context).

End ErrorContext.

Export ErrorContext.

(** [core_error_info]: the error code, the place that raised it
    ([__LINE__] and [__func__]), the message and the typed context. *)
Record core_error_info : Type := {
  ec : error_code;
  location : nat * string;
  message : string;
  error_context : error_context_variant
}.

(** The value-initialised [core_error_info], written [{}] in the source. *)
Definition no_error : core_error_info :=
  {| ec := ec_success; location := (0%nat, ""); message := "";
     error_context := no_error_context |}.

Definition invalid_argument (line : nat) (func msg : string) : core_error_info :=
  {| ec := common_errc_invalid_argument; location := (line, func);
     message := msg; error_context := no_error_context |}.

(** ** Option decoders (lines 456-697) *)

Module protocol.

Inductive durability_level : Type :=
| none
| majority
| majority_and_persist_to_active
| persist_to_majority.

Definition durability_level_eqb (a b : durability_level) : bool :=
  match a, b with
  | none, none => true
  | majority, majority => true
  | majority_and_persist_to_active, majority_and_persist_to_active => true
  | persist_to_majority, persist_to_majority => true
  | _, _ => false
  end.

End protocol.

Module Options.

(** [cb_assign_timeout] (lines 456-483); [timeout] is [req.timeout], in
    milliseconds. *)
Definition cb_assign_timeout (timeout : option Z) (options : option zval)
  : core_error_info * option Z :=
  match options with
  | None | Some ZNull => (no_error, timeout)
  | Some (ZArray ht) =>
      match zend_symtable_str_find ht "timeoutMilliseconds" with
      | None => (no_error, timeout)
      | Some ZNull => (no_error, timeout)
      | Some (ZLong l) => (no_error, Some l)
      | Some _ =>
          (invalid_argument 478 "cb_assign_timeout"
             "expected timeoutMilliseconds to be a number in the options",
           timeout)
      end
  | Some _ =>
      (invalid_argument 464 "cb_assign_timeout" "expected array for options argument",
       timeout)
  end.

(** The durability part of a request: [req.durability_level] and
    [req.durability_timeout], a number of seconds of 16 bits without sign. *)
Record durability : Type := {
  durability_level : option protocol.durability_level;
  durability_timeout : option Z
}.

Definition durability_default : durability :=
  {| durability_level := None; durability_timeout := None |}.

(** The chain of [zend_binary_strcmp] tests of lines 510-522. *)
Definition durability_level_of_string (s : string) : option protocol.durability_level :=
  if String.eqb s "none" then Some protocol.none
  else if String.eqb s "majority" then Some protocol.majority
  else if String.eqb s "majorityAndPersistToActive"
       then Some protocol.majority_and_persist_to_active
  else if String.eqb s "persistToMajority" then Some protocol.persist_to_majority
  else None.

(** [cb_assign_durability] (lines 485-541). *)
Definition cb_assign_durability (req : durability) (options : option zval)
  : core_error_info * durability :=
  match options with
  | None | Some ZNull => (no_error, req)
  | Some (ZArray ht) =>
      match zend_symtable_str_find ht "durabilityLevel" with
      | None => (no_error, req)
      | Some ZNull => (no_error, req)
      | Some (ZString s) =>
          match durability_level_of_string s with
          | None =>
              (invalid_argument 520 "cb_assign_durability"
                 ("unknown durabilityLevel: " ++ s), req)
          | Some level =>
              let req := {| durability_level := Some level;
                            durability_timeout := durability_timeout req |} in
              if negb (protocol.durability_level_eqb level protocol.none) then
                match zend_symtable_str_find ht "durabilityTimeoutSeconds" with
                | None => (no_error, req)
                | Some ZNull => (no_error, req)
                | Some (ZLong l) =>
                    (no_error, {| durability_level := durability_level req;
                                  durability_timeout := Some (to_uint16 l) |})
                | Some _ =>
                    (invalid_argument 535 "cb_assign_durability"
                       "expected durabilityTimeoutSeconds to be a number in the options",
                     req)
                end
              else (no_error, req)
          end
      | Some _ =>
          (invalid_argument 507 "cb_assign_durability"
             "expected durabilityLevel to be a string in the authenticator", req)
      end
  | Some _ =>
      (invalid_argument 493 "cb_assign_durability" "expected array for options argument",
       req)
  end.

Section FieldDecoders.

(** The type of the assigned field (the template parameter) and the
    conversion the assignment applies. *)
Context {Field : Type}.

(** [cb_assign_boolean] (lines 543-573). *)
Definition cb_assign_boolean (of_bool : bool -> Field) (field : Field)
  (options : option zval) (name : string) : core_error_info * Field :=
  match options with
  | None | Some ZNull => (no_error, field)
  | Some (ZArray ht) =>
      match zend_symtable_str_find ht name with
      | None => (no_error, field)
      | Some ZNull => (no_error, field)
      | Some ZTrue => (no_error, of_bool true)
      | Some ZFalse => (no_error, of_bool false)
      | Some _ =>
          (invalid_argument 569 "cb_assign_boolean"
             ("expected " ++ name ++ " to be a boolean value in the options"),
           field)
      end
  | Some _ =>
      (invalid_argument 551 "cb_assign_boolean" "expected array for options argument",
       field)
  end.

(** [cb_assign_integer] (lines 575-603). *)
Definition cb_assign_integer (of_long : Z -> Field) (field : Field)
  (options : option zval) (name : string) : core_error_info * Field :=
  match options with
  | None | Some ZNull => (no_error, field)
  | Some (ZArray ht) =>
      match zend_symtable_str_find ht name with
      | None => (no_error, field)
      | Some ZNull => (no_error, field)
      | Some (ZLong l) => (no_error, of_long l)
      | Some _ =>
          (invalid_argument 597 "cb_assign_integer"
             ("expected " ++ name ++ " to be a integer value in the options"),
           field)
      end
  | Some _ =>
      (invalid_argument 583 "cb_assign_integer" "expected array for options argument",
       field)
  end.

(** [cb_assign_string] (lines 605-632). *)
Definition cb_assign_string (of_string : string -> Field) (field : Field)
  (options : option zval) (name : string) : core_error_info * Field :=
  match options with
  | None | Some ZNull => (no_error, field)
  | Some (ZArray ht) =>
      match zend_symtable_str_find ht name with
      | None => (no_error, field)
      | Some ZNull => (no_error, field)
      | Some (ZString s) => (no_error, of_string s)
      | Some _ =>
          (invalid_argument 627 "cb_assign_string"
             ("expected " ++ name ++ " to be a string value in the options"),
           field)
      end
  | Some _ =>
      (invalid_argument 613 "cb_assign_string" "expected array for options argument",
       field)
  end.

(** [cb_get_integer] (lines 669-697); [zero] is the value-initialised
    [Integer] of the pair returned by [return {}]. *)
Definition cb_get_integer (of_long : Z -> Field) (zero : Field)
  (options : option zval) (name : string) : core_error_info * Field :=
  match options with
  | None | Some ZNull => (no_error, zero)
  | Some (ZArray ht) =>
      match zend_symtable_str_find ht name with
      | None => (no_error, zero)
      | Some ZNull => (no_error, zero)
      | Some (ZLong l) => (no_error, of_long l)
      | Some _ =>
          (invalid_argument 691 "cb_get_integer"
             ("expected " ++ name ++ " to be a integer value in the options"),
           zero)
      end
  | Some _ =>
      (invalid_argument 677 "cb_get_integer" "expected array for options argument",
       zero)
  end.

End FieldDecoders.

(** The loop of [cb_assign_vector_of_strings] (lines 654-665): every item is
    appended to [field] until one is not a string. *)
Fixpoint emplace_strings (name : string) (items : list zval) (field : list string)
  : core_error_info * list string :=
  match items with
  | [] => (no_error, field)
  | ZString s :: rest => emplace_strings name rest (field ++ [s])%list
  | _ :: _ =>
      (invalid_argument 659 "cb_assign_vector_of_strings"
         ("expected " ++ dquote ++ name ++ dquote
          ++ " option to be an array of strings, detected non-string value"),
       field)
  end.

(** [cb_assign_vector_of_strings] (lines 634-667). *)
Definition cb_assign_vector_of_strings (field : list string)
  (options : option zval) (name : string) : core_error_info * list string :=
  match options with
  | None | Some ZNull => (no_error, field)
  | Some (ZArray ht) =>
      match zend_symtable_str_find ht name with
      | None | Some ZNull => (no_error, field)
      | Some (ZArray items) => emplace_strings name (hash_values items) field
      | Some _ =>
          (invalid_argument 650 "cb_assign_vector_of_strings"
             ("expected array for options argument " ++ dquote ++ name ++ dquote),
           field)
      end
  | Some _ =>
      (invalid_argument 641 "cb_assign_vector_of_strings" "expected array for options",
       field)
  end.

End Options.

Export Options.

(** ** Requests, responses and the cluster engine *)

(** The result of a facade operation: an output, a [core_error_info] whose
    code is set, or undefined behaviour. *)
Inductive result (A : Type) : Type :=
| Ok (a : A)
| Failed (e : core_error_info)
| Crashed.

Arguments Ok {A} a.
Arguments Failed {A} e.
Arguments Crashed {A}.

Definition rbind {A B : Type} (m : result A) (k : A -> result B) : result B :=
  match m with
  | Ok a => k a
  | Failed e => Failed e
  | Crashed => Crashed
  end.

Definition of_outcome {A : Type} (m : outcome A) : result A :=
  match m with
  | Done a => Ok a
  | Undefined => Crashed
  end.

(** [run x <- m; k] sequences two results; [check x <- c; k] is the idiom
    [if (auto e = c; e.ec) return e;] of the source, where [c] also yields the
    new value [x] of the field it was given. *)
Notation "'run' x '<-' m ';' k" := (rbind m (fun x => k))
  (at level 10, x pattern, m at level 100, k at level 200).

Notation "'check' x '<-' c ';' k" :=
  (let '(e, x) := c in if ec_set (ec e) then Failed e else k)
  (at level 10, x pattern, c at level 100, k at level 200).

(** [couchbase::mutation_token]; [token {}] is value-initialised. *)
Record mutation_token : Type := {
  partition_uuid : Z;
  sequence_number : Z;
  partition_id : Z;
  bucket_name : string
}.

Definition mutation_token_default : mutation_token :=
  {| partition_uuid := 0; sequence_number := 0; partition_id := 0; bucket_name := "" |}.

Module operations.

Record upsert_request : Type := {
  upsert_id : document_id;
  upsert_value : string;
  upsert_flags : Z;
  upsert_timeout : option Z;
  upsert_durability : durability;
  upsert_preserve_expiry : option bool;
  upsert_expiry : option Z
}.

Record upsert_response : Type := {
  upsert_ctx : key_value;
  upsert_cas : Z;
  upsert_token : mutation_token
}.

Record get_request : Type := {
  get_id : document_id;
  get_timeout : option Z
}.

Record get_response : Type := {
  get_ctx : key_value;
  get_cas : Z;
  get_flags : Z;
  get_value : string
}.

Record get_projected_request : Type := {
  get_projected_id : document_id;
  get_projected_with_expiry : bool;
  get_projected_projections : list string;
  get_projected_timeout : option Z
}.

Record get_projected_response : Type := {
  get_projected_ctx : key_value;
  get_projected_cas : Z;
  get_projected_flags : Z;
  get_projected_value : string;
  get_projected_expiry : option Z
}.

Record exists_request : Type := {
  exists_id : document_id;
  exists_timeout : option Z
}.

Record exists_response : Type := {
  exists_ctx : key_value;
  exists_deleted : bool;
  exists_cas : Z;
  exists_flags : Z;
  exists_expiry : Z;
  exists_sequence_number : Z;
  exists_datatype : Z
}.

(** Modelled from the spec: the member function [exists()] of the exists
    response is declared in the engine's headers.  The spec fixes its value
    where the bridge depends on it: a response with the
    document-not-found status is a result carrying [exists=false] (4.5 b).
    A response whose status is set reports no document; one without error
    reports a document unless it is a deleted one. *)
Definition exists_ (resp : exists_response) : bool :=
  negb (ec_set (kv_ec (exists_ctx resp))) && negb (exists_deleted resp).

Inductive scan_consistency_type : Type :=
| not_bounded
| request_plus
| update_after.

Inductive profile_mode : Type :=
| profile_off
| profile_phases
| profile_timings.

(** A [std::map] with string keys, as the list of its bindings. *)
Definition string_map (V : Type) : Type := list (string * V).

(** [m[k] = v]. *)
Fixpoint map_assign {V : Type} (m : string_map V) (k : string) (v : V) : string_map V :=
  match m with
  | [] => [(k, v)]
  | (k', v') :: rest =>
      if String.eqb k' k then (k', v) :: rest else (k', v') :: map_assign rest k v
  end.

Record query_request : Type := {
  query_statement : string;
  query_timeout : option Z;
  query_scan_consistency : option scan_consistency_type;
  query_scan_cap : option Z;
  query_pipeline_cap : option Z;
  query_pipeline_batch : option Z;
  query_max_parallelism : option Z;
  query_profile : option profile_mode;
  query_readonly : option bool;
  query_flex_index : option bool;
  query_adhoc : option bool;
  query_positional_parameters : option (list string);
  query_named_parameters : option (string_map string);
  query_raw : option (string_map string);
  query_mutation_state : option (list mutation_token);
  query_client_context_id : option string;
  query_metrics : option bool;
  query_preserve_expiry : option bool;
  query_scope_name : option string;
  query_bucket_name : option string
}.

(** A response of an HTTP service: its failure context and the payload that
    the lines after the status test copy into the output array. *)
Record service_response (Ctx Payload : Type) : Type := {
  response_ctx : Ctx;
  response_payload : Payload
}.

Arguments response_ctx {Ctx Payload} _.
Arguments response_payload {Ctx Payload} _.

Record analytics_request : Type := {
  analytics_statement : string;
  analytics_timeout : option Z;
  analytics_scan_consistency : option scan_consistency_type;
  analytics_readonly : option bool;
  analytics_priority : option bool;
  analytics_positional_parameters : option (list string);
  analytics_named_parameters : option (string_map string);
  analytics_raw : option (string_map string);
  analytics_client_context_id : option string;
  analytics_scope_name : option string;
  analytics_bucket_name : option string
}.

Inductive highlight_style_type : Type :=
| highlight_ansi
| highlight_html.

Record search_request : Type := {
  search_index_name : string;
  search_query_text : string;
  search_timeout : option Z;
  search_limit : option Z;
  search_skip : option Z;
  search_explain : option bool;
  search_disable_scoring : option bool;
  search_include_locations : option bool;
  search_highlight_fields : list string;
  search_fields : list string;
  search_collections : list string;
  search_sort_specs : list string;
  search_highlight_style : option highlight_style_type;
  search_mutation_state : option (list mutation_token);
  search_raw : option (string_map string);
  search_facets : option (string_map string);
  search_client_context_id : option string
}.

Inductive name_space : Type :=
| development
| production.

Inductive sort_order : Type :=
| ascending
| descending.

Record document_view_request : Type := {
  view_bucket_name : string;
  view_document_name : string;
  view_name : string;
  view_name_space : name_space;
  view_timeout : option Z;
  view_consistency : option scan_consistency_type;
  view_keys : option (list string);
  view_order : option sort_order;
  view_reduce : option bool;
  view_group : option bool;
  view_group_level : option Z;
  view_limit : option Z;
  view_skip : option bool;
  view_key : option string;
  view_start_key : option string;
  view_end_key : option string;
  view_start_key_doc_id : option string;
  view_end_key_doc_id : option string;
  view_inclusive_end : option bool;
  view_debug : option bool
}.

Record search_index : Type := {
  idx_name : option string;
  idx_type : option string;
  idx_uuid : option string;
  idx_params_json : option string;
  idx_source_uuid : option string;
  idx_source_name : option string;
  idx_source_type : option string;
  idx_source_params_json : option string
}.

Record search_index_upsert_request : Type := {
  search_index_upsert_index : search_index;
  search_index_upsert_timeout : option Z
}.

End operations.

Export operations.

(** The cluster engine as the bridge sees it: for each kind of request the
    response with which the engine completes the call, the error code of
    [open], [open_bucket] and [close_bucket], and the text of an error code
    ([ec.value()] and [ec.message()]).  [Payload] is the part of the responses
    of the HTTP services that only the output mapping reads. *)
Record cluster (Payload : Type) : Type := {
  execute_upsert : upsert_request -> upsert_response;
  execute_get : get_request -> get_response;
  execute_get_projected : get_projected_request -> get_projected_response;
  execute_exists : exists_request -> exists_response;
  execute_query : query_request -> service_response http_service_context Payload;
  execute_analytics : analytics_request -> service_response http_service_context Payload;
  execute_search : search_request -> service_response http_service_context Payload;
  execute_view : document_view_request -> service_response view Payload;
  execute_search_index_upsert :
    search_index_upsert_request -> service_response http Payload;
  ec_value : error_code -> Z;
  ec_message : error_code -> string
}.

Arguments execute_upsert {Payload} _ _.
Arguments execute_get {Payload} _ _.
Arguments execute_get_projected {Payload} _ _.
Arguments execute_exists {Payload} _ _.
Arguments execute_query {Payload} _ _.
Arguments execute_analytics {Payload} _ _.
Arguments execute_search {Payload} _ _.
Arguments execute_view {Payload} _ _.
Arguments execute_search_index_upsert {Payload} _ _.
Arguments ec_value {Payload} _ _.
Arguments ec_message {Payload} _ _.

(** ** The blocking bridge ([connection_handle::impl], lines 300-403) *)

Module impl.

Section Bridge.

Context {Payload : Type} (cluster_ : cluster Payload).

Definition describe_status (code : error_code) : string :=
  fmt_dec (ec_value cluster_ code) ++ ", " ++ ec_message cluster_ code.

(** [key_value_execute]: the response together with the error, which is set
    exactly when the status of the response is. *)
Definition key_value_execute {Request Response : Type}
  (execute : Request -> Response) (ctx_of : Response -> key_value)
  (operation : string) (request : Request) : outcome (Response * core_error_info) :=
  let resp := execute request in
  let code := kv_ec (ctx_of resp) in
  if ec_set code then
    let* ctx := build_error_context (ctx_of resp) in
    Done (resp,
          {| ec := code;
             location := (310%nat, "key_value_execute");
             message := "unable to execute KV operation " ++ dquote ++ operation
                        ++ dquote ++ ": " ++ describe_status code;
             error_context := ctx_key_value ctx |})
  else Done (resp, no_error).

(** The bridged calls of the HTTP services return the pair of an error and a
    response, of which the caller reads the response only when the error is
    not set: [Failed] stands for the pair with the error, [Ok] for the pair
    with the response. *)
Definition service_execute {Request Ctx : Type}
  (execute : Request -> service_response Ctx Payload) (status : Ctx -> error_code)
  (line : nat) (func what : string) (build : Ctx -> error_context_variant)
  (request : Request) : result (service_response Ctx Payload) :=
  let resp := execute request in
  let code := status (response_ctx resp) in
  if ec_set code then
    Failed {| ec := code;
              location := (line, func);
              message := what ++ ": " ++ describe_status code;
              error_context := build (response_ctx resp) |}
  else Ok resp.

Definition query :=
  service_execute (execute_query cluster_) svc_ec 326 "query" "unable to query"
    (fun ctx => ctx_query (build_query_error_context ctx)).

Definition analytics_query :=
  service_execute (execute_analytics cluster_) svc_ec 343 "analytics_query"
    "unable to query" (fun ctx => ctx_analytics (build_analytics_error_context ctx)).

Definition view_query :=
  service_execute (execute_view cluster_) view_ec 361 "view_query"
    "unable to view query" (fun ctx => ctx_view (build_view_query_error_context ctx)).

Definition search_query :=
  service_execute (execute_search cluster_) svc_ec 379 "search_query"
    "unable to search query"
    (fun ctx => ctx_search (build_search_query_error_context ctx)).

Definition search_index_upsert :=
  service_execute (execute_search_index_upsert cluster_) http_ec 397
    "search_index_upsert" "unable to upsert search index"
    (fun ctx => ctx_http (build_http_error_context ctx)).

End Bridge.

End impl.

(** ** The operation facade ([connection_handle], lines 699-1754) *)

Module connection_handle.

Definition mutation_token_to_zval (token : mutation_token) : zval :=
  let return_value := [] in
  let return_value := add_assoc return_value "bucketName" (ZString (bucket_name token)) in
  let return_value := add_assoc return_value "partitionId" (ZLong (partition_id token)) in
  let return_value :=
    add_assoc return_value "partitionUuid" (ZString (fmt_hex (partition_uuid token))) in
  let return_value :=
    add_assoc return_value "sequenceNumber" (ZString (fmt_hex (sequence_number token))) in
  ZArray return_value.

Definition is_mutation_token_valid (token : mutation_token) : bool :=
  negb (String.eqb (bucket_name token) "") && (0 <? partition_uuid token)%Z.

Definition make_document_id (bucket scope collection id : string) : document_id :=
  {| bucket := bucket; scope := scope; collection := collection; key := id |}.

(** The loop that copies the items of a sequence as JSON strings
    (lines 940-945); [Z_STRVAL_P] is applied to every item. *)
Fixpoint json_strings (items : list zval) (params : list string) : outcome (list string) :=
  match items with
  | [] => Done params
  | item :: rest =>
      let* str := Z_STR_P item in
      json_strings rest (params ++ [str])%list
  end.

(** The loop that copies a mapping of JSON strings (lines 955-959). *)
Fixpoint json_map (entries : HashTable) (params : string_map string)
  : outcome (string_map string) :=
  match entries with
  | [] => Done params
  | (k, item) :: rest =>
      let* name := cb_string_new_key k in
      let* str := Z_STR_P item in
      json_map rest (map_assign params name str)
  end.

(** The condition [value != nullptr && Z_TYPE_P(value) == IS_ARRAY] on the
    value found under [name] in [Z_ARRVAL_P(options)]. *)
Definition find_array (options : option zval) (name : string) : outcome (option HashTable) :=
  let* ht := Z_ARRVAL_P options in
  match zend_symtable_str_find ht name with
  | Some (ZArray value) => Done (Some value)
  | _ => Done None
  end.

Definition assign_json_strings (options : option zval) (name : string)
  : outcome (option (list string)) :=
  let* found := find_array options name in
  match found with
  | Some value => let* params := json_strings (hash_values value) [] in Done (Some params)
  | None => Done None
  end.

Definition assign_json_map (options : option zval) (name : string)
  : outcome (option (string_map string)) :=
  let* found := find_array options name in
  match found with
  | Some value => let* params := json_map value [] in Done (Some params)
  | None => Done None
  end.

(** The loop over the items of [consistentWith] (lines 982-999).  The four
    decoders are given [options], the bag of the whole call; the loop
    variable [item] is not read.  The three numbers are assigned to unsigned
    members of 16, 64 and 64 bits. *)
Fixpoint mutation_tokens (options : option zval) (items : list zval)
  (vectors : list mutation_token) : result (list mutation_token) :=
  match items with
  | [] => Ok vectors
  | item :: rest =>
      let token := mutation_token_default in
      check id_ <- cb_assign_integer to_uint16 (partition_id token) options "partitionId";
      check uuid <- cb_assign_integer to_uint64 (partition_uuid token) options "partitionUuid";
      check seqno <-
        cb_assign_integer to_uint64 (sequence_number token) options "sequenceNumber";
      check bucket <- cb_assign_string (fun s => s) (bucket_name token) options "bucketName";
      mutation_tokens options rest
        (vectors ++ [ {| partition_uuid := uuid; sequence_number := seqno;
                         partition_id := id_; bucket_name := bucket |} ])%list
  end.

Definition assign_mutation_state (options : option zval)
  : result (option (list mutation_token)) :=
  run found <- of_outcome (find_array options "consistentWith");
  match found with
  | Some value =>
      run vectors <- mutation_tokens options (hash_values value) [];
      Ok (Some vectors)
  | None => Ok None
  end.

(** The [scanConsistency] block of [query] and [analytics_query]
    (lines 867-887 and 1118-1138). *)
Definition assign_scan_consistency (line : nat) (func : string) (options : option zval)
  : result (option scan_consistency_type) :=
  let '(e, scan_consistency) := cb_get_integer to_uint64 0 options "scanConsistency" in
  if negb (ec_set (ec e)) then
    if (scan_consistency =? 1)%Z then Ok (Some not_bounded)
    else if (scan_consistency =? 2)%Z then Ok (Some request_plus)
    else if (0 <? scan_consistency)%Z then
      Failed (invalid_argument line func
                ("invalid value used for scan consistency: " ++ fmt_dec scan_consistency))
    else Ok None
  else Failed e.

(** The [profile] block of [query] (lines 900-924). *)
Definition assign_profile (options : option zval) : result (option profile_mode) :=
  let '(e, profile) := cb_get_integer to_uint64 0 options "profile" in
  if negb (ec_set (ec e)) then
    if (profile =? 1)%Z then Ok (Some profile_off)
    else if (profile =? 2)%Z then Ok (Some profile_phases)
    else if (profile =? 3)%Z then Ok (Some profile_timings)
    else if (0 <? profile)%Z then
      Failed (invalid_argument 918 "query"
                ("invalid value used for profile: " ++ fmt_dec profile))
    else Ok None
  else Failed e.

(** The part of [query] that decodes the option bag into the request
    (lines 863-1018). *)
Definition query_request_of_options (statement : string) (options : option zval)
  : result query_request :=
  check timeout <- cb_assign_timeout None options;
  run scan_consistency <- assign_scan_consistency 881 "query" options;
  check scan_cap <- cb_assign_integer Some None options "scanCap";
  check pipeline_cap <- cb_assign_integer Some None options "pipelineCap";
  check pipeline_batch <- cb_assign_integer Some None options "pipelineBatch";
  check max_parallelism <- cb_assign_integer Some None options "maxParallelism";
  run profile <- assign_profile options;
  check readonly <- cb_assign_boolean Some None options "readonly";
  check flex_index <- cb_assign_boolean Some None options "flexIndex";
  check adhoc <- cb_assign_boolean Some None options "adHoc";
  run positional_parameters <- of_outcome (assign_json_strings options "positionalParameters");
  run named_parameters <- of_outcome (assign_json_map options "namedParameters");
  run raw <- of_outcome (assign_json_map options "raw");
  run mutation_state <- assign_mutation_state options;
  check client_context_id <- cb_assign_string Some None options "clientContextId";
  check metrics <- cb_assign_boolean Some None options "metrics";
  check preserve_expiry <- cb_assign_boolean Some None options "preserveExpiry";
  check scope_name <- cb_assign_string Some None options "scopeName";
  check bucket_name <- cb_assign_string Some None options "bucketName";
  Ok {| query_statement := statement;
        query_timeout := timeout;
        query_scan_consistency := scan_consistency;
        query_scan_cap := scan_cap;
        query_pipeline_cap := pipeline_cap;
        query_pipeline_batch := pipeline_batch;
        query_max_parallelism := max_parallelism;
        query_profile := profile;
        query_readonly := readonly;
        query_flex_index := flex_index;
        query_adhoc := adhoc;
        query_positional_parameters := positional_parameters;
        query_named_parameters := named_parameters;
        query_raw := raw;
        query_mutation_state := mutation_state;
        query_client_context_id := client_context_id;
        query_metrics := metrics;
        query_preserve_expiry := preserve_expiry;
        query_scope_name := scope_name;
        query_bucket_name := bucket_name |}.

(** The part of [analytics_query] that decodes the option bag
    (lines 1113-1195). *)
Definition analytics_request_of_options (statement : string) (options : option zval)
  : result analytics_request :=
  check timeout <- cb_assign_timeout None options;
  run scan_consistency <- assign_scan_consistency 1132 "analytics_query" options;
  check readonly <- cb_assign_boolean Some None options "readonly";
  check priority <- cb_assign_boolean Some None options "priority";
  run positional_parameters <- of_outcome (assign_json_strings options "positionalParameters");
  run named_parameters <- of_outcome (assign_json_map options "namedParameters");
  run raw <- of_outcome (assign_json_map options "raw");
  check client_context_id <- cb_assign_string Some None options "clientContextId";
  check scope_name <- cb_assign_string Some None options "scopeName";
  check bucket_name <- cb_assign_string Some None options "bucketName";
  Ok {| analytics_statement := statement;
        analytics_timeout := timeout;
        analytics_scan_consistency := scan_consistency;
        analytics_readonly := readonly;
        analytics_priority := priority;
        analytics_positional_parameters := positional_parameters;
        analytics_named_parameters := named_parameters;
        analytics_raw := raw;
        analytics_client_context_id := client_context_id;
        analytics_scope_name := scope_name;
        analytics_bucket_name := bucket_name |}.

(** The [highlightStyle] block of [search_query] (lines 1295-1315). *)
Definition assign_highlight_style (options : option zval)
  : result (option highlight_style_type) :=
  let '(e, highlight_style) := cb_get_integer to_uint64 0 options "highlightStyle" in
  if negb (ec_set (ec e)) then
    if (highlight_style =? 1)%Z then Ok (Some highlight_ansi)
    else if (highlight_style =? 2)%Z then Ok (Some highlight_html)
    else if (0 <? highlight_style)%Z then
      Failed (invalid_argument 1309 "search_query"
                ("invalid value used for highlight style: " ++ fmt_dec highlight_style))
    else Ok None
  else Failed e.

(** The part of [search_query] that decodes the option bag
    (lines 1263-1373). *)
Definition search_request_of_options (index_name query : string) (options : option zval)
  : result search_request :=
  check timeout <- cb_assign_timeout None options;
  check limit <- cb_assign_integer Some None options "limit";
  check skip <- cb_assign_integer Some None options "skip";
  check explain <- cb_assign_boolean Some None options "explain";
  check disable_scoring <- cb_assign_boolean Some None options "disableScoring";
  check include_locations <- cb_assign_boolean Some None options "includeLocations";
  check highlight_fields <- cb_assign_vector_of_strings [] options "highlightFields";
  check fields <- cb_assign_vector_of_strings [] options "fields";
  check collections <- cb_assign_vector_of_strings [] options "collections";
  check sort_specs <- cb_assign_vector_of_strings [] options "sortSpecs";
  run highlight_style <- assign_highlight_style options;
  run mutation_state <- assign_mutation_state options;
  run raw <- of_outcome (assign_json_map options "raw");
  run facets <- of_outcome (assign_json_map options "facets");
  check client_context_id <- cb_assign_string Some None options "clientContextId";
  Ok {| search_index_name := index_name;
        search_query_text := query;
        search_timeout := timeout;
        search_limit := limit;
        search_skip := skip;
        search_explain := explain;
        search_disable_scoring := disable_scoring;
        search_include_locations := include_locations;
        search_highlight_fields := highlight_fields;
        search_fields := fields;
        search_collections := collections;
        search_sort_specs := sort_specs;
        search_highlight_style := highlight_style;
        search_mutation_state := mutation_state;
        search_raw := raw;
        search_facets := facets;
        search_client_context_id := client_context_id |}.

(** The [switch] on the namespace of [view_query] (lines 1522-1538). *)
Definition view_name_space_of (name_space : Z) : result operations.name_space :=
  let name_space_val := to_uint32 name_space in
  if (name_space_val =? 1)%Z then Ok development
  else if (name_space_val =? 2)%Z then Ok production
  else Failed (invalid_argument 1536 "view_query"
                 ("invalid value used for namespace: " ++ fmt_dec name_space_val)).

(** The [scanConsistency] block of [view_query] (lines 1549-1573). *)
Definition assign_view_consistency (options : option zval)
  : result (option scan_consistency_type) :=
  let '(e, scan_consistency) := cb_get_integer to_uint64 0 options "scanConsistency" in
  if negb (ec_set (ec e)) then
    if (scan_consistency =? 1)%Z then Ok (Some not_bounded)
    else if (scan_consistency =? 2)%Z then Ok (Some request_plus)
    else if (scan_consistency =? 3)%Z then Ok (Some update_after)
    else if (0 <? scan_consistency)%Z then
      Failed (invalid_argument 1567 "view_query"
                ("invalid value used for scan consistency: " ++ fmt_dec scan_consistency))
    else Ok None
  else Failed e.

(** The [order] block of [view_query] (lines 1588-1606). *)
Definition assign_view_order (options : option zval) : result (option sort_order) :=
  let '(e, order) := cb_get_integer to_uint64 0 options "order" in
  if negb (ec_set (ec e)) then
    if (order =? 0)%Z then Ok (Some ascending)
    else if (order =? 1)%Z then Ok (Some descending)
    else Failed (invalid_argument 1601 "view_query"
                   ("invalid value used for order: " ++ fmt_dec order))
  else Failed e.

(** The part of [view_query] that decodes its arguments (lines 1522-1663). *)
Definition view_request_of_options (bucket_name design_document_name view_name : string)
  (name_space : Z) (options : option zval) : result document_view_request :=
  run cxx_name_space <- view_name_space_of name_space;
  check timeout <- cb_assign_timeout None options;
  run consistency <- assign_view_consistency options;
  run keys <- of_outcome (assign_json_strings options "keys");
  run order <- assign_view_order options;
  check reduce <- cb_assign_boolean Some None options "reduce";
  check group <- cb_assign_boolean Some None options "group";
  check group_level <- cb_assign_integer Some None options "groupLevel";
  check limit <- cb_assign_integer Some None options "limit";
  check skip <- cb_assign_boolean Some None options "skip";
  check key <- cb_assign_string Some None options "key";
  check start_key <- cb_assign_string Some None options "startKey";
  check end_key <- cb_assign_string Some None options "endKey";
  check start_key_doc_id <- cb_assign_string Some None options "startKeyDocId";
  check end_key_doc_id <- cb_assign_string Some None options "endKeyDocId";
  check inclusive_end <- cb_assign_boolean Some None options "inclusiveEnd";
  check debug <- cb_assign_boolean Some None options "debug";
  Ok {| view_bucket_name := bucket_name;
        view_document_name := design_document_name;
        operations.view_name := view_name;
        view_name_space := cxx_name_space;
        view_timeout := timeout;
        view_consistency := consistency;
        view_keys := keys;
        view_order := order;
        view_reduce := reduce;
        view_group := group;
        view_group_level := group_level;
        view_limit := limit;
        view_skip := skip;
        view_key := key;
        view_start_key := start_key;
        view_end_key := end_key;
        view_start_key_doc_id := start_key_doc_id;
        view_end_key_doc_id := end_key_doc_id;
        view_inclusive_end := inclusive_end;
        view_debug := debug |}.

(** The part of [search_index_upsert] that decodes the index definition and
    the option bag (lines 1708-1741). *)
Definition search_index_upsert_request_of (index options : option zval)
  : result search_index_upsert_request :=
  check name <- cb_assign_string Some None index "name";
  check type <- cb_assign_string Some None index "type";
  check uuid <- cb_assign_string Some None index "uuid";
  check params_json <- cb_assign_string Some None index "params";
  check source_uuid <- cb_assign_string Some None index "sourceUuid";
  check source_name <- cb_assign_string Some None index "sourceName";
  check source_type <- cb_assign_string Some None index "sourceType";
  check source_params_json <- cb_assign_string Some None index "sourceParams";
  let idx := {| idx_name := name; idx_type := type; idx_uuid := uuid;
                idx_params_json := params_json; idx_source_uuid := source_uuid;
                idx_source_name := source_name; idx_source_type := source_type;
                idx_source_params_json := source_params_json |} in
  check timeout <- cb_assign_timeout None options;
  Ok {| search_index_upsert_index := idx; search_index_upsert_timeout := timeout |}.

(** The part of [document_upsert] that builds the request (lines 727-746). *)
Definition upsert_request_of_options (bucket scope collection id value : string)
  (flags : Z) (options : option zval) : result upsert_request :=
  let doc_id := make_document_id bucket scope collection id in
  check timeout <- cb_assign_timeout None options;
  check durability <- cb_assign_durability durability_default options;
  check preserve_expiry <- cb_assign_boolean Some None options "preserveExpiry";
  check expiry <- cb_assign_integer (fun l => Some (to_uint32 l)) None options "expiry";
  Ok {| upsert_id := doc_id;
        upsert_value := value;
        upsert_flags := to_uint32 flags;
        upsert_timeout := timeout;
        upsert_durability := durability;
        upsert_preserve_expiry := preserve_expiry;
        upsert_expiry := expiry |}.

(** The part of [document_get] that builds the request (lines 771-808): a
    plain get when neither the expiry nor projections are asked for, a
    projected get otherwise. *)
Definition get_request_of_options (bucket scope collection id : string)
  (options : option zval) : result (get_request + get_projected_request) :=
  let doc_id := make_document_id bucket scope collection id in
  check with_expiry <- cb_assign_boolean (fun b => b) false options "withExpiry";
  check projections <- cb_assign_vector_of_strings [] options "projections";
  if negb with_expiry && (match projections with [] => true | _ => false end) then
    check timeout <- cb_assign_timeout None options;
    Ok (inl {| get_id := doc_id; get_timeout := timeout |})
  else
    check timeout <- cb_assign_timeout None options;
    Ok (inr {| get_projected_id := doc_id;
               get_projected_with_expiry := with_expiry;
               get_projected_projections := projections;
               get_projected_timeout := timeout |}).

(** The part of [document_exists] that builds the request (lines 832-842). *)
Definition exists_request_of_options (bucket scope collection id : string)
  (options : option zval) : result exists_request :=
  let doc_id := make_document_id bucket scope collection id in
  check timeout <- cb_assign_timeout None options;
  Ok {| exists_id := doc_id; exists_timeout := timeout |}.

Section Facade.

Context {Payload : Type} (cluster_ : cluster Payload).

(** [document_upsert] (lines 717-761); the result is [return_value]. *)
Definition document_upsert (bucket scope collection id value : string) (flags : Z)
  (options : option zval) : result zval :=
  run request <- upsert_request_of_options bucket scope collection id value flags options;
  run (resp, err) <-
    of_outcome (impl.key_value_execute cluster_ (execute_upsert cluster_) upsert_ctx
                  "document_upsert" request);
  if ec_set (ec err) then Failed err
  else
    let return_value := [] in
    let return_value := add_assoc return_value "cas" (ZString (fmt_hex (upsert_cas resp))) in
    let return_value :=
      if is_mutation_token_valid (upsert_token resp)
      then add_assoc return_value "mutationToken" (mutation_token_to_zval (upsert_token resp))
      else return_value in
    Ok (ZArray return_value).

(** [document_get] (lines 763-822). *)
Definition document_get (bucket scope collection id : string) (options : option zval)
  : result zval :=
  run request <- get_request_of_options bucket scope collection id options;
  match request with
  | inl request =>
      run (resp, err) <-
        of_outcome (impl.key_value_execute cluster_ (execute_get cluster_) get_ctx
                      "document_get" request);
      if ec_set (ec err) then Failed err
      else
        let return_value := [] in
        let return_value := add_assoc return_value "cas" (ZString (fmt_hex (get_cas resp))) in
        let return_value := add_assoc return_value "flags" (ZLong (get_flags resp)) in
        let return_value := add_assoc return_value "value" (ZString (get_value resp)) in
        Ok (ZArray return_value)
  | inr request =>
      run (resp, err) <-
        of_outcome (impl.key_value_execute cluster_ (execute_get_projected cluster_)
                      get_projected_ctx "document_get" request);
      if ec_set (ec err) then Failed err
      else
        let return_value := [] in
        let return_value :=
          add_assoc return_value "cas" (ZString (fmt_hex (get_projected_cas resp))) in
        let return_value :=
          add_assoc return_value "flags" (ZLong (get_projected_flags resp)) in
        let return_value :=
          add_assoc return_value "value" (ZString (get_projected_value resp)) in
        let return_value :=
          match get_projected_expiry resp with
          | Some expiry => add_assoc return_value "expiry" (ZLong expiry)
          | None => return_value
          end in
        Ok (ZArray return_value)
  end.

(** [document_exists] (lines 824-858). *)
Definition document_exists (bucket scope collection id : string) (options : option zval)
  : result zval :=
  run request <- exists_request_of_options bucket scope collection id options;
  run (resp, err) <-
    of_outcome (impl.key_value_execute cluster_ (execute_exists cluster_) exists_ctx
                  "document_exists" request);
  if ec_set (ec err)
     && negb (error_code_eqb (kv_ec (exists_ctx resp)) key_value_errc_document_not_found)
  then Failed err
  else
    let return_value := [] in
    let return_value := add_assoc_bool return_value "exists" (exists_ resp) in
    let return_value := add_assoc_bool return_value "deleted" (exists_deleted resp) in
    let return_value := add_assoc return_value "cas" (ZString (fmt_hex (exists_cas resp))) in
    let return_value := add_assoc return_value "flags" (ZLong (exists_flags resp)) in
    let return_value := add_assoc return_value "datatype" (ZLong (exists_datatype resp)) in
    let return_value := add_assoc return_value "expiry" (ZLong (exists_expiry resp)) in
    let return_value :=
      add_assoc return_value "sequenceNumber"
        (ZString (fmt_hex (exists_sequence_number resp))) in
    Ok (ZArray return_value).

(** The operations on the HTTP services decode the bag, make the bridged
    call and return its error when it is set; otherwise the lines that follow
    copy the response into the output array, which is left to the response
    here. *)
Definition query (statement : string) (options : option zval) :=
  run request <- query_request_of_options statement options;
  impl.query cluster_ request.

Definition analytics_query (statement : string) (options : option zval) :=
  run request <- analytics_request_of_options statement options;
  impl.analytics_query cluster_ request.

Definition search_query (index_name query : string) (options : option zval) :=
  run request <- search_request_of_options index_name query options;
  impl.search_query cluster_ request.

Definition view_query (bucket_name design_document_name view_name : string)
  (name_space : Z) (options : option zval) :=
  run request <-
    view_request_of_options bucket_name design_document_name view_name name_space options;
  impl.view_query cluster_ request.

Definition search_index_upsert (index options : option zval) :=
  run request <- search_index_upsert_request_of index options;
  impl.search_index_upsert cluster_ request.

End Facade.

End connection_handle.

(** ** Cluster-level options ([apply_options], lines 1756-1948) *)

Module ClusterOptions.

(** A value assigned to a member of [connstr.options]. *)
Inductive option_value : Type :=
| duration_ms (ms : Z)
| number_value (n : Z)
| boolean_value (b : bool)
| string_value (s : string)
| tls_verify_peer
| tls_verify_none.

(** [connstr.options] as the bindings of the members that were assigned,
    each under its name. *)
Definition cluster_options : Type := string_map option_value.

(** What one statement of a loop body does: fall through to the next
    statement, [continue] with the next entry, or [return] an error.  The
    members of [connstr.options] are assigned in place, so that each of the
    three carries the options as the statement leaves them. *)
Inductive flow : Type :=
| Next (options : cluster_options)
| Continue (options : cluster_options)
| Return (e : core_error_info) (options : cluster_options).

(** The four [ASSIGN_*_OPTION] macros. *)
Inductive option_kind : Type :=
| DURATION
| NUMBER
| BOOLEAN
| STRING.

(** An invocation of a macro: its kind, the key it tests, the member it
    assigns and its line (the value of [__LINE__] in its expansion). *)
Record assignment : Type := {
  kind : option_kind;
  option_name : string;
  member : string;
  line : nat
}.

Definition invalid (a : assignment) (msg : string) (key : string)
  (options : cluster_options) : flow :=
  Return (invalid_argument (line a) "apply_options" (msg ++ key)) options.

(** The expansion of one invocation for the entry [(key, value)]. *)
Definition assign_option (a : assignment) (key : string) (value : zval)
  (options : cluster_options) : flow :=
  if String.eqb key (option_name a) then
    match kind a, value with
    | _, ZNull => Continue options
    | DURATION, ZLong ms =>
        if (ms <? 0)%Z
        then invalid a "expected duration as a positive number for " key options
        else Next (map_assign options (member a) (duration_ms ms))
    | DURATION, _ => invalid a "expected duration as a number for " key options
    | NUMBER, ZLong n => Next (map_assign options (member a) (number_value n))
    | NUMBER, _ => invalid a "expected number for " key options
    | BOOLEAN, ZTrue => Next (map_assign options (member a) (boolean_value true))
    | BOOLEAN, ZFalse => Next (map_assign options (member a) (boolean_value false))
    | BOOLEAN, _ => invalid a "expected boolean for " key options
    | STRING, ZString s =>
        if String.eqb s "" then invalid a "expected non-empty string for " key options
        else Next (map_assign options (member a) (string_value s))
    | STRING, _ => invalid a "expected string for " key options
    end
  else Next options.

(** A run of invocations, one after the other. *)
Fixpoint assign_options (invocations : list assignment) (key : string) (value : zval)
  (options : cluster_options) : flow :=
  match invocations with
  | [] => Next options
  | a :: rest =>
      match assign_option a key value options with
      | Next options => assign_options rest key value options
      | stop => stop
      end
  end.

Definition invocation (k : option_kind) (name member : string) (line : nat) : assignment :=
  {| kind := k; option_name := name; member := member; line := line |}.

(** Lines 1837-1871. *)
Definition cluster_invocations : list assignment :=
  [ invocation DURATION "analyticsTimeout" "analytics_timeout" 1837;
    invocation DURATION "bootstrapTimeout" "bootstrap_timeout" 1838;
    invocation DURATION "connectTimeout" "connect_timeout" 1839;
    invocation DURATION "dnsSrvTimeout" "dns_srv_timeout" 1840;
    invocation DURATION "keyValueDurableTimeout" "key_value_durable_timeout" 1841;
    invocation DURATION "keyValueTimeout" "key_value_timeout" 1842;
    invocation DURATION "managementTimeout" "management_timeout" 1843;
    invocation DURATION "queryTimeout" "query_timeout" 1844;
    invocation DURATION "resolveTimeout" "resolve_timeout" 1845;
    invocation DURATION "searchTimeout" "search_timeout" 1846;
    invocation DURATION "viewTimeout" "view_timeout" 1847;
    invocation NUMBER "maxHttpConnections" "max_http_connections" 1849;
    invocation DURATION "configIdleRedialTimeout" "config_idle_redial_timeout" 1851;
    invocation DURATION "configPollFloor" "config_poll_floor" 1852;
    invocation DURATION "configPollInterval" "config_poll_interval" 1853;
    invocation DURATION "idleHttpConnectionTimeout" "idle_http_connection_timeout" 1854;
    invocation DURATION "tcpKeepAliveInterval" "tcp_keep_alive_interval" 1855;
    invocation BOOLEAN "enableClustermapNotification" "enable_clustermap_notification" 1857;
    invocation BOOLEAN "enableCompression" "enable_compression" 1858;
    invocation BOOLEAN "enableDnsSrv" "enable_dns_srv" 1859;
    invocation BOOLEAN "enableMetrics" "enable_metrics" 1860;
    invocation BOOLEAN "enableMutationTokens" "enable_mutation_tokens" 1861;
    invocation BOOLEAN "enableTcpKeepAlive" "enable_tcp_keep_alive" 1862;
    invocation BOOLEAN "enableTls" "enable_tls" 1863;
    invocation BOOLEAN "enableTracing" "enable_tracing" 1864;
    invocation BOOLEAN "enableUnorderedExecution" "enable_unordered_execution" 1865;
    invocation BOOLEAN "forceIpv4" "force_ipv4" 1866;
    invocation BOOLEAN "showQueries" "show_queries" 1867;
    invocation STRING "network" "network" 1869;
    invocation STRING "trustCertificate" "trust_certificate" 1870;
    invocation STRING "userAgentExtra" "user_agent_extra" 1871 ].

(** Lines 1909-1920. *)
Definition tracer_invocations : list assignment :=
  [ invocation NUMBER "orphanedSampleSize" "tracing_options.orphaned_sample_size" 1909;
    invocation DURATION "orphanedEmitInterval" "tracing_options.orphaned_emit_interval" 1910;
    invocation NUMBER "thresholdSampleSize" "tracing_options.threshold_sample_size" 1912;
    invocation DURATION "thresholdEmitInterval" "tracing_options.threshold_emit_interval" 1913;
    invocation DURATION "analyticsThreshold" "tracing_options.analytics_threshold" 1914;
    invocation DURATION "eventingThreshold" "tracing_options.eventing_threshold" 1915;
    invocation DURATION "keyValueThreshold" "tracing_options.key_value_threshold" 1916;
    invocation DURATION "managementThreshold" "tracing_options.management_threshold" 1917;
    invocation DURATION "queryThreshold" "tracing_options.query_threshold" 1918;
    invocation DURATION "searchThreshold" "tracing_options.search_threshold" 1919;
    invocation DURATION "viewThreshold" "tracing_options.view_threshold" 1920 ].

(** Line 1940. *)
Definition meter_invocations : list assignment :=
  [ invocation DURATION "emitInterval" "metrics_options.emit_interval" 1940 ].

(** A loop [ZEND_HASH_FOREACH_STR_KEY_VAL] whose body is [body]: the key of
    an entry with an integer index is a null pointer, which the body
    dereferences. *)
Fixpoint foreach_str_key_val (body : string -> zval -> cluster_options -> outcome flow)
  (entries : HashTable) (options : cluster_options)
  : outcome (core_error_info * cluster_options) :=
  match entries with
  | [] => Done (no_error, options)
  | (KIdx _, _) :: _ => Undefined
  | (KStr key, value) :: rest =>
      let* step := body key value options in
      match step with
      | Next options' => foreach_str_key_val body rest options'
      | Continue options' => foreach_str_key_val body rest options'
      | Return e options' => Done (e, options')
      end
  end.

(** The [tlsVerify] block (lines 1873-1892). *)
Definition assign_tls_verify (key : string) (value : zval) (options : cluster_options)
  : flow :=
  if String.eqb key "tlsVerify" then
    match value with
    | ZNull => Continue options
    | ZString s =>
        if String.eqb s "peer" then Next (map_assign options "tls_verify" tls_verify_peer)
        else if String.eqb s "none" then Next (map_assign options "tls_verify" tls_verify_none)
        else Return (invalid_argument 1888 "apply_options"
                       ("expected mode for TLS verification (" ++ key
                        ++ "), supported modes are " ++ dquote ++ "peer" ++ dquote
                        ++ " and " ++ dquote ++ "none" ++ dquote))
               options
    | _ =>
        Return (invalid_argument 1879 "apply_options" ("expected string for " ++ key))
          options
    end
  else Next options.

(** The blocks of the two nested bags (lines 1894-1943): a [continue] of the
    inner loop goes on with the next inner entry, a [return] leaves
    [apply_options] with the members that the inner loop has assigned
    before. *)
Definition assign_nested (name : string) (line : nat) (what : string)
  (invocations : list assignment) (key : string) (value : zval)
  (options : cluster_options) : outcome flow :=
  if String.eqb key name then
    match value with
    | ZNull => Done (Continue options)
    | ZArray inner =>
        let* (e, options') :=
          foreach_str_key_val (fun k v o => Done (assign_options invocations k v o))
            inner options in
        if ec_set (ec e) then Done (Return e options') else Done (Next options')
    | _ =>
        Done (Return (invalid_argument line "apply_options"
                        ("expected array for " ++ key ++ what))
                options)
    end
  else Done (Next options).

(** The body of the outer loop (lines 1836-1944). *)
Definition apply_option (key : string) (value : zval) (options : cluster_options)
  : outcome flow :=
  match assign_options cluster_invocations key value options with
  | Next options =>
      match assign_tls_verify key value options with
      | Next options =>
          let* step :=
            assign_nested "thresholdLoggingTracerOptions" 1900 " as tracer options"
              tracer_invocations key value options in
          match step with
          | Next options =>
              assign_nested "loggingMeterOptions" 1931 " as meter options"
                meter_invocations key value options
          | stop => Done stop
          end
      | stop => Done stop
      end
  | stop => Done stop
  end.

(** [apply_options] (lines 1825-1948); [connstr] stands for
    [connstr.options]. *)
Definition apply_options (connstr : cluster_options) (options : option zval)
  : outcome (core_error_info * cluster_options) :=
  match options with
  | Some (ZArray ht) => foreach_str_key_val apply_option ht connstr
  | _ =>
      Done (invalid_argument 1829 "apply_options" "expected array for cluster options",
            connstr)
  end.

End ClusterOptions.

(** ** The calls on the cluster itself ([connection_handle::impl],
    lines 247-298) *)

Module probe.

Record node : Type := {
  version : string
}.

(** [cluster_describe_response]: the status [ctx.ec] and [info.nodes]. *)
Record cluster_describe_response : Type := {
  describe_ec : error_code;
  nodes : list node
}.

Inductive engine_call : Type :=
| call_open
| call_open_bucket (name : string)
| call_close_bucket (name : string)
| call_cluster_describe.

(** The engine as a state machine: every call is completed once, with a
    result that may depend on the calls made before. *)
Record engine (S : Type) : Type := {
  on_open : S -> error_code * S;
  on_open_bucket : string -> S -> error_code * S;
  on_close_bucket : string -> S -> error_code * S;
  on_cluster_describe : S -> cluster_describe_response * S
}.

Arguments on_open {S} _ _.
Arguments on_open_bucket {S} _ _ _.
Arguments on_close_bucket {S} _ _ _.
Arguments on_cluster_describe {S} _ _.

Definition inspect {A : Type} (a : A) : {b : A | a = b} := exist _ a eq_refl.

Section Calls.

Context {S : Type} (cluster_ : engine S).

(** The state of the engine and the calls it has received, oldest first. *)
Definition world : Type := S * list engine_call.

Definition submit {A : Type} (call : engine_call) (complete : S -> A * S) (w : world)
  : A * world :=
  let '(a, s) := complete (fst w) in
  (a, (s, (snd w ++ [call])%list)).

Definition error_at (line : nat) (func : string) (code : error_code) : core_error_info :=
  if ec_set code then
    {| ec := code; location := (line, func); message := "";
       error_context := no_error_context |}
  else no_error.

(** [open] (lines 267-276). *)
Definition open (w : world) : core_error_info * world :=
  let '(code, w) := submit call_open (on_open cluster_) w in
  (error_at 273 "open" code, w).

(** [bucket_open] (lines 278-287). *)
Definition bucket_open (name : string) (w : world) : core_error_info * world :=
  let '(code, w) := submit (call_open_bucket name) (on_open_bucket cluster_ name) w in
  (error_at 284 "bucket_open" code, w).

(** [bucket_close] (lines 289-298). *)
Definition bucket_close (name : string) (w : world) : core_error_info * world :=
  let '(code, w) := submit (call_close_bucket name) (on_close_bucket cluster_ name) w in
  (error_at 295 "bucket_close" code, w).

Definition cluster_describe (w : world) : cluster_describe_response * world :=
  submit call_cluster_describe (on_cluster_describe cluster_) w.

(** The condition of line 255. *)
Definition needs_bucket (resp : cluster_describe_response) (bucket_name : string) : bool :=
  error_code_eqb (describe_ec resp) common_errc_service_not_available
  && negb (String.eqb bucket_name "").

(** Lines 261-264. *)
Definition version_of (resp : cluster_describe_response) : string :=
  match nodes resp with
  | [] => ""
  | front :: _ => if ec_set (describe_ec resp) then "" else version front
  end.

(** [cluster_version] (lines 247-265).  The call of line 259 passes no
    argument, so that [bucket_name] takes its default, the empty string. *)
Equations? cluster_version (bucket_name : string) (w : world) : string * world
  by wf (String.length bucket_name) lt :=
cluster_version bucket_name w with cluster_describe w := {
  | (resp, w1) with inspect (needs_bucket resp bucket_name) := {
    | exist _ true _ with bucket_open bucket_name w1 := {
      | (e, w2) with ec_set (ec e) := {
        | true := ("", w2);
        | false := cluster_version "" w2 } };
    | exist _ false _ := (version_of resp, w1) } }.
Proof.
  match goal with
  | Hretry : needs_bucket _ _ = true |- _ =>
      apply andb_true_iff in Hretry; destruct Hretry as [_ Hname]
  end.
  match goal with
  | |- (0 < String.length ?b)%nat => destruct b; [discriminate | simpl; lia]
  end.
Qed.

End Calls.

End probe.

(** ** Teardown ([connection_handle::impl::~impl], lines 228-240, and the
    owners of the implementation, lines 244 and 415) *)

Module teardown.

Inductive event : Type :=
| close_requested
| close_completed
| wait_returned
| worker_joined
| handle_released.

(** Where the implementation is: before its destructor ([not_entered], as
    long as a shared pointer owns it), or at the statement of the destructor
    that is executed next. *)
Inductive program_point : Type :=
| not_entered
| at_entry
| at_wait
| at_join
| at_reset
| at_exit.

(** The implementation and what is around it.

    - [cluster_]: the member holds a cluster; [worker_joinable]: the member
      [worker] is joinable.
    - [handle_held]: the [connection_handle] owns the implementation
      ([impl_], line 415).  [worker_running]: the function of the worker
      (line 244) has not returned; its closure owns the implementation
      ([self]) and its thread runs the event loop.
    - [on_worker]: the destructor runs on the thread of the worker.
    - [unattended_close]: the engine completes a close that is requested
      while no thread runs the event loop.  The engine is not part of this
      file; its answer is a parameter of the model.
    - [close_pending]: the engine owes the completion of a close;
      [barrier]: the promise of the destructor has its value.
    - [point]: the program point. *)
Record state : Type := {
  cluster_ : bool;
  worker_joinable : bool;
  worker_running : bool;
  handle_held : bool;
  on_worker : bool;
  unattended_close : bool;
  close_pending : bool;
  barrier : bool;
  point : program_point
}.

(** An implementation that its handle owns, and whose worker is started or
    not. *)
Definition owned (engine handle started : bool) : state :=
  {| cluster_ := handle; worker_joinable := started; worker_running := started;
     handle_held := true; on_worker := false; unattended_close := engine;
     close_pending := false; barrier := false; point := not_entered |}.

Definition release_handle (s : state) : state :=
  {| cluster_ := cluster_ s; worker_joinable := worker_joinable s;
     worker_running := worker_running s; handle_held := false;
     on_worker := on_worker s; unattended_close := unattended_close s;
     close_pending := close_pending s; barrier := barrier s; point := point s |}.

Definition return_worker (s : state) : state :=
  {| cluster_ := cluster_ s; worker_joinable := worker_joinable s;
     worker_running := false; handle_held := handle_held s;
     on_worker := on_worker s; unattended_close := unattended_close s;
     close_pending := close_pending s; barrier := barrier s; point := point s |}.

(** The last owner is gone: the destructor starts, on the thread that gave
    up the last shared pointer. *)
Definition enter (worker_thread : bool) (s : state) : state :=
  {| cluster_ := cluster_ s; worker_joinable := worker_joinable s;
     worker_running := worker_running s; handle_held := handle_held s;
     on_worker := worker_thread; unattended_close := unattended_close s;
     close_pending := close_pending s; barrier := barrier s; point := at_entry |}.

Definition move (p : program_point) (s : state) : state :=
  {| cluster_ := cluster_ s; worker_joinable := worker_joinable s;
     worker_running := worker_running s; handle_held := handle_held s;
     on_worker := on_worker s; unattended_close := unattended_close s;
     close_pending := close_pending s; barrier := barrier s; point := p |}.

Definition requested (s : state) : state :=
  {| cluster_ := cluster_ s; worker_joinable := worker_joinable s;
     worker_running := worker_running s; handle_held := handle_held s;
     on_worker := on_worker s; unattended_close := unattended_close s;
     close_pending := true; barrier := barrier s; point := at_wait |}.

Definition completed (s : state) : state :=
  {| cluster_ := cluster_ s; worker_joinable := worker_joinable s;
     worker_running := worker_running s; handle_held := handle_held s;
     on_worker := on_worker s; unattended_close := unattended_close s;
     close_pending := false; barrier := true; point := point s |}.

Definition joined (s : state) : state :=
  {| cluster_ := cluster_ s; worker_joinable := false;
     worker_running := worker_running s; handle_held := handle_held s;
     on_worker := on_worker s; unattended_close := unattended_close s;
     close_pending := close_pending s; barrier := barrier s; point := at_reset |}.

Definition released (s : state) : state :=
  {| cluster_ := false; worker_joinable := worker_joinable s;
     worker_running := worker_running s; handle_held := handle_held s;
     on_worker := on_worker s; unattended_close := unattended_close s;
     close_pending := close_pending s; barrier := barrier s; point := at_exit |}.

(** One step of the owners, of the destructor or of the engine, with the
    event it shows.

    The implementation is destroyed when its last owner gives it up: the
    handle on the thread of the host, or the closure of the worker, at the
    end of the function of the worker and on its thread.  The completion of
    the close comes from the event loop, or from an engine that completes an
    unattended close.  [join] returns when the function of the worker has
    returned and the caller is another thread; a thread that joins itself
    does not get past the join. *)
Inductive step : state -> option event -> state -> Prop :=
| drop_handle_first s :
    point s = not_entered -> handle_held s = true -> worker_running s = true ->
    step s None (release_handle s)
| drop_handle_last s :
    point s = not_entered -> handle_held s = true -> worker_running s = false ->
    step s None (enter false (release_handle s))
| worker_returns_first s :
    point s = not_entered -> worker_running s = true -> handle_held s = true ->
    step s None (return_worker s)
| worker_returns_last s :
    point s = not_entered -> worker_running s = true -> handle_held s = false ->
    step s None (enter true (return_worker s))
| no_handle s :
    point s = at_entry -> cluster_ s = false ->
    step s None (move at_exit s)
| request_close s :
    point s = at_entry -> cluster_ s = true ->
    step s (Some close_requested) (requested s)
| complete_close s :
    close_pending s = true ->
    worker_running s = true \/ unattended_close s = true ->
    step s (Some close_completed) (completed s)
| wait s :
    point s = at_wait -> barrier s = true ->
    step s (Some wait_returned) (move at_join s)
| join s :
    point s = at_join -> worker_joinable s = true ->
    worker_running s = false -> on_worker s = false ->
    step s (Some worker_joined) (joined s)
| not_joinable s :
    point s = at_join -> worker_joinable s = false ->
    step s None (move at_reset s)
| reset s :
    point s = at_reset ->
    step s (Some handle_released) (released s).

Definition shown (label : option event) : list event :=
  match label with
  | Some e => [e]
  | None => []
  end.

(** [execution s trace s']: the steps from [s] to [s'] show [trace]. *)
Inductive execution : state -> list event -> state -> Prop :=
| execution_refl s : execution s [] s
| execution_step s trace s' label s'' :
    execution s trace s' -> step s' label s'' ->
    execution s (trace ++ shown label)%list s''.

(** The events of a whole teardown. *)
Definition teardown_trace : list event :=
  [close_requested; close_completed; wait_returned; worker_joined; handle_released].



End teardown.

(** ** C strings and appended entries *)

(** The string that a [const char] pointer without a length denotes: the
    bytes before the first NUL.  [std::string::assign] of such a pointer and
    [add_assoc_string] and [add_next_index_string] copy this string. *)
Fixpoint c_str (s : string) : string :=
  match s with
  | EmptyString => EmptyString
  | String c rest =>
      if Ascii.eqb c Ascii.zero then EmptyString else String c (c_str rest)
  end.

(** [nNextFreeElement]: the index that the next appended entry gets. *)
Fixpoint next_free_element (ht : HashTable) : Z :=
  match ht with
  | [] => 0
  | (KIdx h, _) :: rest => Z.max (h + 1) (next_free_element rest)
  | (KStr _, _) :: rest => next_free_element rest
  end.

(** [add_next_index_*]: append [v] under the next free index. *)
Definition add_next_index (ht : HashTable) (v : zval) : HashTable :=
  (ht ++ [(KIdx (next_free_element ht), v)])%list.

(** [add_assoc_string] of a [const char] pointer. *)
Definition add_assoc_string (ht : HashTable) (name : string) (str : string) : HashTable :=
  add_assoc ht name (ZString (c_str str)).

(** ** The connection: credentials and construction (lines 215-245, 404-418
    and 1955-2044) *)

Module Connection.

(** [couchbase::cluster_credentials], the members that this file assigns. *)
Record cluster_credentials : Type := {
  username : string;
  password : string;
  certificate_path : string;
  key_path : string;
  allowed_sasl_mechanisms : list string
}.

(** The loop of lines 1996-2002: the items that are strings are appended
    with their length, the other items are passed over. *)
Fixpoint sasl_mechanisms (items : list zval) (mechanisms : list string) : list string :=
  match items with
  | [] => mechanisms
  | ZString mech :: rest => sasl_mechanisms rest (mechanisms ++ [mech])%list
  | _ :: rest => sasl_mechanisms rest mechanisms
  end.

(** [extract_credentials] (lines 1955-2026). *)
Definition extract_credentials (credentials : cluster_credentials) (options : option zval)
  : core_error_info * cluster_credentials :=
  match options with
  | Some (ZArray ht) =>
      match zend_symtable_str_find ht "authenticator" with
      | Some (ZArray auth) =>
          match zend_symtable_str_find auth "type" with
          | Some (ZString auth_type) =>
              if String.eqb auth_type "password" then
                match zend_symtable_str_find auth "username" with
                | Some (ZString username_) =>
                    match zend_symtable_str_find auth "password" with
                    | Some (ZString password_) =>
                        let credentials :=
                          {| username := c_str username_;
                             password := c_str password_;
                             certificate_path := certificate_path credentials;
                             key_path := key_path credentials;
                             allowed_sasl_mechanisms :=
                               allowed_sasl_mechanisms credentials |} in
                        match zend_symtable_str_find auth "allowedSaslMechanisms" with
                        | None | Some ZNull => (no_error, credentials)
                        | Some (ZArray mechanisms) =>
                            (no_error,
                             {| username := username credentials;
                                password := password credentials;
                                certificate_path := certificate_path credentials;
                                key_path := key_path credentials;
                                allowed_sasl_mechanisms :=
                                  sasl_mechanisms (hash_values mechanisms) [] |})
                        | Some _ =>
                            (invalid_argument 1991 "extract_credentials"
                               "expected allowedSaslMechanisms to be an array in the authenticator",
                             credentials)
                        end
                    | _ =>
                        (invalid_argument 1981 "extract_credentials"
                           "expected password to be a string in the authenticator",
                         credentials)
                    end
                | _ =>
                    (invalid_argument 1975 "extract_credentials"
                       "expected username to be a string in the authenticator",
                     credentials)
                end
              else if String.eqb auth_type "certificate" then
                match zend_symtable_str_find auth "certificatePath" with
                | Some (ZString certificate_path_) =>
                    match zend_symtable_str_find auth "keyPath" with
                    | Some (ZString key_path_) =>
                        (no_error,
                         {| username := username credentials;
                            password := password credentials;
                            certificate_path := c_str certificate_path_;
                            key_path := c_str key_path_;
                            allowed_sasl_mechanisms :=
                              allowed_sasl_mechanisms credentials |})
                    | _ =>
                        (invalid_argument 2016 "extract_credentials"
                           "expected key path to be a string in the authenticator",
                         credentials)
                    end
                | _ =>
                    (invalid_argument 2010 "extract_credentials"
                       "expected certificate path to be a string in the authenticator",
                     credentials)
                end
              else
                (invalid_argument 2024 "extract_credentials"
                   ("unknown type of the authenticator: " ++ auth_type),
                 credentials)
          | _ =>
              (invalid_argument 1969 "extract_credentials"
                 "unexpected type of the authenticator",
               credentials)
          end
      | _ =>
          (invalid_argument 1964 "extract_credentials" "missing authenticator", credentials)
      end
  | _ =>
      (invalid_argument 1959 "extract_credentials" "expected array for cluster options",
       credentials)
  end.

(** [couchbase::utils::connection_string]: the error of the parser, the
    options, and in [parsed] the members that this file does not read. *)
Record connection_string (Parsed : Type) : Type := {
  parsed : Parsed;
  error : option string;
  options : ClusterOptions.cluster_options
}.

Arguments parsed {Parsed} _.
Arguments error {Parsed} _.
Arguments options {Parsed} _.

(** [couchbase::origin], built from the credentials and the connection
    string (line 2042). *)
Record origin (Parsed : Type) : Type := {
  credentials : cluster_credentials;
  connstr : connection_string Parsed
}.

Arguments credentials {Parsed} _.
Arguments connstr {Parsed} _.

(** The members of [connection_handle::impl] (lines 406-409): [cluster_]
    tells whether the shared pointer holds a cluster, [worker] whether the
    thread is joinable. *)
Record impl (Parsed : Type) : Type := {
  cluster_ : bool;
  worker : bool;
  origin_ : origin Parsed
}.

Arguments cluster_ {Parsed} _.
Arguments worker {Parsed} _.
Arguments origin_ {Parsed} _.

(** The constructor (lines 218-221) with the member initialisers of lines
    406-408: the cluster is created, the thread is default-constructed. *)
Definition make_impl {Parsed : Type} (o : origin Parsed) : impl Parsed :=
  {| cluster_ := true; worker := false; origin_ := o |}.

(** [start] (lines 242-245). *)
Definition start {Parsed : Type} (self : impl Parsed) : impl Parsed :=
  {| cluster_ := cluster_ self; worker := true; origin_ := origin_ self |}.

(** The implementation in the hands of its handle, before its teardown;
    [engine] is the answer of the engine to an unattended close. *)
Definition teardown_entry {Parsed : Type} (engine : bool) (self : impl Parsed)
  : teardown.state :=
  teardown.owned engine (cluster_ self) (worker self).

(** [connection_handle]: the expiry and the implementation; the resource
    identifier [id_] comes from the host runtime and is left out. *)
Record connection_handle (Parsed : Type) : Type := {
  idle_expiry_ : Z;
  impl_ : impl Parsed
}.

Arguments idle_expiry_ {Parsed} _.
Arguments impl_ {Parsed} _.

(** The constructor of [connection_handle] (lines 412-418). *)
Definition make_connection_handle {Parsed : Type} (o : origin Parsed) (idle_expiry : Z)
  : connection_handle Parsed :=
  {| idle_expiry_ := idle_expiry; impl_ := start (make_impl o) |}.

Section Create.

(** The parser of connection strings, and the value-initialised
    credentials, both of the engine. *)
Context {Parsed : Type} (parse_connection_string : string -> connection_string Parsed)
  (default_credentials : cluster_credentials).

(** [create_connection_handle] (lines 2028-2044); [None] is [nullptr]. *)
Definition create_connection_handle (connection_string_ : string) (options_ : option zval)
  (idle_expiry : Z) : outcome (option (connection_handle Parsed) * core_error_info) :=
  let connstr := parse_connection_string connection_string_ in
  match error connstr with
  | Some reason =>
      Done (None,
            {| ec := common_errc_parsing_failure;
               location := (2033%nat, "create_connection_handle");
               message := reason;
               error_context := no_error_context |})
  | None =>
      let* (e, assigned) := ClusterOptions.apply_options (options connstr) options_ in
      if ec_set (ec e) then Done (None, e)
      else
        let connstr :=
          {| parsed := parsed connstr; error := error connstr; options := assigned |} in
        let '(e, credentials) := extract_credentials default_credentials options_ in
        if ec_set (ec e) then Done (None, e)
        else
          Done (Some (make_connection_handle
                        {| credentials := credentials; connstr := connstr |} idle_expiry),
                no_error)
  end.

End Create.

End Connection.

(** ** The output arrays of the services (lines 1024-1107, 1202-1257 and
    1670-1701)

    The functions return the address of their local [retval]; the
    definitions below give the value of [retval] at the return statement.
    A number of a response is recorded as the [zend_long] that [add_assoc_long]
    is given. *)

Module Output.

(** An error or a warning of a query response. *)
Record query_problem : Type := {
  problem_code : Z;
  problem_message : string;
  problem_reason : option Z;
  problem_retry : option bool
}.

Record query_metrics : Type := {
  query_error_count : Z;
  query_mutation_count : Z;
  query_result_count : Z;
  query_result_size : Z;
  query_sort_count : Z;
  query_warning_count : Z;
  query_elapsed_time : Z;
  query_execution_time : Z
}.

Record query_meta_data : Type := {
  query_client_context_id : string;
  query_request_id : string;
  query_status : string;
  query_profile : option string;
  query_signature : option string;
  query_metrics_ : option query_metrics;
  query_errors : option (list query_problem);
  query_warnings : option (list query_problem)
}.

Record query_response : Type := {
  query_served_by_node : string;
  query_rows : list string;
  query_meta : query_meta_data
}.

(** The body of the loops of lines 1067-1081 and 1087-1101. *)
Definition query_problem_to_zval (e : query_problem) : zval :=
  let error := [] in
  let error := add_assoc error "code" (ZLong (problem_code e)) in
  let error := add_assoc_string error "code" (problem_message e) in
  let error :=
    match problem_reason e with
    | Some reason => add_assoc error "reason" (ZLong reason)
    | None => error
    end in
  let error :=
    match problem_retry e with
    | Some retry => add_assoc_bool error "retry" retry
    | None => error
    end in
  ZArray error.

(** A loop that appends one entry for each item. *)
Definition append_all {A : Type} (entry : A -> zval) (items : list A) : HashTable :=
  fold_left (fun array item => add_next_index array (entry item)) items [].

Definition query_metrics_to_zval (m : query_metrics) : zval :=
  let metrics := [] in
  let metrics := add_assoc metrics "errorCount" (ZLong (query_error_count m)) in
  let metrics := add_assoc metrics "mutationCount" (ZLong (query_mutation_count m)) in
  let metrics := add_assoc metrics "resultCount" (ZLong (query_result_count m)) in
  let metrics := add_assoc metrics "resultSize" (ZLong (query_result_size m)) in
  let metrics := add_assoc metrics "sortCount" (ZLong (query_sort_count m)) in
  let metrics := add_assoc metrics "warningCount" (ZLong (query_warning_count m)) in
  let metrics :=
    add_assoc metrics "elapsedTimeMilliseconds" (ZLong (query_elapsed_time m)) in
  let metrics :=
    add_assoc metrics "executionTimeMilliseconds" (ZLong (query_execution_time m)) in
  ZArray metrics.

(** The output of [query] (lines 1024-1107). *)
Definition query_retval (resp : query_response) : zval :=
  let retval := [] in
  let retval := add_assoc_string retval "servedByNode" (query_served_by_node resp) in
  let rows := append_all (fun row => ZString (c_str row)) (query_rows resp) in
  let retval := add_assoc retval "rows" (ZArray rows) in
  let meta := [] in
  let meta :=
    add_assoc_string meta "clientContextId" (query_client_context_id (query_meta resp)) in
  let meta := add_assoc_string meta "requestId" (query_request_id (query_meta resp)) in
  let meta := add_assoc_string meta "status" (query_status (query_meta resp)) in
  let meta :=
    match query_profile (query_meta resp) with
    | Some profile => add_assoc_string meta "profile" profile
    | None => meta
    end in
  let meta :=
    match query_signature (query_meta resp) with
    | Some signature => add_assoc_string meta "signature" signature
    | None => meta
    end in
  let meta :=
    match query_metrics_ (query_meta resp) with
    | Some metrics => add_assoc meta "metrics" (query_metrics_to_zval metrics)
    | None => meta
    end in
  let retval :=
    match query_errors (query_meta resp) with
    | Some errors =>
        add_assoc retval "errors" (ZArray (append_all query_problem_to_zval errors))
    | None => retval
    end in
  let retval :=
    match query_warnings (query_meta resp) with
    | Some warnings =>
        add_assoc retval "warnings" (ZArray (append_all query_problem_to_zval warnings))
    | None => retval
    end in
  let retval := add_assoc retval "meta" (ZArray meta) in
  ZArray retval.

Record analytics_problem : Type := {
  analytics_code : Z;
  analytics_message : string
}.

Record analytics_metrics : Type := {
  analytics_error_count : Z;
  analytics_processed_objects : Z;
  analytics_result_count : Z;
  analytics_result_size : Z;
  analytics_warning_count : Z;
  analytics_elapsed_time : Z;
  analytics_execution_time : Z
}.

Record analytics_meta_data : Type := {
  analytics_client_context_id : string;
  analytics_request_id : string;
  analytics_status : string;
  analytics_signature : option string;
  analytics_metrics_ : analytics_metrics;
  analytics_warnings : list analytics_problem
}.

Record analytics_response : Type := {
  analytics_rows : list string;
  analytics_meta : analytics_meta_data
}.

(** The body of the loop of lines 1242-1250. *)
Definition analytics_problem_to_zval (w : analytics_problem) : zval :=
  let warning := [] in
  let warning := add_assoc warning "code" (ZLong (analytics_code w)) in
  let warning := add_assoc_string warning "code" (analytics_message w) in
  ZArray warning.

Definition analytics_metrics_to_zval (m : analytics_metrics) : zval :=
  let metrics := [] in
  let metrics := add_assoc metrics "errorCount" (ZLong (analytics_error_count m)) in
  let metrics :=
    add_assoc metrics "processedObjects" (ZLong (analytics_processed_objects m)) in
  let metrics := add_assoc metrics "resultCount" (ZLong (analytics_result_count m)) in
  let metrics := add_assoc metrics "resultSize" (ZLong (analytics_result_size m)) in
  let metrics := add_assoc metrics "warningCount" (ZLong (analytics_warning_count m)) in
  let metrics :=
    add_assoc metrics "elapsedTimeMilliseconds" (ZLong (analytics_elapsed_time m)) in
  let metrics :=
    add_assoc metrics "executionTimeMilliseconds" (ZLong (analytics_execution_time m)) in
  ZArray metrics.

(** The output of [analytics_query] (lines 1202-1257); the rows are added
    with their length. *)
Definition analytics_retval (resp : analytics_response) : zval :=
  let retval := [] in
  let rows := append_all ZString (analytics_rows resp) in
  let retval := add_assoc retval "rows" (ZArray rows) in
  let meta := [] in
  let meta :=
    add_assoc_string meta "clientContextId"
      (analytics_client_context_id (analytics_meta resp)) in
  let meta := add_assoc_string meta "requestId" (analytics_request_id (analytics_meta resp)) in
  let meta := add_assoc_string meta "status" (analytics_status (analytics_meta resp)) in
  let meta :=
    match analytics_signature (analytics_meta resp) with
    | Some signature => add_assoc_string meta "signature" signature
    | None => meta
    end in
  let meta :=
    add_assoc meta "metrics"
      (analytics_metrics_to_zval (analytics_metrics_ (analytics_meta resp))) in
  let retval :=
    add_assoc retval "warnings"
      (ZArray (append_all analytics_problem_to_zval
                 (analytics_warnings (analytics_meta resp)))) in
  let retval := add_assoc retval "meta" (ZArray meta) in
  ZArray retval.

Record view_row : Type := {
  row_id : option string;
  row_value : string;
  row_key : string
}.

Record view_meta_data : Type := {
  view_debug_info : option string;
  view_total_rows : option Z
}.

Record view_response : Type := {
  view_rows : list view_row;
  view_meta : view_meta_data
}.

(** The body of the loop of lines 1675-1685. *)
Definition view_row_to_zval (row : view_row) : zval :=
  let zrow := [] in
  let zrow :=
    match row_id row with
    | Some id => add_assoc_string zrow "id" id
    | None => zrow
    end in
  let zrow := add_assoc_string zrow "value" (row_value row) in
  let zrow := add_assoc_string zrow "key" (row_key row) in
  ZArray zrow.

(** The local [meta] of [view_query] before line 1698 (lines 1689-1697). *)
Definition view_meta_to_array (m : view_meta_data) : HashTable :=
  let meta := [] in
  let meta :=
    match view_debug_info m with
    | Some debug_info => add_assoc_string meta "debugInfo" debug_info
    | None => meta
    end in
  let meta :=
    match view_total_rows m with
    | Some total_rows => add_assoc meta "totalRows" (ZLong total_rows)
    | None => meta
    end in
  meta.

(** The output of [view_query] (lines 1670-1701).  Line 1698 stores the
    local [meta] under the key "meta" of [meta] itself, and the block of
    [meta] ends: [retval] is not written after line 1686. *)
Definition view_retval (resp : view_response) : zval :=
  let retval := [] in
  let rows := append_all view_row_to_zval (view_rows resp) in
  let retval := add_assoc retval "rows" (ZArray rows) in
  ZArray retval.

(** The operations with their output: the error of the facade, or the
    output array of the response. *)
Definition query {Payload : Type} (to_response : Payload -> query_response)
  (cluster_ : cluster Payload) (statement : string) (options : option zval) : result zval :=
  run resp <- connection_handle.query cluster_ statement options;
  Ok (query_retval (to_response (response_payload resp))).

Definition analytics_query {Payload : Type} (to_response : Payload -> analytics_response)
  (cluster_ : cluster Payload) (statement : string) (options : option zval) : result zval :=
  run resp <- connection_handle.analytics_query cluster_ statement options;
  Ok (analytics_retval (to_response (response_payload resp))).

Definition view_query {Payload : Type} (to_response : Payload -> view_response)
  (cluster_ : cluster Payload) (bucket_name design_document_name view_name : string)
  (name_space : Z) (options : option zval) : result zval :=
  run resp <-
    connection_handle.view_query cluster_ bucket_name design_document_name view_name
      name_space options;
  Ok (view_retval (to_response (response_payload resp))).

End Output.

(** ** Shapes of an option bag *)

(** The bag is [nullptr] or the host-language null. *)
Definition null_bag (options : option zval) : Prop :=
  options = None \/ options = Some ZNull.

(** The bag is there and is neither null nor an array. *)
Definition malformed_bag (options : option zval) : Prop :=
  exists v, options = Some v /\ Z_TYPE_P v <> IS_NULL /\ Z_TYPE_P v <> IS_ARRAY.

(** A value that is there and is neither null nor an array. *)
Definition scalar (v : zval) : Prop :=
  Z_TYPE_P v <> IS_NULL /\ Z_TYPE_P v <> IS_ARRAY.

(** The bag [ht] without the entries stored under the string key [k]. *)
Definition without_key (ht : HashTable) (k : string) : HashTable :=
  filter (fun entry => negb (key_is k (fst entry))) ht.

(** The range of a [zend_long]. *)
Definition zend_long (n : Z) : Prop := - 2 ^ 63 <= n < 2 ^ 63.

(** The keys of a query whose values are sequences or mappings. *)
Definition query_sequence_keys : list string :=
  ["positionalParameters"; "namedParameters"; "raw"; "consistentWith"].

(** ** Invariant of the teardown *)

(** What the owners, the destructor and the engine have done to a started
    connection when it is in the state [s], and what they have shown:
    [engine] is the answer of the engine, [handle] tells whether the
    connection has a cluster. *)
Definition teardown_invariant (engine handle : bool) (s : teardown.state)
  (trace : list teardown.event) : Prop :=
  teardown.unattended_close s = engine
  /\ match teardown.point s with
     | teardown.not_entered =>
         trace = [] /\ teardown.cluster_ s = handle
         /\ teardown.worker_joinable s = true
         /\ teardown.close_pending s = false /\ teardown.barrier s = false
     | teardown.at_entry =>
         trace = [] /\ teardown.cluster_ s = handle
         /\ teardown.worker_joinable s = true
         /\ teardown.worker_running s = false /\ teardown.handle_held s = false
         /\ teardown.close_pending s = false /\ teardown.barrier s = false
     | teardown.at_wait =>
         handle = true /\ teardown.cluster_ s = true
         /\ teardown.worker_joinable s = true
         /\ teardown.worker_running s = false /\ teardown.handle_held s = false
         /\ ((teardown.close_pending s = true /\ teardown.barrier s = false
              /\ trace = [teardown.close_requested])
             \/ (teardown.close_pending s = false /\ teardown.barrier s = true
                 /\ engine = true
                 /\ trace = [teardown.close_requested; teardown.close_completed]))
     | teardown.at_join =>
         handle = true /\ teardown.cluster_ s = true
         /\ teardown.worker_joinable s = true
         /\ teardown.worker_running s = false /\ teardown.handle_held s = false
         /\ teardown.close_pending s = false /\ teardown.barrier s = true
         /\ engine = true
         /\ trace = [teardown.close_requested; teardown.close_completed;
                     teardown.wait_returned]
     | teardown.at_reset =>
         handle = true /\ teardown.cluster_ s = true
         /\ teardown.worker_joinable s = false
         /\ teardown.worker_running s = false /\ teardown.handle_held s = false
         /\ teardown.on_worker s = false
         /\ teardown.close_pending s = false /\ teardown.barrier s = true
         /\ engine = true
         /\ trace = [teardown.close_requested; teardown.close_completed;
                     teardown.wait_returned; teardown.worker_joined]
     | teardown.at_exit =>
         teardown.cluster_ s = false
         /\ teardown.worker_running s = false /\ teardown.handle_held s = false
         /\ teardown.close_pending s = false
         /\ ((handle = true /\ teardown.worker_joinable s = false
              /\ teardown.on_worker s = false /\ teardown.barrier s = true
              /\ engine = true /\ trace = teardown.teardown_trace)
             \/ (handle = false /\ trace = []))
     end.

(** [fails_with r code]: the operation returns an error with the code
    [code]. *)
Definition fails_with {A : Type} (r : result A) (code : error_code) : Prop :=
  exists err, r = Failed err /\ ec err = code.

(** ** Concrete inputs *)

Module Fixtures.

Definition travel_doc : document_id :=
  {| bucket := "travel-sample"; scope := "inventory"; collection := "airline";
     key := "airline_10" |}.

(** The raw context of a response without error. *)
Definition kv_ok : key_value :=
  {| kv_id := travel_doc; kv_ec := ec_success; kv_opaque := 7; kv_cas := 42;
     kv_status_code := Some 0; error_map_info := None; enhanced_error_info := None;
     kv_last_dispatched_to := Some "10.0.0.1:11210";
     kv_last_dispatched_from := Some "10.0.0.9:50712";
     kv_retry_attempts := 0; kv_retry_reasons := [] |}.

Definition kv_with (code : error_code) : key_value :=
  {| kv_id := travel_doc; kv_ec := code; kv_opaque := 7; kv_cas := 0;
     kv_status_code := Some 1; error_map_info := None; enhanced_error_info := None;
     kv_last_dispatched_to := Some "10.0.0.1:11210";
     kv_last_dispatched_from := Some "10.0.0.9:50712";
     kv_retry_attempts := 1; kv_retry_reasons := [kv_locked] |}.

(** A failed response that carries both the error-map information and the
    enhanced error information. *)
Definition kv_locked_ctx : key_value :=
  {| kv_id := travel_doc; kv_ec := engine_errc 9; kv_opaque := 7; kv_cas := 0;
     kv_status_code := Some 9;
     error_map_info := Some {| name := "LOCKED"; description := "Requested resource is locked" |};
     enhanced_error_info :=
       Some {| reference := "5b3f0c1e"; context := "document held by transaction 17" |};
     kv_last_dispatched_to := Some "10.0.0.1:11210";
     kv_last_dispatched_from := Some "10.0.0.9:50712";
     kv_retry_attempts := 2; kv_retry_reasons := [kv_locked; kv_locked] |}.

Definition svc_with (code : error_code) : http_service_context :=
  {| svc_ec := code; svc_client_context_id := "c-1"; svc_statement := "SELECT 1";
     svc_index_name := "hotels"; svc_parameters := None;
     svc_first_error_message := ""; svc_first_error_code := 0;
     svc_http_status := 200; svc_http_body := ""; svc_retry_attempts := 0;
     svc_retry_reasons := [] |}.

Definition view_with (code : error_code) : ErrorContext.view :=
  {| view_ec := code; view_client_context_id := "c-1";
     view_design_document_name := "beers"; view_view_name := "by_name";
     view_query_string := []; view_http_status := 200; view_http_body := "";
     view_retry_attempts := 0; view_retry_reasons := [] |}.

Definition http_with (code : error_code) : http :=
  {| http_ec := code; http_client_context_id := "c-1"; http_method := "PUT";
     http_path := "/api/index/hotels"; http_http_status := 200; http_http_body := "";
     http_retry_attempts := 0; http_retry_reasons := [];
     http_last_dispatched_from := None; http_last_dispatched_to := None |}.

(** An engine that completes every key-value call with the context [kv] and
    the mutation token [token], and every call of an HTTP service with the
    status [code]. *)
Definition replying (kv : key_value) (token : mutation_token) (code : error_code)
  : cluster unit :=
  {| execute_upsert := fun _ =>
       {| upsert_ctx := kv; upsert_cas := 1582056726267232256; upsert_token := token |};
     execute_get := fun _ =>
       {| get_ctx := kv; get_cas := 1582056726267232256; get_flags := 0;
          get_value := "{}" |};
     execute_get_projected := fun _ =>
       {| get_projected_ctx := kv; get_projected_cas := 1582056726267232256;
          get_projected_flags := 0; get_projected_value := "{}";
          get_projected_expiry := None |};
     execute_exists := fun _ =>
       {| exists_ctx := kv; exists_deleted := false; exists_cas := 0; exists_flags := 0;
          exists_expiry := 0; exists_sequence_number := 0; exists_datatype := 0 |};
     execute_query := fun _ => {| response_ctx := svc_with code; response_payload := tt |};
     execute_analytics := fun _ =>
       {| response_ctx := svc_with code; response_payload := tt |};
     execute_search := fun _ => {| response_ctx := svc_with code; response_payload := tt |};
     execute_view := fun _ => {| response_ctx := view_with code; response_payload := tt |};
     execute_search_index_upsert := fun _ =>
       {| response_ctx := http_with code; response_payload := tt |};
     ec_value := fun _ => 0;
     ec_message := fun _ => "" |}.

Definition travel_token : mutation_token :=
  {| partition_uuid := 240923746123; sequence_number := 12; partition_id := 56;
     bucket_name := "travel-sample" |}.

Definition timeout_and_durability : option zval :=
  Some (ZArray [(KStr "timeoutMilliseconds", ZLong 2500);
                (KStr "durabilityLevel", ZString "majority")]).

(** Two mutation-token records with different members. *)
Definition consistent_with : option zval :=
  Some (ZArray
    [(KStr "consistentWith",
      ZArray [(KIdx 0, ZArray [(KStr "bucketName", ZString "travel-sample");
                               (KStr "partitionId", ZLong 56);
                               (KStr "partitionUuid", ZLong 240923746123);
                               (KStr "sequenceNumber", ZLong 12)]);
              (KIdx 1, ZArray [(KStr "bucketName", ZString "beer-sample");
                               (KStr "partitionId", ZLong 731);
                               (KStr "partitionUuid", ZLong 98120473551);
                               (KStr "sequenceNumber", ZLong 4)])])]).

Definition scalar_positional_parameters : option zval :=
  Some (ZArray [(KStr "positionalParameters", ZLong 5)]).

Definition scan_consistency_zero : option zval :=
  Some (ZArray [(KStr "scanConsistency", ZLong 0)]).

(** An engine whose state counts the buckets opened so far: the cluster
    cannot be described before a bucket is open, and every bucket opens. *)
Definition needs_a_bucket : probe.engine nat :=
  {| probe.on_open := fun s => (ec_success, s);
     probe.on_open_bucket := fun _ s => (ec_success, Datatypes.S s);
     probe.on_close_bucket := fun _ s => (ec_success, Nat.pred s);
     probe.on_cluster_describe := fun s =>
       match s with
       | O => ({| probe.describe_ec := common_errc_service_not_available;
                  probe.nodes := [] |}, s)
       | _ => ({| probe.describe_ec := ec_success;
                  probe.nodes := [ {| probe.version := "7.0.2-6703-enterprise" |} ] |}, s)
       end |}.

End Fixtures.

(** ** Vocabulary of the further properties *)

(** An error raised by a decoder: the code [invalid_argument] and no typed
    context. *)
Definition validation_error (e : core_error_info) : Prop :=
  ec e = common_errc_invalid_argument /\ error_context e = no_error_context.

(** An enumerator that [retry_reason_to_string] lists. *)
Definition listed_reason (reason : retry_reason) : Prop :=
  match reason with
  | retry_reason_other _ => False
  | _ => True
  end.

(** The integer, and the boolean, that a bag holds under a key. *)
Definition long_at (ht : HashTable) (k : string) : option Z :=
  match zend_symtable_str_find ht k with
  | Some (ZLong l) => Some l
  | _ => None
  end.

Definition bool_at (ht : HashTable) (k : string) : option bool :=
  match zend_symtable_str_find ht k with
  | Some ZTrue => Some true
  | Some ZFalse => Some false
  | _ => None
  end.

(** The keys that [document_upsert] and [query] look up in the bag. *)
Definition upsert_keys : list string :=
  ["timeoutMilliseconds"; "durabilityLevel"; "durabilityTimeoutSeconds";
   "preserveExpiry"; "expiry"].

Definition query_keys : list string :=
  ["timeoutMilliseconds"; "scanConsistency"; "scanCap"; "pipelineCap"; "pipelineBatch";
   "maxParallelism"; "profile"; "readonly"; "flexIndex"; "adHoc";
   "positionalParameters"; "namedParameters"; "raw"; "consistentWith";
   "partitionId"; "partitionUuid"; "sequenceNumber"; "bucketName";
   "clientContextId"; "metrics"; "preserveExpiry"; "scopeName"].

(** The keys that the body of the loop of [apply_options] tests. *)
Definition cluster_option_keys : list string :=
  (map ClusterOptions.option_name ClusterOptions.cluster_invocations
   ++ ["tlsVerify"; "thresholdLoggingTracerOptions"; "loggingMeterOptions"])%list.

(** The entry has a string key that [apply_options] does not know. *)
Definition unknown_cluster_option (entry : zend_key * zval) : bool :=
  match fst entry with
  | KStr k => negb (existsb (String.eqb k) cluster_option_keys)
  | KIdx _ => false
  end.

Definition is_string (v : zval) : bool :=
  match v with
  | ZString _ => true
  | _ => false
  end.

(** The string that a bag holds under a key. *)
Definition string_at (ht : HashTable) (k : string) : option string :=
  match zend_symtable_str_find ht k with
  | Some (ZString s) => Some s
  | _ => None
  end.

(** The token that the loops over [consistentWith] build from the bag of the
    call: the integers of the bag as unsigned numbers of the width of the
    members. *)
Definition token_of_bag (ht : HashTable) : mutation_token :=
  {| partition_uuid :=
       match long_at ht "partitionUuid" with Some l => to_uint64 l | None => 0 end;
     sequence_number :=
       match long_at ht "sequenceNumber" with Some l => to_uint64 l | None => 0 end;
     partition_id :=
       match long_at ht "partitionId" with Some l => to_uint16 l | None => 0 end;
     bucket_name := match string_at ht "bucketName" with Some s => s | None => "" end |}.

(** A [zend_long] read as an unsigned 64-bit number. *)
Definition as_unsigned (v : Z) : Z := if (v <? 0)%Z then v + 2 ^ 64 else v.

(** No string occurs twice in the list. *)
Fixpoint distinct (l : list string) : bool :=
  match l with
  | [] => true
  | x :: rest => negb (existsb (String.eqb x) rest) && distinct rest
  end.

(** The strings among the values. *)
Definition strings_of (items : list zval) : list string :=
  flat_map (fun v => match v with ZString s => [s] | _ => [] end) items.

(** The string holds no NUL. *)
Definition nul_free (s : string) : Prop := ~ In Ascii.zero (list_ascii_of_string s).

(** The keys of an array that was filled by appending [n] entries. *)
Definition indices (n : nat) : list zend_key :=
  map (fun i => KIdx (Z.of_nat i)) (seq 0 n).

(** The value that an array holds under a string key. *)
Definition member_of (v : zval) (k : string) : option zval :=
  match v with
  | ZArray ht => zend_symtable_str_find ht k
  | _ => None
  end.

(** A bag with a password authenticator, and one with a certificate. *)
Definition password_bag (user secret : string) (mechanisms : zval) : option zval :=
  Some (ZArray [(KStr "authenticator",
                 ZArray [(KStr "type", ZString "password");
                         (KStr "username", ZString user);
                         (KStr "password", ZString secret);
                         (KStr "allowedSaslMechanisms", mechanisms)]);
                (KStr "kvTimeout", ZLong 2500)]).

Definition no_credentials : Connection.cluster_credentials :=
  {| Connection.username := ""; Connection.password := "";
     Connection.certificate_path := ""; Connection.key_path := "";
     Connection.allowed_sasl_mechanisms := ["SCRAM-SHA512"; "PLAIN"] |}.

(** A parser that accepts every connection string but the empty one. *)
Definition parse_non_empty (s : string) : Connection.connection_string string :=
  {| Connection.parsed := s;
     Connection.error := if String.eqb s "" then Some "empty connection string" else None;
     Connection.options := [] |}.

(** A query response with one row that holds a NUL, and with one error. *)
Definition sample_query_response : Output.query_response :=
  {| Output.query_served_by_node := "10.0.0.1:8093";
     Output.query_rows := ["{}"; "a" ++ String Ascii.zero "b"];
     Output.query_meta :=
       {| Output.query_client_context_id := "c-1";
          Output.query_request_id := "r-1";
          Output.query_status := "errors";
          Output.query_profile := None;
          Output.query_signature := None;
          Output.query_metrics_ := None;
          Output.query_errors :=
            Some [ {| Output.problem_code := 3000;
                      Output.problem_message := "syntax error";
                      Output.problem_reason := None;
                      Output.problem_retry := Some false |} ];
          Output.query_warnings := None |} |}.

(** A view response with one row and with metadata. *)
Definition sample_view_response : Output.view_response :=
  {| Output.view_rows :=
       [ {| Output.row_id := Some "airline_10"; Output.row_value := "null";
            Output.row_key := "10" |} ];
     Output.view_meta :=
       {| Output.view_debug_info := None; Output.view_total_rows := Some 187 |} |}.

(** The problem [p] with another code. *)
Definition with_code (p : Output.query_problem) (code : Z) : Output.query_problem :=
  {| Output.problem_code := code;
     Output.problem_message := Output.problem_message p;
     Output.problem_reason := Output.problem_reason p;
     Output.problem_retry := Output.problem_retry p |}.

(** The members of a mutation token are in the range of their unsigned
    types. *)
Definition unsigned_token (token : mutation_token) : Prop :=
  0 <= partition_uuid token /\ 0 <= sequence_number token.

(** * Properties *)

Ltac bag_cases H :=
  match type of H with
  | null_bag _ => destruct H as [-> | ->]
  | malformed_bag _ =>
      let v := fresh "v" in
      let Hnull := fresh "Hnull" in
      let Harr := fresh "Harr" in
      destruct H as (v & -> & Hnull & Harr);
      destruct v; simpl in Hnull, Harr; try congruence
  | scalar ?v =>
      let Hnull := fresh "Hnull" in
      let Harr := fresh "Harr" in
      destruct H as (Hnull & Harr);
      destruct v; simpl in Hnull, Harr; try congruence
  end.

Section DecodersOnBags.

Context {Boolean Integer String_ : Type}.
Variables (of_bool : bool -> Boolean) (of_long : Z -> Integer)
  (of_string : string -> String_).

Lemma null_bag_leaves_fields (options : option zval) :
  null_bag options ->
  forall (timeout : option Z) (req : durability) (b : Boolean) (i : Integer)
         (s : String_) (l : list string) (k : string),
    cb_assign_timeout timeout options = (no_error, timeout)
    /\ cb_assign_durability req options = (no_error, req)
    /\ cb_assign_boolean of_bool b options k = (no_error, b)
    /\ cb_assign_integer of_long i options k = (no_error, i)
    /\ cb_assign_string of_string s options k = (no_error, s)
    /\ cb_assign_vector_of_strings l options k = (no_error, l)
    /\ cb_get_integer of_long i options k = (no_error, i).
Proof.
  intros H; bag_cases H; intros; repeat split; reflexivity.
Qed.

Lemma malformed_bag_is_invalid (options : option zval) :
  malformed_bag options ->
  forall (timeout : option Z) (req : durability) (b : Boolean) (i : Integer)
         (s : String_) (l : list string) (k : string),
    ec (fst (cb_assign_timeout timeout options)) = common_errc_invalid_argument
    /\ ec (fst (cb_assign_durability req options)) = common_errc_invalid_argument
    /\ ec (fst (cb_assign_boolean of_bool b options k)) = common_errc_invalid_argument
    /\ ec (fst (cb_assign_integer of_long i options k)) = common_errc_invalid_argument
    /\ ec (fst (cb_assign_string of_string s options k)) = common_errc_invalid_argument
    /\ ec (fst (cb_assign_vector_of_strings l options k)) = common_errc_invalid_argument
    /\ ec (fst (cb_get_integer of_long i options k)) = common_errc_invalid_argument.
Proof.
  intros H; bag_cases H; intros; repeat split; reflexivity.
Qed.

End DecodersOnBags.

Lemma apply_options_rejects_null (options : option zval) (connstr : ClusterOptions.cluster_options) :
  null_bag options ->
  ClusterOptions.apply_options connstr options
  = Done (invalid_argument 1829 "apply_options" "expected array for cluster options",
          connstr).
Proof.
  intros H; bag_cases H; reflexivity.
Qed.

(** C10.  Each of the seven per-operation decoders returns no error on a bag
    that is a null pointer or the host-language null and leaves the field it
    was given as it is ([cb_get_integer] returns the value-initialised
    integer), and returns [invalid_argument] on a bag that is there but is
    not an array; the cluster-level [apply_options] rejects the null bag
    with [invalid_argument]. *)
Theorem decoders_on_null_and_malformed_bags :
  forall (Boolean Integer String_ : Type) (of_bool : bool -> Boolean)
         (of_long : Z -> Integer) (of_string : string -> String_) (zero : Integer)
         (options : option zval) (timeout : option Z) (req : durability)
         (b : Boolean) (i : Integer) (s : String_) (l : list string) (k : string)
         (connstr : ClusterOptions.cluster_options),
    (null_bag options ->
       cb_assign_timeout timeout options = (no_error, timeout)
       /\ cb_assign_durability req options = (no_error, req)
       /\ cb_assign_boolean of_bool b options k = (no_error, b)
       /\ cb_assign_integer of_long i options k = (no_error, i)
       /\ cb_assign_string of_string s options k = (no_error, s)
       /\ cb_assign_vector_of_strings l options k = (no_error, l)
       /\ cb_get_integer of_long zero options k = (no_error, zero)
       /\ exists e,
            ClusterOptions.apply_options connstr options = Done (e, connstr)
            /\ ec e = common_errc_invalid_argument)
    /\ (malformed_bag options ->
          ec (fst (cb_assign_timeout timeout options)) = common_errc_invalid_argument
          /\ ec (fst (cb_assign_durability req options)) = common_errc_invalid_argument
          /\ ec (fst (cb_assign_boolean of_bool b options k))
             = common_errc_invalid_argument
          /\ ec (fst (cb_assign_integer of_long i options k))
             = common_errc_invalid_argument
          /\ ec (fst (cb_assign_string of_string s options k))
             = common_errc_invalid_argument
          /\ ec (fst (cb_assign_vector_of_strings l options k))
             = common_errc_invalid_argument
          /\ ec (fst (cb_get_integer of_long zero options k))
             = common_errc_invalid_argument).
Proof.
  intros. split; intros H.
  - pose proof (null_bag_leaves_fields of_bool of_long of_string options H
                  timeout req b i s l k) as (H1 & H2 & H3 & H4 & H5 & H6 & _).
    pose proof (null_bag_leaves_fields of_bool of_long of_string options H
                  timeout req b zero s l k) as (_ & _ & _ & _ & _ & _ & H7).
    repeat (split; [assumption |]).
    eexists. split; [apply apply_options_rejects_null; assumption | reflexivity].
  - pose proof (malformed_bag_is_invalid of_bool of_long of_string options H
                  timeout req b i s l k) as (H1 & H2 & H3 & H4 & H5 & H6 & _).
    pose proof (malformed_bag_is_invalid of_bool of_long of_string options H
                  timeout req b zero s l k) as (_ & _ & _ & _ & _ & _ & H7).
    repeat (split; [assumption |]). assumption.
Qed.

Lemma decoders_on_null_and_malformed_bags_witness :
  cb_assign_timeout (Some 2500) None = (no_error, Some 2500)
  /\ ec (fst (cb_assign_timeout (Some 2500) (Some (ZLong 3)))) = common_errc_invalid_argument.
Proof.
  split.
  - destruct (decoders_on_null_and_malformed_bags bool Z string (fun b => b) (fun l => l)
                (fun s => s) 0 None (Some 2500) durability_default false 0 "" []
                "expiry" []) as [Hnull _].
    destruct (Hnull (or_introl eq_refl)) as [Htimeout _]. exact Htimeout.
  - destruct (decoders_on_null_and_malformed_bags bool Z string (fun b => b) (fun l => l)
                (fun s => s) 0 (Some (ZLong 3)) (Some 2500) durability_default false 0 ""
                [] "expiry" []) as [_ Hbad].
    assert (Hbag : malformed_bag (Some (ZLong 3))).
    { exists (ZLong 3). repeat split; discriminate. }
    destruct (Hbad Hbag) as [Htimeout _]. exact Htimeout.
Defined.

(** ** Durability *)

Lemma durability_level_of_string_none (s : string) :
  durability_level_of_string s = Some protocol.none <-> s = "none".
Proof.
  unfold durability_level_of_string. split.
  - destruct (String.eqb_spec s "none") as [-> | _]; [reflexivity |].
    repeat match goal with
           | |- context [String.eqb s ?lit] => destruct (String.eqb s lit)
           end; discriminate.
  - intros ->. reflexivity.
Qed.

(** C5.  When [durabilityLevel] decodes to a level other than none, an
    integer [durabilityTimeoutSeconds] becomes the durability timeout of the
    request, as the unsigned 16-bit number that the member holds.  When it
    decodes to none, or is absent, the result of
    [cb_assign_durability] is fixed by the level alone, whatever the bag holds
    under [durabilityTimeoutSeconds]: the timeout of the request stays as it
    was and no error is returned. *)
Theorem durability_timeout_gated_by_level :
  forall (ht : HashTable) (req : durability),
    (forall (s : string) (level : protocol.durability_level) (seconds : Z),
        zend_symtable_str_find ht "durabilityLevel" = Some (ZString s) ->
        durability_level_of_string s = Some level ->
        level <> protocol.none ->
        zend_symtable_str_find ht "durabilityTimeoutSeconds" = Some (ZLong seconds) ->
        cb_assign_durability req (Some (ZArray ht))
        = (no_error, {| durability_level := Some level;
                        durability_timeout := Some (seconds mod 2 ^ 16) |}))
    /\ (forall s : string,
           zend_symtable_str_find ht "durabilityLevel" = Some (ZString s) ->
           durability_level_of_string s = Some protocol.none ->
           cb_assign_durability req (Some (ZArray ht))
           = (no_error, {| durability_level := Some protocol.none;
                           durability_timeout := durability_timeout req |}))
    /\ (zend_symtable_str_find ht "durabilityLevel" = None ->
        cb_assign_durability req (Some (ZArray ht)) = (no_error, req)).
Proof.
  intros ht req. split; [| split].
  - intros s level seconds Hlevel Hdecoded Hnot_none Htimeout.
    unfold cb_assign_durability. rewrite Hlevel, Hdecoded.
    destruct level; try congruence; simpl; rewrite Htimeout; reflexivity.
  - intros s Hlevel Hdecoded.
    unfold cb_assign_durability. rewrite Hlevel, Hdecoded. reflexivity.
  - intros Habsent. unfold cb_assign_durability. rewrite Habsent. reflexivity.
Qed.

Lemma durability_timeout_gated_by_level_witness :
  cb_assign_durability durability_default
    (Some (ZArray [(KStr "durabilityLevel", ZString "majority");
                   (KStr "durabilityTimeoutSeconds", ZLong 3)]))
  = (no_error, {| durability_level := Some protocol.majority;
                  durability_timeout := Some 3 |})
  /\ cb_assign_durability durability_default
       (Some (ZArray [(KStr "durabilityLevel", ZString "none");
                      (KStr "durabilityTimeoutSeconds", ZString "soon")]))
     = (no_error, {| durability_level := Some protocol.none;
                     durability_timeout := None |})
  /\ cb_assign_durability durability_default
       (Some (ZArray [(KStr "durabilityTimeoutSeconds", ZString "soon")]))
     = (no_error, durability_default).
Proof.
  split; [| split].
  - apply (proj1 (durability_timeout_gated_by_level _ durability_default)
             "majority" protocol.majority 3); try reflexivity; discriminate.
  - apply (proj1 (proj2 (durability_timeout_gated_by_level _ durability_default))
             "none"); reflexivity.
  - apply (proj2 (proj2 (durability_timeout_gated_by_level _ durability_default)));
      reflexivity.
Defined.

(** ** Error contexts *)

(** The builder is defined unless the enhanced error information is there
    without the error-map information. *)
Lemma build_error_context_defined (ctx : key_value) :
  defined (build_error_context ctx)
  <-> (enhanced_error_info ctx <> None -> error_map_info ctx <> None).
Proof.
  unfold build_error_context.
  destruct (enhanced_error_info ctx), (error_map_info ctx); simpl; split;
    try tauto; try congruence.
  intros H. apply H; congruence.
Qed.

(** What the builder stores for the enhanced error information. *)
Lemma build_error_context_enhanced (ctx : key_value) (info : enhanced_error_info_t)
  (map_info : error_map_info_t) :
  enhanced_error_info ctx = Some info ->
  error_map_info ctx = Some map_info ->
  exists out,
    build_error_context ctx = Done out
    /\ enhanced_error_reference out = Some (reference info)
    /\ enhanced_error_context out = Some (description map_info).
Proof.
  intros Hinfo Hmap. unfold build_error_context. rewrite Hinfo, Hmap.
  simpl. eexists. repeat split.
Qed.

(** C1, on a raw context with both pieces of information: the reference is
    the one of the enhanced error information, and the stored context is the
    description of the error map, not the context of the enhanced error
    information. *)
Theorem build_error_context_enhanced_context_is_map_description :
  exists out,
    build_error_context Fixtures.kv_locked_ctx = Done out
    /\ enhanced_error_reference out = Some "5b3f0c1e"
    /\ enhanced_error_context out = Some "Requested resource is locked"
    /\ enhanced_error_context out
       <> option_map context (enhanced_error_info Fixtures.kv_locked_ctx).
Proof.
  eexists. repeat split. simpl. discriminate.
Qed.

(** ** The operation facade *)

Lemma is_mutation_token_valid_iff (token : mutation_token) :
  connection_handle.is_mutation_token_valid token = true
  <-> bucket_name token <> "" /\ 0 < partition_uuid token.
Proof.
  unfold connection_handle.is_mutation_token_valid.
  rewrite andb_true_iff, negb_true_iff, Z.ltb_lt.
  destruct (String.eqb_spec (bucket_name token) ""); split; intros [H1 H2];
    split; congruence.
Qed.

(** The bridged key-value call: without status the error is not set; with a
    status the error carries it, unless the context cannot be built. *)
Lemma key_value_execute_cases {Payload Request Response : Type}
  (cluster_ : cluster Payload) (execute : Request -> Response)
  (ctx_of : Response -> key_value) (operation : string) (request : Request) :
  let resp := execute request in
  let call := impl.key_value_execute cluster_ execute ctx_of operation request in
  (ec_set (kv_ec (ctx_of resp)) = false -> call = Done (resp, no_error))
  /\ (ec_set (kv_ec (ctx_of resp)) = true ->
      call = Undefined
      \/ exists err, call = Done (resp, err) /\ ec err = kv_ec (ctx_of resp)).
Proof.
  simpl. unfold impl.key_value_execute. split; intros Hset; rewrite Hset.
  - reflexivity.
  - destruct (build_error_context (ctx_of (execute request))); simpl.
    + right. eexists. split; reflexivity.
    + left. reflexivity.
Qed.

(** C7.  A successful upsert returns an array with the [cas] entry, and with
    the [mutationToken] entry exactly when the token of the response is
    valid, that is when its bucket name is not empty and its partition uuid is
    greater than zero. *)
Theorem upsert_mutation_token_iff_valid :
  forall (Payload : Type) (cluster_ : cluster Payload)
         (bucket_ scope_ collection_ id_ value : string) (flags : Z)
         (options : option zval) (out : zval),
    connection_handle.document_upsert cluster_ bucket_ scope_ collection_ id_ value flags
      options = Ok out ->
    exists (request : upsert_request) (ht : HashTable),
      connection_handle.upsert_request_of_options bucket_ scope_ collection_ id_ value
        flags options = Ok request
      /\ out = ZArray ht
      /\ let resp := execute_upsert cluster_ request in
         let token := upsert_token resp in
         zend_symtable_str_find ht "cas" = Some (ZString (fmt_hex (upsert_cas resp)))
         /\ (connection_handle.is_mutation_token_valid token = true
             <-> bucket_name token <> "" /\ 0 < partition_uuid token)
         /\ (zend_symtable_str_find ht "mutationToken" <> None
             <-> bucket_name token <> "" /\ 0 < partition_uuid token)
         /\ (bucket_name token <> "" /\ 0 < partition_uuid token ->
             zend_symtable_str_find ht "mutationToken"
             = Some (connection_handle.mutation_token_to_zval token)).
Proof.
  intros Payload cluster_ bucket_ scope_ collection_ id_ value flags options out.
  unfold connection_handle.document_upsert.
  destruct (connection_handle.upsert_request_of_options bucket_ scope_ collection_ id_
              value flags options) as [request | e | ]; simpl; try discriminate.
  destruct (key_value_execute_cases cluster_ (execute_upsert cluster_) upsert_ctx
              "document_upsert" request) as [Hok Hbad].
  simpl in Hok, Hbad.
  destruct (ec_set (kv_ec (upsert_ctx (execute_upsert cluster_ request)))) eqn:Hset.
  - destruct (Hbad eq_refl) as [-> | (err & -> & Hcode)]; simpl; try discriminate.
    assert (Herr : ec_set (ec err) = true) by (rewrite Hcode; exact Hset).
    rewrite Herr. discriminate.
  - rewrite (Hok eq_refl). simpl. intros Hout.
    exists request. eexists. split; [reflexivity |].
    injection Hout as <-. split; [reflexivity |].
    pose proof (is_mutation_token_valid_iff
                  (upsert_token (execute_upsert cluster_ request))) as Hvalid.
    destruct (connection_handle.is_mutation_token_valid
                (upsert_token (execute_upsert cluster_ request))); simpl.
    + assert (Hv : bucket_name (upsert_token (execute_upsert cluster_ request)) <> ""
                   /\ 0 < partition_uuid (upsert_token (execute_upsert cluster_ request)))
        by (apply Hvalid; reflexivity).
      split; [reflexivity |]. split; [tauto |]. split; [| reflexivity].
      split; [intros _; exact Hv | discriminate].
    + assert (Hv : ~ (bucket_name (upsert_token (execute_upsert cluster_ request)) <> ""
                      /\ 0 < partition_uuid (upsert_token (execute_upsert cluster_ request)))).
      { intros H. apply Hvalid in H. discriminate. }
      split; [reflexivity |]. split; [tauto |]. split; [| tauto].
      split; [congruence | tauto].
Qed.

Lemma upsert_mutation_token_iff_valid_witness :
  match
    connection_handle.document_upsert
      (Fixtures.replying Fixtures.kv_ok Fixtures.travel_token ec_success)
      "travel-sample" "inventory" "airline" "airline_10" "{}" 0
      Fixtures.timeout_and_durability
  with
  | Ok (ZArray ht) => zend_symtable_str_find ht "mutationToken" <> None
  | _ => False
  end.
Proof.
  destruct (connection_handle.document_upsert
              (Fixtures.replying Fixtures.kv_ok Fixtures.travel_token ec_success)
              "travel-sample" "inventory" "airline" "airline_10" "{}" 0
              Fixtures.timeout_and_durability) as [out | e | ] eqn:Hrun;
    [| vm_compute in Hrun; discriminate | vm_compute in Hrun; discriminate].
  destruct (upsert_mutation_token_iff_valid _ _ _ _ _ _ _ _ _ _ Hrun)
    as (request & ht & Hrequest & -> & _ & _ & Hiff & _).
  apply Hiff. split; [discriminate | reflexivity].
Defined.

(** A bridged call of an HTTP service fails with the status of the response
    when it is set and hands the response over otherwise. *)
Lemma service_execute_cases {Payload Request Ctx : Type} (cluster_ : cluster Payload)
  (execute : Request -> service_response Ctx Payload) (status : Ctx -> error_code)
  (line : nat) (func what : string) (build : Ctx -> error_context_variant)
  (request : Request) :
  let resp := execute request in
  let call := impl.service_execute cluster_ execute status line func what build request in
  (ec_set (status (response_ctx resp)) = true ->
   fails_with call (status (response_ctx resp)))
  /\ (ec_set (status (response_ctx resp)) = false -> call = Ok resp).
Proof.
  simpl. unfold impl.service_execute, fails_with.
  split; intros Hset; rewrite Hset; [eexists; split |]; reflexivity.
Qed.

Lemma error_code_eqb_eq (a b : error_code) : error_code_eqb a b = true <-> a = b.
Proof.
  destruct a, b; simpl; split; intros H; try discriminate; try reflexivity.
  - apply Pos.eqb_eq in H. congruence.
  - injection H as ->. apply Pos.eqb_refl.
Qed.

Section StatusHandling.

Context {Payload : Type} (cluster_ : cluster Payload).
Variables (bucket_ scope_ collection_ id_ : string) (options : option zval).

Let exists_call := connection_handle.document_exists cluster_ bucket_ scope_ collection_ id_ options.

Lemma document_exists_not_found (request : exists_request) :
  connection_handle.exists_request_of_options bucket_ scope_ collection_ id_ options
  = Ok request ->
  kv_ec (exists_ctx (execute_exists cluster_ request)) = key_value_errc_document_not_found ->
  exists_call <> Crashed ->
  exists ht, exists_call = Ok (ZArray ht)
             /\ zend_symtable_str_find ht "exists" = Some ZFalse.
Proof.
  intros Hrequest Hstatus. unfold exists_call, connection_handle.document_exists.
  rewrite Hrequest. simpl.
  destruct (key_value_execute_cases cluster_ (execute_exists cluster_) exists_ctx
              "document_exists" request) as [_ Hbad].
  simpl in Hbad. rewrite Hstatus in Hbad.
  destruct (Hbad eq_refl) as [-> | (err & -> & Hcode)]; simpl; [congruence |].
  intros _. rewrite Hstatus. simpl. rewrite andb_false_r.
  eexists. split; [reflexivity |].
  unfold exists_. rewrite Hstatus. reflexivity.
Qed.

Lemma document_exists_other_status (request : exists_request) :
  connection_handle.exists_request_of_options bucket_ scope_ collection_ id_ options
  = Ok request ->
  let status := kv_ec (exists_ctx (execute_exists cluster_ request)) in
  ec_set status = true ->
  status <> key_value_errc_document_not_found ->
  exists_call <> Crashed ->
  fails_with exists_call status.
Proof.
  intros Hrequest status Hset Hother. unfold exists_call, connection_handle.document_exists.
  rewrite Hrequest. simpl.
  destruct (key_value_execute_cases cluster_ (execute_exists cluster_) exists_ctx
              "document_exists" request) as [_ Hbad].
  simpl in Hbad. fold status in Hbad.
  destruct (Hbad Hset) as [-> | (err & -> & Hcode)]; simpl; [congruence |].
  intros _. rewrite Hcode. fold status. rewrite Hset.
  destruct (error_code_eqb status key_value_errc_document_not_found) eqn:Heq.
  - apply error_code_eqb_eq in Heq. contradiction.
  - simpl. exists err. split; [reflexivity | exact Hcode].
Qed.

Lemma document_upsert_status (value : string) (flags : Z) (request : upsert_request) :
  connection_handle.upsert_request_of_options bucket_ scope_ collection_ id_ value flags
    options = Ok request ->
  let status := kv_ec (upsert_ctx (execute_upsert cluster_ request)) in
  let call := connection_handle.document_upsert cluster_ bucket_ scope_ collection_ id_
                value flags options in
  ec_set status = true -> call <> Crashed -> fails_with call status.
Proof.
  intros Hrequest status call Hset. unfold call, connection_handle.document_upsert.
  rewrite Hrequest. simpl.
  destruct (key_value_execute_cases cluster_ (execute_upsert cluster_) upsert_ctx
              "document_upsert" request) as [_ Hbad].
  simpl in Hbad. fold status in Hbad.
  destruct (Hbad Hset) as [-> | (err & -> & Hcode)]; simpl; [congruence |].
  intros _. rewrite Hcode. fold status. rewrite Hset.
  exists err. split; [reflexivity | exact Hcode].
Qed.

Lemma document_get_status :
  let call := connection_handle.document_get cluster_ bucket_ scope_ collection_ id_ options in
  (forall request : get_request,
      connection_handle.get_request_of_options bucket_ scope_ collection_ id_ options
      = Ok (inl request) ->
      let status := kv_ec (get_ctx (execute_get cluster_ request)) in
      ec_set status = true -> call <> Crashed -> fails_with call status)
  /\ (forall request : get_projected_request,
         connection_handle.get_request_of_options bucket_ scope_ collection_ id_ options
         = Ok (inr request) ->
         let status := kv_ec (get_projected_ctx (execute_get_projected cluster_ request)) in
         ec_set status = true -> call <> Crashed -> fails_with call status).
Proof.
  simpl. split; intros request Hrequest Hset;
    unfold connection_handle.document_get; rewrite Hrequest; simpl.
  - destruct (key_value_execute_cases cluster_ (execute_get cluster_) get_ctx
                "document_get" request) as [_ Hbad].
    simpl in Hbad.
    destruct (Hbad Hset) as [-> | (err & -> & Hcode)]; simpl; [congruence |].
    intros _. rewrite Hcode, Hset. exists err. split; [reflexivity | exact Hcode].
  - destruct (key_value_execute_cases cluster_ (execute_get_projected cluster_)
                get_projected_ctx "document_get" request) as [_ Hbad].
    simpl in Hbad.
    destruct (Hbad Hset) as [-> | (err & -> & Hcode)]; simpl; [congruence |].
    intros _. rewrite Hcode, Hset. exists err. split; [reflexivity | exact Hcode].
Qed.

End StatusHandling.

Lemma error_at_code (line : nat) (func : string) (code : error_code) :
  ec (probe.error_at line func code) = code.
Proof.
  unfold probe.error_at. destruct code; reflexivity.
Qed.

(** C6.  Of a call with defined behaviour: [document_exists] returns an
    output whose [exists] entry is false when the response carries the
    document-not-found status, and the operation error for every other
    status that is set; and every other operation of the facade returns the
    operation error whenever the status of the engine's response is set. *)
Theorem only_document_exists_reinterprets_status :
  forall (Payload : Type) (cluster_ : cluster Payload)
         (bucket_ scope_ collection_ id_ : string) (options : option zval),
    (forall request : exists_request,
        connection_handle.exists_request_of_options bucket_ scope_ collection_ id_ options
        = Ok request ->
        let status := kv_ec (exists_ctx (execute_exists cluster_ request)) in
        let call := connection_handle.document_exists cluster_ bucket_ scope_ collection_
                      id_ options in
        call <> Crashed ->
        (status = key_value_errc_document_not_found ->
         exists ht, call = Ok (ZArray ht)
                    /\ zend_symtable_str_find ht "exists" = Some ZFalse)
        /\ (ec_set status = true -> status <> key_value_errc_document_not_found ->
            fails_with call status))
    /\ (forall (value : string) (flags : Z) (request : upsert_request),
           connection_handle.upsert_request_of_options bucket_ scope_ collection_ id_ value
             flags options = Ok request ->
           let status := kv_ec (upsert_ctx (execute_upsert cluster_ request)) in
           let call := connection_handle.document_upsert cluster_ bucket_ scope_ collection_
                         id_ value flags options in
           ec_set status = true -> call <> Crashed -> fails_with call status)
    /\ (forall request : get_request,
           connection_handle.get_request_of_options bucket_ scope_ collection_ id_ options
           = Ok (inl request) ->
           let status := kv_ec (get_ctx (execute_get cluster_ request)) in
           let call := connection_handle.document_get cluster_ bucket_ scope_ collection_
                         id_ options in
           ec_set status = true -> call <> Crashed -> fails_with call status)
    /\ (forall request : get_projected_request,
           connection_handle.get_request_of_options bucket_ scope_ collection_ id_ options
           = Ok (inr request) ->
           let status :=
             kv_ec (get_projected_ctx (execute_get_projected cluster_ request)) in
           let call := connection_handle.document_get cluster_ bucket_ scope_ collection_
                         id_ options in
           ec_set status = true -> call <> Crashed -> fails_with call status)
    /\ (forall (statement : string) (request : query_request),
           connection_handle.query_request_of_options statement options = Ok request ->
           let status := svc_ec (response_ctx (execute_query cluster_ request)) in
           ec_set status = true ->
           fails_with (connection_handle.query cluster_ statement options) status)
    /\ (forall (statement : string) (request : analytics_request),
           connection_handle.analytics_request_of_options statement options = Ok request ->
           let status := svc_ec (response_ctx (execute_analytics cluster_ request)) in
           ec_set status = true ->
           fails_with (connection_handle.analytics_query cluster_ statement options) status)
    /\ (forall (index_name query : string) (request : search_request),
           connection_handle.search_request_of_options index_name query options
           = Ok request ->
           let status := svc_ec (response_ctx (execute_search cluster_ request)) in
           ec_set status = true ->
           fails_with (connection_handle.search_query cluster_ index_name query options)
             status)
    /\ (forall (design_document view_ : string) (name_space : Z)
               (request : document_view_request),
           connection_handle.view_request_of_options bucket_ design_document view_
             name_space options = Ok request ->
           let status := view_ec (response_ctx (execute_view cluster_ request)) in
           ec_set status = true ->
           fails_with
             (connection_handle.view_query cluster_ bucket_ design_document view_ name_space
                options) status)
    /\ (forall (index : option zval) (request : search_index_upsert_request),
           connection_handle.search_index_upsert_request_of index options = Ok request ->
           let status :=
             http_ec (response_ctx (execute_search_index_upsert cluster_ request)) in
           ec_set status = true ->
           fails_with (connection_handle.search_index_upsert cluster_ index options) status)
    /\ (forall (S : Type) (engine : probe.engine S) (w : probe.world),
           ec (fst (probe.open engine w)) = fst (probe.on_open engine (fst w))
           /\ ec (fst (probe.bucket_open engine bucket_ w))
              = fst (probe.on_open_bucket engine bucket_ (fst w))
           /\ ec (fst (probe.bucket_close engine bucket_ w))
              = fst (probe.on_close_bucket engine bucket_ (fst w))).
Proof.
  intros Payload cluster_ bucket_ scope_ collection_ id_ options.
  split; [| split; [| split; [| split; [| split; [| split; [| split; [| split;
    [| split]]]]]]]].
  - intros request Hrequest status call Hdefined. split.
    + intros Hstatus.
      apply (document_exists_not_found cluster_ _ _ _ _ _ request Hrequest Hstatus Hdefined).
    + intros Hset Hother.
      apply (document_exists_other_status cluster_ _ _ _ _ _ request Hrequest Hset Hother
               Hdefined).
  - intros value flags request Hrequest.
    apply (document_upsert_status cluster_ _ _ _ _ _ value flags request Hrequest).
  - intros request Hrequest.
    apply (proj1 (document_get_status cluster_ bucket_ scope_ collection_ id_ options)
             request Hrequest).
  - intros request Hrequest.
    apply (proj2 (document_get_status cluster_ bucket_ scope_ collection_ id_ options)
             request Hrequest).
  - intros statement request Hrequest status Hset.
    unfold connection_handle.query. rewrite Hrequest. simpl.
    apply service_execute_cases. exact Hset.
  - intros statement request Hrequest status Hset.
    unfold connection_handle.analytics_query. rewrite Hrequest. simpl.
    apply service_execute_cases. exact Hset.
  - intros index_name query request Hrequest status Hset.
    unfold connection_handle.search_query. rewrite Hrequest. simpl.
    apply service_execute_cases. exact Hset.
  - intros design_document view_ name_space request Hrequest status Hset.
    unfold connection_handle.view_query. rewrite Hrequest. simpl.
    apply service_execute_cases. exact Hset.
  - intros index request Hrequest status Hset.
    unfold connection_handle.search_index_upsert. rewrite Hrequest. simpl.
    apply service_execute_cases. exact Hset.
  - intros S engine [s calls]. unfold probe.open, probe.bucket_open, probe.bucket_close,
      probe.submit. simpl.
    destruct (probe.on_open engine s), (probe.on_open_bucket engine bucket_ s),
      (probe.on_close_bucket engine bucket_ s). simpl.
    rewrite !error_at_code. repeat split.
Qed.

Lemma only_document_exists_reinterprets_status_witness :
  (exists ht,
      connection_handle.document_exists
        (Fixtures.replying (Fixtures.kv_with key_value_errc_document_not_found)
           Fixtures.travel_token ec_success)
        "travel-sample" "inventory" "airline" "airline_10" None = Ok (ZArray ht)
      /\ zend_symtable_str_find ht "exists" = Some ZFalse)
  /\ fails_with
       (connection_handle.document_exists
          (Fixtures.replying (Fixtures.kv_with (engine_errc 9)) Fixtures.travel_token
             ec_success)
          "travel-sample" "inventory" "airline" "airline_10" None)
       (engine_errc 9)
  /\ fails_with
       (connection_handle.document_upsert
          (Fixtures.replying (Fixtures.kv_with (engine_errc 9)) Fixtures.travel_token
             ec_success)
          "travel-sample" "inventory" "airline" "airline_10" "{}" 0 None)
       (engine_errc 9)
  /\ fails_with
       (connection_handle.query
          (Fixtures.replying Fixtures.kv_ok Fixtures.travel_token (engine_errc 12))
          "SELECT 1" (Some (ZArray [])))
       (engine_errc 12).
Proof.
  split; [| split; [| split]].
  - destruct (only_document_exists_reinterprets_status unit
                (Fixtures.replying (Fixtures.kv_with key_value_errc_document_not_found)
                   Fixtures.travel_token ec_success)
                "travel-sample" "inventory" "airline" "airline_10" None) as [Hexists _].
    refine (proj1 (Hexists _ eq_refl _) eq_refl). vm_compute. discriminate.
  - destruct (only_document_exists_reinterprets_status unit
                (Fixtures.replying (Fixtures.kv_with (engine_errc 9))
                   Fixtures.travel_token ec_success)
                "travel-sample" "inventory" "airline" "airline_10" None) as [Hexists _].
    refine (proj2 (Hexists _ eq_refl _) eq_refl _).
    + vm_compute. discriminate.
    + discriminate.
  - destruct (only_document_exists_reinterprets_status unit
                (Fixtures.replying (Fixtures.kv_with (engine_errc 9))
                   Fixtures.travel_token ec_success)
                "travel-sample" "inventory" "airline" "airline_10" None)
      as (_ & Hupsert & _).
    refine (Hupsert "{}" 0 _ eq_refl eq_refl _). vm_compute. discriminate.
  - destruct (only_document_exists_reinterprets_status unit
                (Fixtures.replying Fixtures.kv_ok Fixtures.travel_token (engine_errc 12))
                "travel-sample" "inventory" "airline" "airline_10" (Some (ZArray [])))
      as (_ & _ & _ & _ & Hquery & _).
    refine (Hquery "SELECT 1" _ eq_refl eq_refl).
Defined.

(** ** Decoding the bag of a query *)

Section WithoutKey.

Variables (ht : HashTable) (k : string).

Lemma find_without_other (name_ : string) :
  String.eqb name_ k = false ->
  zend_symtable_str_find (without_key ht k) name_ = zend_symtable_str_find ht name_.
Proof.
  intros Hneq. unfold without_key.
  induction ht as [| [key_ v] rest IH]; simpl; [reflexivity |].
  destruct key_ as [h | s]; simpl.
  - exact IH.
  - destruct (String.eqb_spec s k) as [-> | Hsk]; simpl.
    + rewrite String.eqb_sym, Hneq. exact IH.
    + rewrite IH. reflexivity.
Qed.

Lemma find_without_same : zend_symtable_str_find (without_key ht k) k = None.
Proof.
  unfold without_key.
  induction ht as [| [key_ v] rest IH]; simpl; [reflexivity |].
  destruct key_ as [h | s]; simpl.
  - exact IH.
  - destruct (String.eqb_spec s k) as [-> | Hsk]; simpl; [exact IH |].
    destruct (String.eqb_spec s k); [contradiction | exact IH].
Qed.

Let bag : option zval := Some (ZArray ht).
Let smaller : option zval := Some (ZArray (without_key ht k)).

Lemma cb_assign_timeout_without (timeout : option Z) :
  String.eqb "timeoutMilliseconds" k = false ->
  cb_assign_timeout timeout smaller = cb_assign_timeout timeout bag.
Proof.
  intros Hneq. unfold cb_assign_timeout, smaller, bag.
  rewrite find_without_other by exact Hneq. reflexivity.
Qed.

Lemma cb_get_integer_without {Integer : Type} (of_long : Z -> Integer) (zero : Integer)
  (name_ : string) :
  String.eqb name_ k = false ->
  cb_get_integer of_long zero smaller name_ = cb_get_integer of_long zero bag name_.
Proof.
  intros Hneq. unfold cb_get_integer, smaller, bag.
  rewrite find_without_other by exact Hneq. reflexivity.
Qed.

Lemma cb_assign_integer_without {Integer : Type} (of_long : Z -> Integer) (field : Integer)
  (name_ : string) :
  String.eqb name_ k = false ->
  cb_assign_integer of_long field smaller name_ = cb_assign_integer of_long field bag name_.
Proof.
  intros Hneq. unfold cb_assign_integer, smaller, bag.
  rewrite find_without_other by exact Hneq. reflexivity.
Qed.

Lemma cb_assign_boolean_without {Boolean : Type} (of_bool : bool -> Boolean)
  (field : Boolean) (name_ : string) :
  String.eqb name_ k = false ->
  cb_assign_boolean of_bool field smaller name_ = cb_assign_boolean of_bool field bag name_.
Proof.
  intros Hneq. unfold cb_assign_boolean, smaller, bag.
  rewrite find_without_other by exact Hneq. reflexivity.
Qed.

Lemma cb_assign_string_without {String_ : Type} (of_string : string -> String_)
  (field : String_) (name_ : string) :
  String.eqb name_ k = false ->
  cb_assign_string of_string field smaller name_
  = cb_assign_string of_string field bag name_.
Proof.
  intros Hneq. unfold cb_assign_string, smaller, bag.
  rewrite find_without_other by exact Hneq. reflexivity.
Qed.

Lemma find_array_without (name_ : string) :
  String.eqb name_ k = false ->
  connection_handle.find_array smaller name_ = connection_handle.find_array bag name_.
Proof.
  intros Hneq. unfold connection_handle.find_array, smaller, bag. simpl.
  rewrite find_without_other by exact Hneq. reflexivity.
Qed.

(** A value that is not an array is not found by [find_array], no more
    than an absent one. *)
Lemma find_array_scalar (v : zval) :
  zend_symtable_str_find ht k = Some v -> scalar v ->
  connection_handle.find_array bag k = Done None
  /\ connection_handle.find_array smaller k = Done None.
Proof.
  intros Hfind Hscalar. unfold connection_handle.find_array, smaller, bag. simpl.
  rewrite find_without_same, Hfind. bag_cases Hscalar; split; reflexivity.
Qed.

Lemma mutation_tokens_without (items : list zval) (vectors : list mutation_token) :
  In k query_sequence_keys ->
  connection_handle.mutation_tokens smaller items vectors
  = connection_handle.mutation_tokens bag items vectors.
Proof.
  intros Hk. revert vectors.
  induction items as [| item rest IH]; intros vectors;
    cbn [connection_handle.mutation_tokens]; [reflexivity |].
  rewrite !cb_assign_integer_without, cb_assign_string_without
    by (simpl in Hk; intuition (subst; reflexivity)).
  repeat match goal with
         | |- context [let '(_, _) := ?c in _] => destruct c
         | |- context [if ?b then _ else _] => destruct b
         end; try reflexivity.
  apply IH.
Qed.

Lemma assign_json_strings_without (name_ : string) :
  String.eqb name_ k = false ->
  connection_handle.assign_json_strings smaller name_
  = connection_handle.assign_json_strings bag name_.
Proof.
  intros Hneq. unfold connection_handle.assign_json_strings.
  rewrite find_array_without by exact Hneq. reflexivity.
Qed.

Lemma assign_json_map_without (name_ : string) :
  String.eqb name_ k = false ->
  connection_handle.assign_json_map smaller name_
  = connection_handle.assign_json_map bag name_.
Proof.
  intros Hneq. unfold connection_handle.assign_json_map.
  rewrite find_array_without by exact Hneq. reflexivity.
Qed.

Lemma assign_mutation_state_without :
  In k query_sequence_keys ->
  String.eqb "consistentWith" k = false ->
  connection_handle.assign_mutation_state smaller
  = connection_handle.assign_mutation_state bag.
Proof.
  intros Hk Hneq. unfold connection_handle.assign_mutation_state.
  rewrite find_array_without by exact Hneq.
  destruct (connection_handle.find_array bag "consistentWith") as [[value |] |];
    simpl; try reflexivity.
  rewrite mutation_tokens_without by exact Hk. reflexivity.
Qed.

Section Scalar.

Variable v : zval.
Hypothesis Hfind : zend_symtable_str_find ht k = Some v.
Hypothesis Hscalar : scalar v.

Lemma assign_json_strings_scalar :
  connection_handle.assign_json_strings bag k = Done None
  /\ connection_handle.assign_json_strings smaller k = Done None.
Proof.
  unfold connection_handle.assign_json_strings.
  destruct (find_array_scalar v Hfind Hscalar) as [-> ->]. split; reflexivity.
Qed.

Lemma assign_json_map_scalar :
  connection_handle.assign_json_map bag k = Done None
  /\ connection_handle.assign_json_map smaller k = Done None.
Proof.
  unfold connection_handle.assign_json_map.
  destruct (find_array_scalar v Hfind Hscalar) as [-> ->]. split; reflexivity.
Qed.

Lemma assign_mutation_state_scalar :
  k = "consistentWith" ->
  connection_handle.assign_mutation_state bag = Ok None
  /\ connection_handle.assign_mutation_state smaller = Ok None.
Proof.
  intros Hk. unfold connection_handle.assign_mutation_state.
  rewrite <- Hk.
  destruct (find_array_scalar v Hfind Hscalar) as [-> ->]. split; reflexivity.
Qed.

(** Decoding the bag of a query gives the same result with and without a
    sequence-valued key whose value is not an array. *)
Lemma query_request_without (statement : string) :
  In k query_sequence_keys ->
  connection_handle.query_request_of_options statement bag
  = connection_handle.query_request_of_options statement smaller.
Proof.
  intros Hk.
  unfold connection_handle.query_request_of_options,
    connection_handle.assign_scan_consistency, connection_handle.assign_profile.
  assert (Hcases : k = "positionalParameters" \/ k = "namedParameters" \/ k = "raw"
                   \/ k = "consistentWith").
  { simpl in Hk. destruct Hk as [H | [H | [H | [H | []]]]]; symmetry in H; tauto. }
  assert (Hother : forall name_,
             In name_ ["timeoutMilliseconds"; "scanConsistency"; "scanCap"; "pipelineCap";
                       "pipelineBatch"; "maxParallelism"; "profile"; "readonly";
                       "flexIndex"; "adHoc"; "clientContextId"; "metrics";
                       "preserveExpiry"; "scopeName"; "bucketName"] ->
             String.eqb name_ k = false).
  { intros name_ Hin. simpl in Hin.
    decompose [or] Hcases; subst k; decompose [or] Hin; subst; try reflexivity;
      contradiction. }
  rewrite cb_assign_timeout_without by (apply Hother; simpl; tauto).
  rewrite !cb_get_integer_without by (apply Hother; simpl; tauto).
  rewrite !cb_assign_integer_without by (apply Hother; simpl; tauto).
  rewrite !cb_assign_boolean_without by (apply Hother; simpl; tauto).
  rewrite !cb_assign_string_without by (apply Hother; simpl; tauto).
  destruct Hcases as [Hkey | [Hkey | [Hkey | Hkey]]].
  - rewrite (assign_json_map_without "namedParameters"),
      (assign_json_map_without "raw"), assign_mutation_state_without
      by (try exact Hk; rewrite Hkey; reflexivity).
    rewrite <- Hkey. destruct assign_json_strings_scalar as [-> ->]. reflexivity.
  - rewrite (assign_json_strings_without "positionalParameters"),
      (assign_json_map_without "raw"), assign_mutation_state_without
      by (try exact Hk; rewrite Hkey; reflexivity).
    rewrite <- Hkey. destruct assign_json_map_scalar as [-> ->]. reflexivity.
  - rewrite (assign_json_strings_without "positionalParameters"),
      (assign_json_map_without "namedParameters"), assign_mutation_state_without
      by (try exact Hk; rewrite Hkey; reflexivity).
    rewrite <- Hkey. destruct assign_json_map_scalar as [-> ->]. reflexivity.
  - rewrite (assign_json_strings_without "positionalParameters"),
      (assign_json_map_without "namedParameters"), (assign_json_map_without "raw")
      by (rewrite Hkey; reflexivity).
    destruct (assign_mutation_state_scalar Hkey) as [-> ->]. reflexivity.
Qed.

End Scalar.

End WithoutKey.

(** One step of the inversion of a decoding that returned a request. *)
Ltac invert_step :=
  match goal with
  | |- context [match ?c with (_, _) => _ end] =>
      let e := fresh "e" in
      let x := fresh "x" in
      let Hc := fresh "Hc" in
      destruct c as [e x] eqn:Hc
  | |- (if ?b then Failed _ else _) = Ok _ -> _ =>
      let Hb := fresh "Hb" in
      destruct b eqn:Hb; [discriminate |]
  | |- rbind ?m _ = Ok _ -> _ =>
      let Hm := fresh "Hm" in
      destruct m eqn:Hm; cbn [rbind]; [| discriminate | discriminate]
  end.

(** What a successful decoding of the bag of a query says about the blocks
    of [query]. *)
Lemma query_request_fields (statement : string) (options : option zval)
  (request : query_request) :
  connection_handle.query_request_of_options statement options = Ok request ->
  ec_set (ec (fst (cb_assign_timeout None options))) = false
  /\ connection_handle.assign_scan_consistency 881 "query" options
     = Ok (query_scan_consistency request)
  /\ connection_handle.assign_json_strings options "positionalParameters"
     = Done (query_positional_parameters request)
  /\ connection_handle.assign_json_map options "namedParameters"
     = Done (query_named_parameters request)
  /\ connection_handle.assign_json_map options "raw" = Done (query_raw request)
  /\ connection_handle.assign_mutation_state options = Ok (query_mutation_state request).
Proof.
  unfold connection_handle.query_request_of_options.
  repeat invert_step.
  intros Hrequest. injection Hrequest as <-. cbn.
  repeat match goal with
         | H : of_outcome ?m = Ok _ |- _ => destruct m; simpl in H; [injection H as -> | discriminate]
         end.
  repeat split; try reflexivity; try assumption.
Qed.

(** The tokens decoded for [consistentWith] depend on the number of records
    only, not on the records. *)
Lemma mutation_tokens_ignore_items (options : option zval) (items items' : list zval) :
  List.length items = List.length items' ->
  forall vectors,
    connection_handle.mutation_tokens options items vectors
    = connection_handle.mutation_tokens options items' vectors.
Proof.
  revert items'.
  induction items as [| item rest IH]; intros [| item' rest'] Hlen vectors;
    try discriminate; [reflexivity |].
  cbn [connection_handle.mutation_tokens].
  repeat match goal with
         | |- context [let '(_, _) := ?c in _] => destruct c
         | |- context [if ?b then _ else _] => destruct b
         end; try reflexivity.
  apply IH. simpl in Hlen. congruence.
Qed.

(** C2, on a bag whose [consistentWith] holds two records with different
    members: decoding succeeds with two tokens, and both are the
    value-initialised token, since each is filled from the keys
    [partitionId], [partitionUuid], [sequenceNumber] and [bucketName] of the
    bag of the call, which has none of them, and not from its record. *)
Theorem query_consistent_with_reads_the_bag :
  exists request,
    connection_handle.query_request_of_options "SELECT 1" Fixtures.consistent_with
    = Ok request
    /\ query_mutation_state request
       = Some [mutation_token_default; mutation_token_default].
Proof.
  eexists. split; reflexivity.
Qed.

(** ** Sequence-valued keys *)

(** An error returned by a decoder of a scalar has the code
    [invalid_argument]. *)
Lemma cb_assign_boolean_error {Boolean : Type} (of_bool : bool -> Boolean) (field : Boolean)
  (options : option zval) (k : string) :
  ec_set (ec (fst (cb_assign_boolean of_bool field options k))) = true ->
  ec (fst (cb_assign_boolean of_bool field options k)) = common_errc_invalid_argument.
Proof.
  unfold cb_assign_boolean.
  destruct options as [[] |]; simpl; try discriminate; try reflexivity.
  destruct (zend_symtable_str_find ht k) as [[] |]; simpl; try discriminate; reflexivity.
Qed.

Lemma cb_assign_timeout_error (timeout : option Z) (options : option zval) :
  ec_set (ec (fst (cb_assign_timeout timeout options))) = true ->
  ec (fst (cb_assign_timeout timeout options)) = common_errc_invalid_argument.
Proof.
  unfold cb_assign_timeout.
  destruct options as [[] |]; simpl; try discriminate; try reflexivity.
  destruct (zend_symtable_str_find ht "timeoutMilliseconds") as [[] |]; simpl;
    try discriminate; reflexivity.
Qed.

Lemma cb_assign_vector_of_strings_scalar (field : list string) (ht : HashTable)
  (k : string) (v : zval) :
  zend_symtable_str_find ht k = Some v -> scalar v ->
  cb_assign_vector_of_strings field (Some (ZArray ht)) k
  = (invalid_argument 650 "cb_assign_vector_of_strings"
       ("expected array for options argument " ++ dquote ++ k ++ dquote),
     field).
Proof.
  intros Hfind Hscalar. unfold cb_assign_vector_of_strings. rewrite Hfind.
  bag_cases Hscalar; reflexivity.
Qed.

(** C3 as stated does not hold for a query: a scalar under
    [positionalParameters] is accepted, and the parameters are left
    unassigned. *)
Lemma query_accepts_scalar_positional_parameters :
  (exists request,
      connection_handle.query_request_of_options "SELECT $1"
        Fixtures.scalar_positional_parameters = Ok request
      /\ query_positional_parameters request = None)
  /\ ~ (exists e,
           connection_handle.query_request_of_options "SELECT $1"
             Fixtures.scalar_positional_parameters = Failed e).
Proof.
  split.
  - eexists. split; reflexivity.
  - intros [e He]. vm_compute in He. discriminate.
Qed.

(** C3, amended.  A value that is there, is not null and is not an array:
    under a key decoded by [cb_assign_vector_of_strings], such as the
    [projections] of a get, makes the decoding fail with [invalid_argument]
    and a message that names the key; under [positionalParameters],
    [namedParameters], [raw] or [consistentWith] of a query it is skipped:
    the decoding gives what it gives for the bag without the key, and the
    field stays unassigned. *)
Theorem sequence_keys_of_the_wrong_shape :
  forall (ht : HashTable) (v : zval),
    scalar v ->
    (forall (field : list string) (k : string),
        zend_symtable_str_find ht k = Some v ->
        cb_assign_vector_of_strings field (Some (ZArray ht)) k
        = (invalid_argument 650 "cb_assign_vector_of_strings"
             ("expected array for options argument " ++ dquote ++ k ++ dquote),
           field))
    /\ (forall (Payload : Type) (cluster_ : cluster Payload)
               (bucket_ scope_ collection_ id_ : string),
           zend_symtable_str_find ht "projections" = Some v ->
           let call := connection_handle.document_get cluster_ bucket_ scope_ collection_
                         id_ (Some (ZArray ht)) in
           fails_with call common_errc_invalid_argument
           /\ (ec_set (ec (fst (cb_assign_boolean (fun b => b) false (Some (ZArray ht))
                                  "withExpiry"))) = false ->
               call = Failed (invalid_argument 650 "cb_assign_vector_of_strings"
                                ("expected array for options argument " ++ dquote
                                 ++ "projections" ++ dquote))))
    /\ (forall (statement k : string),
           In k query_sequence_keys ->
           zend_symtable_str_find ht k = Some v ->
           connection_handle.query_request_of_options statement (Some (ZArray ht))
           = connection_handle.query_request_of_options statement
               (Some (ZArray (without_key ht k)))
           /\ forall request,
               connection_handle.query_request_of_options statement (Some (ZArray ht))
               = Ok request ->
               (k = "positionalParameters" -> query_positional_parameters request = None)
               /\ (k = "namedParameters" -> query_named_parameters request = None)
               /\ (k = "raw" -> query_raw request = None)
               /\ (k = "consistentWith" -> query_mutation_state request = None)).
Proof.
  intros ht v Hscalar. split; [| split].
  - intros field k Hfind. apply cb_assign_vector_of_strings_scalar with (v := v); assumption.
  - intros Payload cluster_ bucket_ scope_ collection_ id_ Hfind call.
    unfold call, connection_handle.document_get, connection_handle.get_request_of_options.
    rewrite (cb_assign_vector_of_strings_scalar [] ht "projections" v Hfind Hscalar).
    pose proof (cb_assign_boolean_error (fun b : bool => b) false (Some (ZArray ht))
                  "withExpiry") as Hcode.
    destruct (cb_assign_boolean (fun b : bool => b) false (Some (ZArray ht)) "withExpiry")
      as [e with_expiry].
    simpl in Hcode |- *.
    destruct (ec_set (ec e)); simpl.
    + split; [| discriminate]. exists e. split; [reflexivity | apply Hcode; reflexivity].
    + split; [| reflexivity]. eexists. split; reflexivity.
  - intros statement k Hk Hfind. split.
    + apply (query_request_without ht k v Hfind Hscalar statement Hk).
    + intros request Hrequest.
      destruct (query_request_fields _ _ _ Hrequest)
        as (_ & _ & Hpositional & Hnamed & Hraw & Hstate).
      repeat split; intros Hkey; rewrite Hkey in Hfind.
      * destruct (assign_json_strings_scalar ht _ v Hfind Hscalar) as [Hbag _].
        congruence.
      * destruct (assign_json_map_scalar ht _ v Hfind Hscalar) as [Hbag _]. congruence.
      * destruct (assign_json_map_scalar ht _ v Hfind Hscalar) as [Hbag _]. congruence.
      * destruct (assign_mutation_state_scalar ht _ v Hfind Hscalar eq_refl) as [Hbag _].
        congruence.
Qed.

Lemma sequence_keys_of_the_wrong_shape_witness :
  cb_assign_vector_of_strings [] (Some (ZArray [(KStr "projections", ZString "name")]))
    "projections"
  = (invalid_argument 650 "cb_assign_vector_of_strings"
       ("expected array for options argument " ++ dquote ++ "projections" ++ dquote), [])
  /\ connection_handle.query_request_of_options "SELECT $1"
       (Some (ZArray [(KStr "positionalParameters", ZLong 5)]))
     = connection_handle.query_request_of_options "SELECT $1"
         (Some (ZArray (without_key [(KStr "positionalParameters", ZLong 5)]
                          "positionalParameters"))).
Proof.
  split.
  - assert (Hscalar : scalar (ZString "name")) by (split; discriminate).
    destruct (sequence_keys_of_the_wrong_shape
                [(KStr "projections", ZString "name")] (ZString "name") Hscalar)
      as [Hvector _].
    apply Hvector. reflexivity.
  - assert (Hscalar : scalar (ZLong 5)) by (split; discriminate).
    destruct (sequence_keys_of_the_wrong_shape
                [(KStr "positionalParameters", ZLong 5)] (ZLong 5) Hscalar)
      as (_ & _ & Hquery).
    apply Hquery; [simpl; tauto | reflexivity].
Defined.

(** ** Scan consistency *)

Lemma to_uint64_of_zend_long (v : Z) :
  zend_long v -> to_uint64 v = if (v <? 0)%Z then v + 2 ^ 64 else v.
Proof.
  unfold zend_long, to_uint64, to_unsigned.
  assert (H64 : 2 ^ 64 = 18446744073709551616) by reflexivity.
  assert (H63 : 2 ^ 63 = 9223372036854775808) by reflexivity.
  rewrite H64, H63. intros Hrange.
  destruct (Z.ltb_spec v 0).
  - symmetry. apply Z.mod_unique with (q := -1); lia.
  - apply Z.mod_small. lia.
Qed.

(** The [scanConsistency] block of a query on an integer value. *)
Lemma assign_scan_consistency_long (line : nat) (func : string) (ht : HashTable) (v : Z) :
  zend_symtable_str_find ht "scanConsistency" = Some (ZLong v) ->
  connection_handle.assign_scan_consistency line func (Some (ZArray ht))
  = if (to_uint64 v =? 1)%Z then Ok (Some not_bounded)
    else if (to_uint64 v =? 2)%Z then Ok (Some request_plus)
    else if (0 <? to_uint64 v)%Z then
      Failed (invalid_argument line func
                ("invalid value used for scan consistency: " ++ fmt_dec (to_uint64 v)))
    else Ok None.
Proof.
  intros Hfind. unfold connection_handle.assign_scan_consistency, cb_get_integer.
  rewrite Hfind. reflexivity.
Qed.

(** C4 as stated does not hold: the value 0 is accepted, and the scan
    consistency of the request is left unassigned. *)
Lemma query_accepts_scan_consistency_zero :
  (exists request,
      connection_handle.query_request_of_options "SELECT 1" Fixtures.scan_consistency_zero
      = Ok request
      /\ query_scan_consistency request = None)
  /\ ~ (exists e,
           connection_handle.query_request_of_options "SELECT 1"
             Fixtures.scan_consistency_zero = Failed e).
Proof.
  split.
  - eexists. split; reflexivity.
  - intros [e He]. vm_compute in He. discriminate.
Qed.

(** C4, amended.  For an integer [scanConsistency] of a query: a value other
    than 0, 1 and 2 makes the decoding fail with [invalid_argument], and when
    the timeout of the bag is well-formed the message reports the value as an
    unsigned 64-bit number (the value itself when it is positive); 1 and 2
    set the scan consistency to not-bounded and to request-plus; 0 is
    accepted and leaves the scan consistency unassigned. *)
Theorem query_scan_consistency_codes :
  forall (statement : string) (ht : HashTable) (v : Z),
    zend_long v ->
    zend_symtable_str_find ht "scanConsistency" = Some (ZLong v) ->
    let options := Some (ZArray ht) in
    let decoded := connection_handle.query_request_of_options statement options in
    let block := connection_handle.assign_scan_consistency 881 "query" options in
    (v <> 0 -> v <> 1 -> v <> 2 ->
     fails_with decoded common_errc_invalid_argument
     /\ (ec_set (ec (fst (cb_assign_timeout None options))) = false ->
         decoded
         = Failed (invalid_argument 881 "query"
                     ("invalid value used for scan consistency: "
                      ++ fmt_dec (if (v <? 0)%Z then v + 2 ^ 64 else v)))))
    /\ (v = 1 ->
        block = Ok (Some not_bounded)
        /\ forall request, decoded = Ok request ->
                           query_scan_consistency request = Some not_bounded)
    /\ (v = 2 ->
        block = Ok (Some request_plus)
        /\ forall request, decoded = Ok request ->
                           query_scan_consistency request = Some request_plus)
    /\ (v = 0 ->
        block = Ok None
        /\ forall request, decoded = Ok request -> query_scan_consistency request = None).
Proof.
  intros statement ht v Hrange Hfind options decoded block.
  assert (Hblock := assign_scan_consistency_long 881 "query" ht v Hfind).
  fold options in Hblock. fold block in Hblock.
  assert (Hfield : forall request, decoded = Ok request ->
                                   block = Ok (query_scan_consistency request)).
  { intros request Hrequest. apply (query_request_fields _ _ _ Hrequest). }
  rewrite (to_uint64_of_zend_long v Hrange) in Hblock.
  unfold zend_long in Hrange.
  split; [| split; [| split]].
  - intros H0 H1 H2.
    assert (Hfails : block
                     = Failed (invalid_argument 881 "query"
                                 ("invalid value used for scan consistency: "
                                  ++ fmt_dec (if (v <? 0)%Z then v + 2 ^ 64 else v)))).
    { rewrite Hblock.
      destruct (Z.ltb_spec v 0);
        repeat match goal with
               | |- context [(?a =? ?b)%Z] => destruct (Z.eqb_spec a b); [lia |]
               | |- context [(0 <? ?a)%Z] => destruct (Z.ltb_spec 0 a); [| lia]
               end; reflexivity. }
    unfold decoded, connection_handle.query_request_of_options.
    fold block. rewrite Hfails.
    pose proof (cb_assign_timeout_error None options) as Hcode.
    destruct (cb_assign_timeout None options) as [e timeout]. simpl in Hcode |- *.
    destruct (ec_set (ec e)).
    + split; [| discriminate]. exists e. split; [reflexivity | apply Hcode; reflexivity].
    + split; [| reflexivity]. eexists. split; reflexivity.
  - intros ->. simpl in Hblock. split; [exact Hblock |].
    intros request Hrequest. apply Hfield in Hrequest. congruence.
  - intros ->. simpl in Hblock. split; [exact Hblock |].
    intros request Hrequest. apply Hfield in Hrequest. congruence.
  - intros ->. simpl in Hblock. split; [exact Hblock |].
    intros request Hrequest. apply Hfield in Hrequest. congruence.
Qed.

Lemma query_scan_consistency_codes_witness :
  fails_with
    (connection_handle.query_request_of_options "SELECT 1"
       (Some (ZArray [(KStr "scanConsistency", ZLong 5)])))
    common_errc_invalid_argument
  /\ connection_handle.assign_scan_consistency 881 "query"
       (Some (ZArray [(KStr "scanConsistency", ZLong 2)]))
     = Ok (Some request_plus).
Proof.
  split.
  - assert (Hrange : zend_long 5) by (unfold zend_long; lia).
    destruct (query_scan_consistency_codes "SELECT 1" [(KStr "scanConsistency", ZLong 5)]
                5 Hrange eq_refl) as [Hother _].
    apply Hother; discriminate.
  - assert (Hrange : zend_long 2) by (unfold zend_long; lia).
    destruct (query_scan_consistency_codes "SELECT 1" [(KStr "scanConsistency", ZLong 2)]
                2 Hrange eq_refl) as (_ & _ & Htwo & _).
    apply Htwo. reflexivity.
Defined.

(** ** Teardown *)

Section TeardownOrder.

Import teardown.

Variables (engine handle : bool).

Lemma teardown_invariant_holds (trace : list event) (s : state) :
  execution (owned engine handle true) trace s -> teardown_invariant engine handle s trace.
Proof.
  intros Hrun. remember (owned engine handle true) as s0 eqn:Hs0.
  induction Hrun as [s | s trace s' label s'' Hrun IH Hstep].
  - subst s. unfold teardown_invariant. cbn.
    repeat match goal with |- _ /\ _ => split end; reflexivity.
  - specialize (IH Hs0). unfold teardown_invariant in *.
    destruct IH as [Hengine IH].
    split; [destruct Hstep; cbn; exact Hengine |].
    destruct Hstep as [s' Hpoint Hheld Hrunning | s' Hpoint Hheld Hrunning
                      | s' Hpoint Hrunning Hheld | s' Hpoint Hrunning Hheld
                      | s' Hpoint Hnone | s' Hpoint Hsome
                      | s' Hpending Hloop
                      | s' Hpoint Hset
                      | s' Hpoint Hjoinable Hreturned Hhost
                      | s' Hpoint Hjoinable
                      | s' Hpoint];
      cbn [shown point cluster_ worker_joinable worker_running handle_held on_worker
           unattended_close close_pending barrier release_handle return_worker enter
           move requested completed joined released];
      try rewrite Hpoint in IH; try rewrite Hpoint.
    + destruct IH as (-> & Hcluster & Hjoin & Hpend & Hbar).
      repeat match goal with |- _ /\ _ => split end; assumption || reflexivity.
    + destruct IH as (-> & Hcluster & Hjoin & Hpend & Hbar).
      repeat match goal with |- _ /\ _ => split end; assumption || reflexivity.
    + destruct IH as (-> & Hcluster & Hjoin & Hpend & Hbar).
      repeat match goal with |- _ /\ _ => split end; assumption || reflexivity.
    + destruct IH as (-> & Hcluster & Hjoin & Hpend & Hbar).
      repeat match goal with |- _ /\ _ => split end; assumption || reflexivity.
    + destruct IH as (-> & Hcluster & Hjoin & Hreturned & Hheld & Hpend & Hbar).
      repeat match goal with |- _ /\ _ => split end; try assumption.
      right. split; [congruence | reflexivity].
    + destruct IH as (-> & Hcluster & Hjoin & Hreturned & Hheld & Hpend & Hbar).
      repeat match goal with |- _ /\ _ => split end; try assumption; try congruence.
      left. repeat match goal with |- _ /\ _ => split end; assumption || reflexivity.
    + destruct (point s') eqn:Hpoint.
      * destruct IH as (_ & _ & _ & Hnot & _). congruence.
      * destruct IH as (_ & _ & _ & _ & _ & Hnot & _). congruence.
      * destruct IH as (Hhandle & Hcluster & Hjoin & Hreturned & Hheld
                        & [(_ & _ & ->) | (Hnot & _)]); [| congruence].
        repeat match goal with |- _ /\ _ => split end; try assumption.
        right. repeat match goal with |- _ /\ _ => split end; try reflexivity.
        destruct Hloop as [Hloop | Hloop]; congruence.
      * destruct IH as (_ & _ & _ & _ & _ & Hnot & _). congruence.
      * destruct IH as (_ & _ & _ & _ & _ & _ & Hnot & _). congruence.
      * destruct IH as (_ & _ & _ & Hnot & _). congruence.
    + destruct IH as (Hhandle & Hcluster & Hjoin & Hreturned & Hheld
                      & [(_ & Hnot & _) | (Hpend & Hbar & Hcompletes & ->)]);
        [congruence |].
      repeat match goal with |- _ /\ _ => split end; assumption || reflexivity.
    + destruct IH as (Hhandle & Hcluster & Hjoin & Hreturned' & Hheld & Hpend & Hbar
                      & Hcompletes & ->).
      repeat match goal with |- _ /\ _ => split end; assumption || reflexivity.
    + destruct IH as (_ & _ & Hjoin & _). congruence.
    + destruct IH as (Hhandle & Hcluster & Hjoin & Hreturned & Hheld & Hhost & Hpend
                      & Hbar & Hcompletes & ->).
      repeat match goal with |- _ /\ _ => split end; try assumption; try reflexivity.
      left. repeat match goal with |- _ /\ _ => split end; assumption || reflexivity.
Qed.


End TeardownOrder.


Lemma execution_silent (s s' s'' : teardown.state) (trace : list teardown.event) :
  teardown.execution s trace s' -> teardown.step s' None s'' ->
  teardown.execution s trace s''.
Proof.
  intros Hrun Hstep. rewrite <- (app_nil_r trace).
  apply (teardown.execution_step s trace s' None s'' Hrun Hstep).
Qed.




(** ** The cluster-version probe *)

Lemma cluster_version_unfold {S : Type} (engine : probe.engine S) (bucket_ : string)
  (w : probe.world) :
  probe.cluster_version engine bucket_ w
  = let '(resp, w1) := probe.cluster_describe engine w in
    if probe.needs_bucket resp bucket_ then
      let '(e, w2) := probe.bucket_open engine bucket_ w1 in
      if ec_set (ec e) then ("", w2) else probe.cluster_version engine "" w2
    else (probe.version_of resp, w1).
Proof.
  funelim (probe.cluster_version engine bucket_ w);
    repeat match goal with
           | H : probe.cluster_describe _ _ = _ |- _ => rewrite H
           | H : probe.needs_bucket _ _ = _ |- _ => rewrite H
           | H : probe.bucket_open _ _ _ = _ |- _ => rewrite H
           | H : ec_set _ = _ |- _ => rewrite H
           end; reflexivity.
Qed.

(** The probe without a bucket name makes one call and does not retry. *)
Lemma cluster_version_without_bucket {S : Type} (engine : probe.engine S) (w : probe.world) :
  probe.cluster_version engine "" w
  = let '(resp, w1) := probe.cluster_describe engine w in (probe.version_of resp, w1).
Proof.
  rewrite cluster_version_unfold.
  destruct (probe.cluster_describe engine w) as [resp w1].
  unfold probe.needs_bucket. simpl. rewrite andb_false_r. reflexivity.
Qed.

(** C9.  When the first response of the probe has the status
    service-not-available and a bucket name is given, the probe opens that
    bucket.  If the bucket does not open it makes no other call and
    returns the empty string.  If the bucket opens it asks once more, and
    only once: it returns the empty string when the second response has a
    status or no node, and the version of the first node otherwise.  The
    result is a string in every case; no error is returned. *)
Theorem cluster_version_retries_once :
  forall (S : Type) (engine : probe.engine S) (s : S) (bucket_ : string),
    bucket_ <> "" ->
    let first := probe.on_cluster_describe engine s in
    let opened := probe.on_open_bucket engine bucket_ (snd first) in
    let second := probe.on_cluster_describe engine (snd opened) in
    let result := probe.cluster_version engine bucket_ (s, []) in
    probe.describe_ec (fst first) = common_errc_service_not_available ->
    (ec_set (fst opened) = true ->
     result
     = ("", (snd opened, [probe.call_cluster_describe; probe.call_open_bucket bucket_])))
    /\ (ec_set (fst opened) = false ->
        snd result
        = (snd second,
           [probe.call_cluster_describe; probe.call_open_bucket bucket_;
            probe.call_cluster_describe])
        /\ (ec_set (probe.describe_ec (fst second)) = true
            \/ probe.nodes (fst second) = [] -> fst result = "")
        /\ (forall front rest,
               ec_set (probe.describe_ec (fst second)) = false ->
               probe.nodes (fst second) = front :: rest ->
               fst result = probe.version front)).
Proof.
  intros S engine s bucket_ Hname first opened second result Hstatus.
  assert (Hneeds : probe.needs_bucket (fst first) bucket_ = true).
  { unfold probe.needs_bucket. rewrite Hstatus. simpl.
    destruct (String.eqb_spec bucket_ ""); [contradiction | reflexivity]. }
  assert (Hresult :
            result
            = if ec_set (fst opened)
              then ("", (snd opened,
                         [probe.call_cluster_describe; probe.call_open_bucket bucket_]))
              else (probe.version_of (fst second),
                    (snd second,
                     [probe.call_cluster_describe; probe.call_open_bucket bucket_;
                      probe.call_cluster_describe]))).
  { unfold result. rewrite cluster_version_unfold.
    unfold probe.cluster_describe at 1, probe.submit. simpl.
    fold first. destruct first as [resp s1] eqn:Hfirst. simpl in *.
    rewrite Hneeds.
    unfold probe.bucket_open, probe.submit. simpl.
    fold opened. destruct opened as [code s2] eqn:Hopened. simpl in *.
    unfold probe.error_at.
    destruct (ec_set code) eqn:Hcode; simpl; [rewrite Hcode; reflexivity |].
    replace (ec_set (ec no_error)) with false by reflexivity.
    rewrite cluster_version_without_bucket.
    unfold probe.cluster_describe, probe.submit. simpl.
    fold second. destruct second as [resp2 s3]. reflexivity. }
  split.
  - intros Hfailed. rewrite Hresult, Hfailed. reflexivity.
  - intros Hopened. rewrite Hresult, Hopened. simpl.
    split; [reflexivity |]. unfold probe.version_of. split.
    + intros [Hset | Hnone].
      * rewrite Hset. destruct (probe.nodes (fst second)); reflexivity.
      * rewrite Hnone. reflexivity.
    + intros front rest Hset Hnodes. rewrite Hnodes, Hset. reflexivity.
Qed.

Lemma cluster_version_retries_once_witness :
  probe.cluster_version Fixtures.needs_a_bucket "travel-sample" (O, [])
  = ("7.0.2-6703-enterprise",
     (1%nat, [probe.call_cluster_describe; probe.call_open_bucket "travel-sample";
              probe.call_cluster_describe])).
Proof.
  assert (Hname : "travel-sample" <> "") by discriminate.
  destruct (cluster_version_retries_once nat Fixtures.needs_a_bucket O "travel-sample"
              Hname eq_refl) as [_ Hopened].
  destruct (Hopened eq_refl) as (Hcalls & _ & Hversion).
  specialize (Hversion _ _ eq_refl eq_refl).
  simpl in Hcalls, Hversion.
  destruct (probe.cluster_version Fixtures.needs_a_bucket "travel-sample" (O, []))
    as [version_ w].
  simpl in Hcalls, Hversion. rewrite Hcalls, Hversion. reflexivity.
Defined.

(** * Further properties *)

(** ** Retry reasons *)

(** The names of the listed enumerators are pairwise different, and none of
    them is the fallback name. *)
Theorem retry_reason_names_distinct :
  forall a b : retry_reason,
    listed_reason a ->
    (retry_reason_to_string a <> "unexpected")
    /\ (listed_reason b -> retry_reason_to_string a = retry_reason_to_string b -> a = b)
    /\ (forall code, retry_reason_to_string (retry_reason_other code) = "unexpected").
Proof.
  intros a b Ha. split; [| split].
  - destruct a; simpl in Ha; try contradiction; discriminate.
  - intros Hb Heq.
    destruct a; simpl in Ha; try contradiction;
      destruct b; simpl in Hb; try contradiction;
        try reflexivity; discriminate.
  - reflexivity.
Qed.

Lemma retry_reason_names_distinct_witness :
  retry_reason_to_string kv_locked <> "unexpected".
Proof.
  apply (retry_reason_names_distinct kv_locked unknown I).
Defined.

Lemma set_insert_in (x y : string) (s : list string) :
  In y (set_insert x s) <-> y = x \/ In y s.
Proof.
  unfold set_insert. destruct (existsb (String.eqb x) s) eqn:Hmem.
  - apply existsb_exists in Hmem. destruct Hmem as (z & Hz & Heq).
    apply String.eqb_eq in Heq. subst z. split; [tauto |].
    intros [-> | H]; assumption.
  - rewrite in_app_iff. simpl. split; intros H; intuition.
Qed.

Lemma set_insert_nodup (x : string) (s : list string) :
  NoDup s -> NoDup (set_insert x s).
Proof.
  intros Hs. unfold set_insert. destruct (existsb (String.eqb x) s) eqn:Hmem; [exact Hs |].
  apply NoDup_app; [exact Hs | constructor; [intros [] | constructor] |].
  intros y Hy [Heq | []]. subst y.
  assert (Hex : existsb (String.eqb x) s = true).
  { apply existsb_exists. exists x. split; [exact Hy | apply String.eqb_refl]. }
  congruence.
Qed.

Lemma fold_set_insert (reasons : list retry_reason) (out : list string) :
  NoDup out ->
  let result :=
    fold_left (fun out reason => set_insert (retry_reason_to_string reason) out)
      reasons out in
  NoDup result
  /\ forall s, In s result
               <-> In s out \/ exists reason, In reason reasons
                                              /\ retry_reason_to_string reason = s.
Proof.
  revert out. induction reasons as [| reason rest IH]; intros out Hout; simpl.
  - split; [exact Hout |]. intros s. split; [tauto |].
    intros [H | (reason & [] & _)]. exact H.
  - destruct (IH (set_insert (retry_reason_to_string reason) out)
                (set_insert_nodup _ _ Hout)) as [Hnodup Hin].
    split; [exact Hnodup |]. intros s. rewrite Hin, set_insert_in. split.
    + intros [[-> | H] | (r & Hr & Hs)].
      * right. exists reason. split; [left; reflexivity | reflexivity].
      * left. exact H.
      * right. exists r. split; [right; exact Hr | exact Hs].
    + intros [H | (r & [<- | Hr] & Hs)].
      * left. right. exact H.
      * left. left. symmetry. exact Hs.
      * right. exists r. split; assumption.
Qed.

(** The retry reasons of a typed context are a set: every name occurs once,
    and the names are those of the reasons of the raw context. *)
Theorem retry_reasons_form_a_set :
  forall reasons : list retry_reason,
    NoDup (insert_retry_reasons reasons)
    /\ (forall s, In s (insert_retry_reasons reasons)
                  <-> exists reason, In reason reasons
                                     /\ retry_reason_to_string reason = s)
    /\ (List.length (insert_retry_reasons reasons) <= List.length reasons)%nat.
Proof.
  intros reasons. unfold insert_retry_reasons.
  destruct (fold_set_insert reasons [] (NoDup_nil _)) as [Hnodup Hin].
  split; [exact Hnodup |]. split.
  - intros s. rewrite Hin. split; [intros [[] | H]; exact H | intros H; right; exact H].
  - apply NoDup_incl_length with (l' := map retry_reason_to_string reasons) in Hnodup.
    + rewrite length_map in Hnodup. exact Hnodup.
    + intros s Hs. apply Hin in Hs. destruct Hs as [[] | (r & Hr & <-)].
      apply in_map. exact Hr.
Qed.

(** ** Sequences of strings *)

Lemma emplace_strings_all (k : string) (strs : list string) (field : list string) :
  emplace_strings k (map ZString strs) field = (no_error, (field ++ strs)%list).
Proof.
  revert field. induction strs as [| s rest IH]; intros field; simpl.
  - rewrite app_nil_r. reflexivity.
  - rewrite IH, <- app_assoc. reflexivity.
Qed.

Lemma emplace_strings_stops (k : string) (strs : list string) (bad : zval)
  (rest : list zval) (field : list string) :
  is_string bad = false ->
  emplace_strings k (map ZString strs ++ bad :: rest)%list field
  = (invalid_argument 659 "cb_assign_vector_of_strings"
       ("expected " ++ dquote ++ k ++ dquote
        ++ " option to be an array of strings, detected non-string value"),
     (field ++ strs)%list).
Proof.
  intros Hbad. revert field. induction strs as [| s more IH]; intros field; simpl.
  - rewrite app_nil_r. destruct bad; try discriminate; reflexivity.
  - rewrite IH, <- app_assoc. reflexivity.
Qed.

(** [cb_assign_vector_of_strings] on an array: when every item is a string
    the items are appended to the field in their order; at the first item
    that is not a string it stops with [invalid_argument], a message that
    names the key, and the field extended by the strings before that item. *)
Theorem vector_of_strings_appends_until_non_string :
  forall (ht items : HashTable) (k : string) (field strs : list string),
    zend_symtable_str_find ht k = Some (ZArray items) ->
    (hash_values items = map ZString strs ->
     cb_assign_vector_of_strings field (Some (ZArray ht)) k
     = (no_error, (field ++ strs)%list))
    /\ (forall (bad : zval) (rest : list zval),
           is_string bad = false ->
           hash_values items = (map ZString strs ++ bad :: rest)%list ->
           cb_assign_vector_of_strings field (Some (ZArray ht)) k
           = (invalid_argument 659 "cb_assign_vector_of_strings"
                ("expected " ++ dquote ++ k ++ dquote
                 ++ " option to be an array of strings, detected non-string value"),
              (field ++ strs)%list)).
Proof.
  intros ht items k field strs Hfind. unfold cb_assign_vector_of_strings.
  rewrite Hfind. split.
  - intros ->. apply emplace_strings_all.
  - intros bad rest Hbad ->. apply emplace_strings_stops. exact Hbad.
Qed.

Lemma vector_of_strings_appends_until_non_string_witness :
  cb_assign_vector_of_strings ["type"]
    (Some (ZArray [(KStr "projections",
                    ZArray [(KIdx 0, ZString "name"); (KIdx 1, ZString "country")])]))
    "projections"
  = (no_error, ["type"; "name"; "country"]).
Proof.
  apply (proj1 (vector_of_strings_appends_until_non_string
                  [(KStr "projections",
                    ZArray [(KIdx 0, ZString "name"); (KIdx 1, ZString "country")])]
                  [(KIdx 0, ZString "name"); (KIdx 1, ZString "country")]
                  "projections" ["type"] ["name"; "country"] eq_refl)).
  reflexivity.
Defined.

Lemma json_strings_all (strs params : list string) :
  connection_handle.json_strings (map ZString strs) params = Done (params ++ strs)%list.
Proof.
  revert params. induction strs as [| s rest IH]; intros params; simpl.
  - rewrite app_nil_r. reflexivity.
  - rewrite IH, <- app_assoc. reflexivity.
Qed.

Lemma json_strings_defined (items : list zval) (params : list string) :
  defined (connection_handle.json_strings items params)
  <-> forallb is_string items = true.
Proof.
  revert params. induction items as [| item rest IH]; intros params; simpl.
  - tauto.
  - destruct item; simpl; try (split; [contradiction | discriminate]).
    apply IH.
Qed.

(** The parameters of a query, an analytics query and the keys of a view are
    copied without a test of their type: when every item of the array is a
    string the field is assigned the items in their order, and an item that
    is not a string makes the behaviour undefined. *)
Theorem json_strings_are_not_validated :
  forall (ht value : HashTable) (k : string),
    zend_symtable_str_find ht k = Some (ZArray value) ->
    (forall strs : list string,
        hash_values value = map ZString strs ->
        connection_handle.assign_json_strings (Some (ZArray ht)) k = Done (Some strs))
    /\ (defined (connection_handle.assign_json_strings (Some (ZArray ht)) k)
        <-> forallb is_string (hash_values value) = true).
Proof.
  intros ht value k Hfind.
  unfold connection_handle.assign_json_strings, connection_handle.find_array.
  simpl. rewrite Hfind. simpl. split.
  - intros strs ->. rewrite json_strings_all. reflexivity.
  - rewrite <- (json_strings_defined (hash_values value) []).
    destruct (connection_handle.json_strings (hash_values value) []); simpl; tauto.
Qed.

Lemma json_strings_are_not_validated_witness :
  connection_handle.assign_json_strings
    (Some (ZArray [(KStr "positionalParameters",
                    ZArray [(KIdx 0, ZString "1"); (KIdx 1, ZString "[2]")])]))
    "positionalParameters"
  = Done (Some ["1"; "[2]"]).
Proof.
  apply (proj1 (json_strings_are_not_validated
                  [(KStr "positionalParameters",
                    ZArray [(KIdx 0, ZString "1"); (KIdx 1, ZString "[2]")])]
                  [(KIdx 0, ZString "1"); (KIdx 1, ZString "[2]")]
                  "positionalParameters" eq_refl)).
  reflexivity.
Defined.

(** ** Validation errors *)

Lemma invalid_argument_is_validation (line : nat) (func msg : string) :
  validation_error (invalid_argument line func msg).
Proof.
  split; reflexivity.
Qed.

Create HintDb validation.

Lemma cb_assign_timeout_validation (timeout : option Z) (options : option zval) :
  ec_set (ec (fst (cb_assign_timeout timeout options))) = true ->
  validation_error (fst (cb_assign_timeout timeout options)).
Proof.
  unfold cb_assign_timeout.
  destruct options as [[] |]; simpl; try discriminate;
    try (intros _; apply invalid_argument_is_validation).
  destruct (zend_symtable_str_find ht "timeoutMilliseconds") as [[] |]; simpl;
    try discriminate; intros _; apply invalid_argument_is_validation.
Qed.

Lemma cb_assign_durability_validation (req : durability) (options : option zval) :
  ec_set (ec (fst (cb_assign_durability req options))) = true ->
  validation_error (fst (cb_assign_durability req options)).
Proof.
  unfold cb_assign_durability.
  destruct options as [[] |]; simpl; try discriminate;
    try (intros _; apply invalid_argument_is_validation).
  destruct (zend_symtable_str_find ht "durabilityLevel") as [[] |]; simpl;
    try discriminate; try (intros _; apply invalid_argument_is_validation).
  destruct (durability_level_of_string s) as [[] |]; simpl; try discriminate;
    try (intros _; apply invalid_argument_is_validation);
    destruct (zend_symtable_str_find ht "durabilityTimeoutSeconds") as [[] |]; simpl;
    try discriminate; intros _; apply invalid_argument_is_validation.
Qed.

Section FieldValidation.

Context {Field : Type}.
Variables (field : Field) (options : option zval) (k : string).

Lemma cb_assign_boolean_validation (of_bool : bool -> Field) :
  ec_set (ec (fst (cb_assign_boolean of_bool field options k))) = true ->
  validation_error (fst (cb_assign_boolean of_bool field options k)).
Proof.
  unfold cb_assign_boolean.
  destruct options as [[] |]; simpl; try discriminate;
    try (intros _; apply invalid_argument_is_validation).
  destruct (zend_symtable_str_find ht k) as [[] |]; simpl;
    try discriminate; intros _; apply invalid_argument_is_validation.
Qed.

Lemma cb_assign_integer_validation (of_long : Z -> Field) :
  ec_set (ec (fst (cb_assign_integer of_long field options k))) = true ->
  validation_error (fst (cb_assign_integer of_long field options k)).
Proof.
  unfold cb_assign_integer.
  destruct options as [[] |]; simpl; try discriminate;
    try (intros _; apply invalid_argument_is_validation).
  destruct (zend_symtable_str_find ht k) as [[] |]; simpl;
    try discriminate; intros _; apply invalid_argument_is_validation.
Qed.

Lemma cb_assign_string_validation (of_string : string -> Field) :
  ec_set (ec (fst (cb_assign_string of_string field options k))) = true ->
  validation_error (fst (cb_assign_string of_string field options k)).
Proof.
  unfold cb_assign_string.
  destruct options as [[] |]; simpl; try discriminate;
    try (intros _; apply invalid_argument_is_validation).
  destruct (zend_symtable_str_find ht k) as [[] |]; simpl;
    try discriminate; intros _; apply invalid_argument_is_validation.
Qed.

Lemma cb_get_integer_validation (of_long : Z -> Field) :
  ec_set (ec (fst (cb_get_integer of_long field options k))) = true ->
  validation_error (fst (cb_get_integer of_long field options k)).
Proof.
  unfold cb_get_integer.
  destruct options as [[] |]; simpl; try discriminate;
    try (intros _; apply invalid_argument_is_validation).
  destruct (zend_symtable_str_find ht k) as [[] |]; simpl;
    try discriminate; intros _; apply invalid_argument_is_validation.
Qed.

End FieldValidation.

Lemma emplace_strings_validation (k : string) (items : list zval) (field : list string) :
  ec_set (ec (fst (emplace_strings k items field))) = true ->
  validation_error (fst (emplace_strings k items field)).
Proof.
  revert field. induction items as [| item rest IH]; intros field; simpl;
    [discriminate |].
  destruct item; simpl; try (intros _; apply invalid_argument_is_validation).
  apply IH.
Qed.

Lemma cb_assign_vector_of_strings_validation (field : list string)
  (options : option zval) (k : string) :
  ec_set (ec (fst (cb_assign_vector_of_strings field options k))) = true ->
  validation_error (fst (cb_assign_vector_of_strings field options k)).
Proof.
  unfold cb_assign_vector_of_strings.
  destruct options as [[] |]; simpl; try discriminate;
    try (intros _; apply invalid_argument_is_validation).
  destruct (zend_symtable_str_find ht k) as [[] |]; simpl;
    try discriminate; try (intros _; apply invalid_argument_is_validation).
  apply emplace_strings_validation.
Qed.

#[local] Hint Resolve cb_assign_timeout_validation cb_assign_durability_validation
  cb_assign_boolean_validation cb_assign_integer_validation cb_assign_string_validation
  cb_get_integer_validation cb_assign_vector_of_strings_validation : validation.

(** One step of the proof that a failed decoding failed with a validation
    error: the step either is the one that failed or is passed. *)
Ltac validation_step :=
  match goal with
  | |- match ?c with (_, _) => _ end = Failed _ -> _ =>
      let H := fresh "H" in
      let e := fresh "e" in
      let x := fresh "x" in
      assert (H : ec_set (ec (fst c)) = true -> validation_error (fst c))
        by auto with validation;
      destruct c as [e x]; cbn [fst] in H;
      destruct (ec_set (ec e)); cbn [negb];
      [specialize (H eq_refl) | clear H]
  | |- Failed _ = Failed _ -> _ =>
      let Heq := fresh "Heq" in
      intros Heq; injection Heq as <-;
      first [assumption | apply invalid_argument_is_validation]
  | |- (if ?b then _ else _) = Failed _ -> _ => destruct b
  | |- Ok _ = Failed _ -> _ => discriminate
  | |- Crashed = Failed _ -> _ => discriminate
  | |- rbind (of_outcome ?m) _ = Failed _ -> _ =>
      destruct m; cbn [rbind of_outcome]; [| discriminate]
  end.

Lemma scan_consistency_validation (line : nat) (func : string) (options : option zval)
  (e : core_error_info) :
  connection_handle.assign_scan_consistency line func options = Failed e ->
  validation_error e.
Proof.
  unfold connection_handle.assign_scan_consistency. repeat validation_step.
Qed.

Lemma profile_validation (options : option zval) (e : core_error_info) :
  connection_handle.assign_profile options = Failed e -> validation_error e.
Proof.
  unfold connection_handle.assign_profile. repeat validation_step.
Qed.

Lemma highlight_style_validation (options : option zval) (e : core_error_info) :
  connection_handle.assign_highlight_style options = Failed e -> validation_error e.
Proof.
  unfold connection_handle.assign_highlight_style. repeat validation_step.
Qed.

Lemma view_consistency_validation (options : option zval) (e : core_error_info) :
  connection_handle.assign_view_consistency options = Failed e -> validation_error e.
Proof.
  unfold connection_handle.assign_view_consistency. repeat validation_step.
Qed.

Lemma view_order_validation (options : option zval) (e : core_error_info) :
  connection_handle.assign_view_order options = Failed e -> validation_error e.
Proof.
  unfold connection_handle.assign_view_order. repeat validation_step.
Qed.

Lemma view_name_space_validation (name_space : Z) (e : core_error_info) :
  connection_handle.view_name_space_of name_space = Failed e -> validation_error e.
Proof.
  unfold connection_handle.view_name_space_of. repeat validation_step.
Qed.

Lemma mutation_tokens_validation (options : option zval) (items : list zval)
  (vectors : list mutation_token) (e : core_error_info) :
  connection_handle.mutation_tokens options items vectors = Failed e ->
  validation_error e.
Proof.
  revert vectors. induction items as [| item rest IH]; intros vectors;
    cbn [connection_handle.mutation_tokens]; [discriminate |].
  repeat validation_step. apply IH.
Qed.

Lemma mutation_state_validation (options : option zval) (e : core_error_info) :
  connection_handle.assign_mutation_state options = Failed e -> validation_error e.
Proof.
  unfold connection_handle.assign_mutation_state.
  destruct (connection_handle.find_array options "consistentWith") as [[value |] |];
    cbn [rbind of_outcome]; try discriminate.
  destruct (connection_handle.mutation_tokens options (hash_values value) []) eqn:Htokens;
    cbn [rbind]; try discriminate.
  intros Heq. injection Heq as <-. apply (mutation_tokens_validation _ _ _ _ Htokens).
Qed.

(** A block of a decoder that failed, failed with a validation error. *)
Ltac validation_block :=
  match goal with
  | |- rbind ?m _ = Failed _ -> _ =>
      let Hm := fresh "Hm" in
      let Heq := fresh "Heq" in
      destruct m eqn:Hm; cbn [rbind];
      [clear Hm
      | intros Heq; injection Heq as <-;
        first [ apply (scan_consistency_validation _ _ _ _ Hm)
              | apply (profile_validation _ _ Hm)
              | apply (highlight_style_validation _ _ Hm)
              | apply (view_consistency_validation _ _ Hm)
              | apply (view_order_validation _ _ Hm)
              | apply (view_name_space_validation _ _ Hm)
              | apply (mutation_state_validation _ _ Hm) ]
      | discriminate]
  end.

(** Whatever the arguments, a decoding that fails fails with the code
    [invalid_argument] and without a typed context: the errors raised before
    the engine is called are validation errors.  This holds for the decoders
    of all eight operations. *)
Theorem decoding_fails_with_validation_errors :
  forall (bucket_ scope_ collection_ id_ value statement index_name design_document
            view_ : string) (flags name_space : Z) (index options : option zval)
         (e : core_error_info),
    (connection_handle.upsert_request_of_options bucket_ scope_ collection_ id_ value flags
       options = Failed e -> validation_error e)
    /\ (connection_handle.get_request_of_options bucket_ scope_ collection_ id_ options
        = Failed e -> validation_error e)
    /\ (connection_handle.exists_request_of_options bucket_ scope_ collection_ id_ options
        = Failed e -> validation_error e)
    /\ (connection_handle.query_request_of_options statement options = Failed e ->
        validation_error e)
    /\ (connection_handle.analytics_request_of_options statement options = Failed e ->
        validation_error e)
    /\ (connection_handle.search_request_of_options index_name statement options
        = Failed e -> validation_error e)
    /\ (connection_handle.view_request_of_options bucket_ design_document view_ name_space
          options = Failed e -> validation_error e)
    /\ (connection_handle.search_index_upsert_request_of index options = Failed e ->
        validation_error e).
Proof.
  intros. repeat match goal with |- _ /\ _ => split end.
  - unfold connection_handle.upsert_request_of_options. repeat validation_step.
  - unfold connection_handle.get_request_of_options. repeat validation_step.
  - unfold connection_handle.exists_request_of_options. repeat validation_step.
  - unfold connection_handle.query_request_of_options.
    repeat first [validation_step | validation_block].
  - unfold connection_handle.analytics_request_of_options.
    repeat first [validation_step | validation_block].
  - unfold connection_handle.search_request_of_options.
    repeat first [validation_step | validation_block].
  - unfold connection_handle.view_request_of_options.
    repeat first [validation_step | validation_block].
  - unfold connection_handle.search_index_upsert_request_of. repeat validation_step.
Qed.

Lemma decoding_fails_with_validation_errors_witness :
  validation_error
    (invalid_argument 464 "cb_assign_timeout" "expected array for options argument").
Proof.
  apply (proj1 (decoding_fails_with_validation_errors "travel-sample" "inventory" "airline"
                  "airline_10" "{}" "SELECT 1" "hotels" "beers" "by_name" 0 1 None
                  (Some (ZLong 3)) _)).
  reflexivity.
Defined.

(** ** Requests of the key-value operations *)

(** [document_get] asks for a plain get exactly when [withExpiry] decodes to
    false and no projection is decoded; otherwise it asks for a projected get
    that carries both.  Either request has the id of the arguments and the
    decoded timeout. *)
Theorem get_request_shape :
  forall (bucket_ scope_ collection_ id_ : string) (options : option zval)
         (request : get_request + get_projected_request),
    connection_handle.get_request_of_options bucket_ scope_ collection_ id_ options
    = Ok request ->
    let with_expiry := snd (cb_assign_boolean (fun b : bool => b) false options "withExpiry") in
    let projections := snd (cb_assign_vector_of_strings [] options "projections") in
    let timeout := snd (cb_assign_timeout None options) in
    let doc_id := connection_handle.make_document_id bucket_ scope_ collection_ id_ in
    match request with
    | inl plain =>
        with_expiry = false /\ projections = []
        /\ plain = {| get_id := doc_id; get_timeout := timeout |}
    | inr projected =>
        (with_expiry = true \/ projections <> [])
        /\ projected = {| get_projected_id := doc_id;
                          get_projected_with_expiry := with_expiry;
                          get_projected_projections := projections;
                          get_projected_timeout := timeout |}
    end.
Proof.
  intros bucket_ scope_ collection_ id_ options request.
  unfold connection_handle.get_request_of_options.
  destruct (cb_assign_boolean (fun b : bool => b) false options "withExpiry")
    as [e1 with_expiry].
  destruct (cb_assign_vector_of_strings [] options "projections") as [e2 projections].
  destruct (cb_assign_timeout None options) as [e3 timeout]. simpl.
  destruct (ec_set (ec e1)); [discriminate |].
  destruct (ec_set (ec e2)); [discriminate |].
  destruct with_expiry, projections as [| p rest]; simpl;
    destruct (ec_set (ec e3)); try discriminate;
    intros Hrequest; injection Hrequest as <-; repeat split;
    try (left; reflexivity); right; discriminate.
Qed.

Lemma get_request_shape_witness :
  connection_handle.get_request_of_options "travel-sample" "inventory" "airline"
    "airline_10" (Some (ZArray [(KStr "withExpiry", ZTrue)]))
  = Ok (inr {| get_projected_id := Fixtures.travel_doc;
               get_projected_with_expiry := true;
               get_projected_projections := [];
               get_projected_timeout := None |}).
Proof.
  assert (Hrun : connection_handle.get_request_of_options "travel-sample" "inventory"
                   "airline" "airline_10" (Some (ZArray [(KStr "withExpiry", ZTrue)]))
                 = Ok (inr {| get_projected_id := Fixtures.travel_doc;
                              get_projected_with_expiry := true;
                              get_projected_projections := [];
                              get_projected_timeout := None |})) by reflexivity.
  pose proof (get_request_shape _ _ _ _ _ _ Hrun) as [_ Hshape].
  rewrite Hrun, Hshape. reflexivity.
Defined.

(** [document_exists] never returns the document-not-found error, and what
    it returns on success is an array of the seven entries [exists],
    [deleted], [cas], [flags], [datatype], [expiry] and [sequenceNumber], in
    this order. *)
Theorem document_exists_result :
  forall (Payload : Type) (cluster_ : cluster Payload)
         (bucket_ scope_ collection_ id_ : string) (options : option zval),
    let call := connection_handle.document_exists cluster_ bucket_ scope_ collection_ id_
                  options in
    (forall e, call = Failed e ->
               ec_set (ec e) = true /\ ec e <> key_value_errc_document_not_found)
    /\ (forall out, call = Ok out ->
                    exists ht,
                      out = ZArray ht
                      /\ map fst ht
                         = [KStr "exists"; KStr "deleted"; KStr "cas"; KStr "flags";
                            KStr "datatype"; KStr "expiry"; KStr "sequenceNumber"]).
Proof.
  intros Payload cluster_ bucket_ scope_ collection_ id_ options call.
  unfold call, connection_handle.document_exists,
    connection_handle.exists_request_of_options.
  pose proof (cb_assign_timeout_error None options) as Htimeout.
  destruct (cb_assign_timeout None options) as [e1 timeout]. simpl in Htimeout |- *.
  destruct (ec_set (ec e1)) eqn:Hset1; simpl.
  - split; [| discriminate]. intros e He. injection He as <-.
    split; [exact Hset1 |]. rewrite (Htimeout eq_refl). discriminate.
  - match goal with
    | |- context [impl.key_value_execute cluster_ ?ex ?ctx ?op ?req] =>
        destruct (key_value_execute_cases cluster_ ex ctx op req) as [Hok Hbad];
        simpl in Hok, Hbad;
        set (request := req) in *
    end.
    destruct (ec_set (kv_ec (exists_ctx (execute_exists cluster_ request)))) eqn:Hset.
    + destruct (Hbad eq_refl) as [-> | (err & -> & Hcode)]; simpl;
        [split; discriminate |].
      rewrite Hcode, Hset. simpl.
      destruct (error_code_eqb (kv_ec (exists_ctx (execute_exists cluster_ request)))
                  key_value_errc_document_not_found) eqn:Heq; simpl.
      * split; [discriminate |]. intros out Hout. injection Hout as <-.
        eexists. split; reflexivity.
      * split; [| discriminate]. intros e He. injection He as <-.
        rewrite Hcode. split; [exact Hset |]. intros Hnot.
        rewrite Hnot in Heq. discriminate.
    + rewrite (Hok eq_refl). simpl. split; [discriminate |].
      intros out Hout. injection Hout as <-. eexists. split; reflexivity.
Qed.

Lemma document_exists_result_witness :
  exists ht,
    connection_handle.document_exists
      (Fixtures.replying (Fixtures.kv_with key_value_errc_document_not_found)
         Fixtures.travel_token ec_success)
      "travel-sample" "inventory" "airline" "airline_10" None = Ok (ZArray ht)
    /\ map fst ht
       = [KStr "exists"; KStr "deleted"; KStr "cas"; KStr "flags"; KStr "datatype";
          KStr "expiry"; KStr "sequenceNumber"].
Proof.
  destruct (connection_handle.document_exists
              (Fixtures.replying (Fixtures.kv_with key_value_errc_document_not_found)
                 Fixtures.travel_token ec_success)
              "travel-sample" "inventory" "airline" "airline_10" None)
    as [out | e | ] eqn:Hrun;
    [| vm_compute in Hrun; discriminate | vm_compute in Hrun; discriminate].
  destruct (proj2 (document_exists_result _ _ _ _ _ _ _) out Hrun) as (ht & -> & Hkeys).
  exists ht. split; [reflexivity | exact Hkeys].
Defined.

Section DecodedFields.

Variable ht : HashTable.

Let bag : option zval := Some (ZArray ht).

Lemma cb_assign_timeout_long_at :
  ec_set (ec (fst (cb_assign_timeout None bag))) = false ->
  snd (cb_assign_timeout None bag) = long_at ht "timeoutMilliseconds".
Proof.
  unfold cb_assign_timeout, long_at, bag.
  destruct (zend_symtable_str_find ht "timeoutMilliseconds") as [[] |]; simpl;
    try discriminate; reflexivity.
Qed.

Lemma cb_assign_integer_long_at (of_long : Z -> Z) (k : string) :
  ec_set (ec (fst (cb_assign_integer (fun l => Some (of_long l)) None bag k))) = false ->
  snd (cb_assign_integer (fun l => Some (of_long l)) None bag k)
  = option_map of_long (long_at ht k).
Proof.
  unfold cb_assign_integer, long_at, bag.
  destruct (zend_symtable_str_find ht k) as [[] |]; simpl;
    try discriminate; reflexivity.
Qed.

Lemma cb_assign_boolean_bool_at (k : string) :
  ec_set (ec (fst (cb_assign_boolean Some None bag k))) = false ->
  snd (cb_assign_boolean Some None bag k) = bool_at ht k.
Proof.
  unfold cb_assign_boolean, bool_at, bag.
  destruct (zend_symtable_str_find ht k) as [[] |]; simpl;
    try discriminate; reflexivity.
Qed.

Lemma cb_assign_durability_fields :
  ec_set (ec (fst (cb_assign_durability durability_default bag))) = false ->
  let decoded := snd (cb_assign_durability durability_default bag) in
  durability_level decoded
  = match zend_symtable_str_find ht "durabilityLevel" with
    | Some (ZString s) => durability_level_of_string s
    | _ => None
    end
  /\ durability_timeout decoded
     = match durability_level decoded with
       | Some protocol.none | None => None
       | Some _ => option_map to_uint16 (long_at ht "durabilityTimeoutSeconds")
       end.
Proof.
  unfold cb_assign_durability, long_at, bag.
  destruct (zend_symtable_str_find ht "durabilityLevel") as [[] |]; simpl;
    try discriminate; try (split; reflexivity).
  destruct (durability_level_of_string s) as [[] |]; simpl; try discriminate;
    try (split; reflexivity);
    destruct (zend_symtable_str_find ht "durabilityTimeoutSeconds") as [[] |]; simpl;
    try discriminate; split; reflexivity.
Qed.

End DecodedFields.

(** A request that [document_upsert] decodes from an array mirrors the
    arguments and the bag: the id and the value are the arguments, the flags
    are the argument as an unsigned 32-bit number, and each option field
    holds the value that the bag has under the key of this field, or is
    unassigned when the bag has no value of the right type there.  The
    expiry is held as an unsigned 32-bit number and the durability timeout
    as an unsigned 16-bit number: an integer outside the range of the member
    is reduced, not rejected.  The durability timeout is only taken for a
    level other than none. *)
Theorem upsert_request_mirrors_the_bag :
  forall (bucket_ scope_ collection_ id_ value : string) (flags : Z) (ht : HashTable)
         (request : upsert_request),
    connection_handle.upsert_request_of_options bucket_ scope_ collection_ id_ value flags
      (Some (ZArray ht)) = Ok request ->
    upsert_id request = connection_handle.make_document_id bucket_ scope_ collection_ id_
    /\ upsert_value request = value
    /\ upsert_flags request = flags mod 2 ^ 32
    /\ upsert_timeout request = long_at ht "timeoutMilliseconds"
    /\ upsert_preserve_expiry request = bool_at ht "preserveExpiry"
    /\ upsert_expiry request
       = option_map (fun l => l mod 2 ^ 32) (long_at ht "expiry")
    /\ durability_level (upsert_durability request)
       = match zend_symtable_str_find ht "durabilityLevel" with
         | Some (ZString s) => durability_level_of_string s
         | _ => None
         end
    /\ durability_timeout (upsert_durability request)
       = match durability_level (upsert_durability request) with
         | Some protocol.none | None => None
         | Some _ =>
             option_map (fun l => l mod 2 ^ 16) (long_at ht "durabilityTimeoutSeconds")
         end.
Proof.
  intros bucket_ scope_ collection_ id_ value flags ht request.
  unfold connection_handle.upsert_request_of_options.
  pose proof (cb_assign_timeout_long_at ht) as Htimeout.
  pose proof (cb_assign_durability_fields ht) as Hdurability.
  pose proof (cb_assign_boolean_bool_at ht "preserveExpiry") as Hpreserve.
  pose proof (cb_assign_integer_long_at ht to_uint32 "expiry") as Hexpiry.
  destruct (cb_assign_timeout None (Some (ZArray ht))) as [e1 timeout].
  destruct (cb_assign_durability durability_default (Some (ZArray ht))) as [e2 dur].
  destruct (cb_assign_boolean Some None (Some (ZArray ht)) "preserveExpiry")
    as [e3 preserve].
  destruct (cb_assign_integer (fun l => Some (to_uint32 l)) None (Some (ZArray ht))
              "expiry") as [e4 expiry].
  simpl in *.
  destruct (ec_set (ec e1)); [discriminate |].
  destruct (ec_set (ec e2)); [discriminate |].
  destruct (ec_set (ec e3)); [discriminate |].
  destruct (ec_set (ec e4)); [discriminate |].
  intros Hrequest. injection Hrequest as <-. simpl.
  destruct (Hdurability eq_refl) as [Hlevel Hdtimeout].
  repeat match goal with |- _ /\ _ => split end; auto.
Qed.

Lemma upsert_request_mirrors_the_bag_witness :
  exists request,
    connection_handle.upsert_request_of_options "travel-sample" "inventory" "airline"
      "airline_10" "{}" 4294967298
      (Some (ZArray [(KStr "expiry", ZLong 4294967301);
                     (KStr "durabilityLevel", ZString "majority");
                     (KStr "durabilityTimeoutSeconds", ZLong 70000)]))
    = Ok request
    /\ upsert_flags request = 2
    /\ upsert_expiry request = Some 5
    /\ durability_timeout (upsert_durability request) = Some 4464.
Proof.
  destruct (connection_handle.upsert_request_of_options "travel-sample" "inventory"
              "airline" "airline_10" "{}" 4294967298
              (Some (ZArray [(KStr "expiry", ZLong 4294967301);
                             (KStr "durabilityLevel", ZString "majority");
                             (KStr "durabilityTimeoutSeconds", ZLong 70000)])))
    as [request | e | ] eqn:Hrun;
    [| vm_compute in Hrun; discriminate | vm_compute in Hrun; discriminate].
  destruct (upsert_request_mirrors_the_bag _ _ _ _ _ _ _ _ Hrun)
    as (_ & _ & Hflags & _ & _ & Hexpiry & Hlevel & Hdtimeout).
  exists request. split; [reflexivity |].
  rewrite Hflags, Hexpiry, Hdtimeout, Hlevel. repeat split.
Defined.

(** ** Keys that an operation does not know *)

Lemma other_key (keys : list string) (k name_ : string) :
  ~ In k keys -> In name_ keys -> String.eqb name_ k = false.
Proof.
  intros Hk Hname. destruct (String.eqb_spec name_ k) as [-> | _];
    [contradiction | reflexivity].
Qed.

Section UnknownKey.

Variables (ht : HashTable) (k : string).

Let bag : option zval := Some (ZArray ht).
Let smaller : option zval := Some (ZArray (without_key ht k)).

Lemma cb_assign_durability_without (req : durability) :
  String.eqb "durabilityLevel" k = false ->
  String.eqb "durabilityTimeoutSeconds" k = false ->
  cb_assign_durability req smaller = cb_assign_durability req bag.
Proof.
  intros Hlevel Htimeout. unfold cb_assign_durability, smaller, bag.
  rewrite !find_without_other by assumption. reflexivity.
Qed.

Lemma mutation_tokens_without_other (items : list zval) (vectors : list mutation_token) :
  ~ In k query_keys ->
  connection_handle.mutation_tokens smaller items vectors
  = connection_handle.mutation_tokens bag items vectors.
Proof.
  intros Hk. revert vectors.
  induction items as [| item rest IH]; intros vectors;
    cbn [connection_handle.mutation_tokens]; [reflexivity |].
  unfold smaller, bag in *.
  rewrite !cb_assign_integer_without, cb_assign_string_without
    by (apply (other_key query_keys); [exact Hk | simpl; tauto]).
  repeat match goal with
         | |- context [let '(_, _) := ?c in _] => destruct c
         | |- context [if ?b then _ else _] => destruct b
         end; try reflexivity.
  apply IH.
Qed.

Lemma assign_mutation_state_without_other :
  ~ In k query_keys ->
  connection_handle.assign_mutation_state smaller
  = connection_handle.assign_mutation_state bag.
Proof.
  intros Hk. unfold connection_handle.assign_mutation_state, smaller, bag.
  rewrite find_array_without by (apply (other_key query_keys); [exact Hk | simpl; tauto]).
  destruct (connection_handle.find_array (Some (ZArray ht)) "consistentWith")
    as [[value |] |]; simpl; try reflexivity.
  pose proof (mutation_tokens_without_other (hash_values value) [] Hk) as Htokens.
  unfold smaller, bag in Htokens. rewrite Htokens. reflexivity.
Qed.

End UnknownKey.

(** A key that an operation does not look up has no effect on the decoding:
    for [document_upsert] and for [query], the bag and the bag without the
    entries of such a key decode to the same result. *)
Theorem unknown_keys_are_ignored :
  forall (ht : HashTable) (k : string),
    (~ In k upsert_keys ->
     forall (bucket_ scope_ collection_ id_ value : string) (flags : Z),
       connection_handle.upsert_request_of_options bucket_ scope_ collection_ id_ value
         flags (Some (ZArray (without_key ht k)))
       = connection_handle.upsert_request_of_options bucket_ scope_ collection_ id_ value
           flags (Some (ZArray ht)))
    /\ (~ In k query_keys ->
        forall statement : string,
          connection_handle.query_request_of_options statement
            (Some (ZArray (without_key ht k)))
          = connection_handle.query_request_of_options statement (Some (ZArray ht))).
Proof.
  intros ht k. split.
  - intros Hk bucket_ scope_ collection_ id_ value flags.
    unfold connection_handle.upsert_request_of_options.
    rewrite cb_assign_timeout_without, cb_assign_durability_without,
      cb_assign_boolean_without, cb_assign_integer_without
      by (apply (other_key upsert_keys); [exact Hk | simpl; tauto]).
    reflexivity.
  - intros Hk statement.
    unfold connection_handle.query_request_of_options,
      connection_handle.assign_scan_consistency, connection_handle.assign_profile.
    rewrite cb_assign_timeout_without, !cb_get_integer_without,
      !cb_assign_integer_without, !cb_assign_boolean_without, !cb_assign_string_without,
      assign_json_strings_without, !assign_json_map_without
      by (apply (other_key query_keys); [exact Hk | simpl; tauto]).
    rewrite (assign_mutation_state_without_other ht k Hk). reflexivity.
Qed.

Lemma unknown_keys_are_ignored_witness :
  connection_handle.query_request_of_options "SELECT 1"
    (Some (ZArray (without_key [(KStr "readonly", ZTrue); (KStr "useReplica", ZTrue)]
                     "useReplica")))
  = connection_handle.query_request_of_options "SELECT 1"
      (Some (ZArray [(KStr "readonly", ZTrue); (KStr "useReplica", ZTrue)])).
Proof.
  apply (proj2 (unknown_keys_are_ignored
                  [(KStr "readonly", ZTrue); (KStr "useReplica", ZTrue)] "useReplica")).
  simpl. intros H. decompose [or] H; try discriminate; contradiction.
Defined.

(** ** The null bag *)

(** With a bag that is a null pointer or the host-language null, the
    key-value operations decode a request whose option fields are all
    unassigned, whereas [query], [analytics_query], [search_query] and
    [view_query] take the array of the bag without a test: the first three
    have undefined behaviour, and [view_query] either rejects the namespace or
    has undefined behaviour; none of them decodes a request. *)
Theorem null_bag_decoding :
  forall (options : option zval),
    null_bag options ->
    forall (bucket_ scope_ collection_ id_ value statement index_name design_document
              view_ : string) (flags space : Z),
      connection_handle.upsert_request_of_options bucket_ scope_ collection_ id_ value flags
        options
      = Ok {| upsert_id := connection_handle.make_document_id bucket_ scope_ collection_ id_;
              upsert_value := value;
              upsert_flags := to_uint32 flags;
              upsert_timeout := None;
              upsert_durability := durability_default;
              upsert_preserve_expiry := None;
              upsert_expiry := None |}
      /\ connection_handle.get_request_of_options bucket_ scope_ collection_ id_ options
         = Ok (inl {| get_id := connection_handle.make_document_id bucket_ scope_
                                  collection_ id_;
                      get_timeout := None |})
      /\ connection_handle.exists_request_of_options bucket_ scope_ collection_ id_ options
         = Ok {| exists_id := connection_handle.make_document_id bucket_ scope_
                                collection_ id_;
                 exists_timeout := None |}
      /\ connection_handle.query_request_of_options statement options = Crashed
      /\ connection_handle.analytics_request_of_options statement options = Crashed
      /\ connection_handle.search_request_of_options index_name statement options = Crashed
      /\ (forall request,
             connection_handle.view_request_of_options bucket_ design_document view_
               space options <> Ok request).
Proof.
  intros options H. bag_cases H; intros; repeat match goal with |- _ /\ _ => split end;
    try reflexivity;
    intros request; unfold connection_handle.view_request_of_options;
    destruct (connection_handle.view_name_space_of space); simpl; discriminate.
Qed.

Lemma null_bag_decoding_witness :
  connection_handle.query_request_of_options "SELECT 1" None = Crashed.
Proof.
  destruct (null_bag_decoding None (or_introl eq_refl) "travel-sample" "inventory"
              "airline" "airline_10" "{}" "SELECT 1" "hotels" "beers" "by_name" 0 1)
    as (_ & _ & _ & Hquery & _).
  exact Hquery.
Defined.

(** ** Mutation tokens of [consistentWith] *)

Lemma cb_assign_integer_or_default (of_long : Z -> Z) (ht : HashTable) (k : string)
  (d : Z) :
  ec_set (ec (fst (cb_assign_integer of_long d (Some (ZArray ht)) k))) = false ->
  snd (cb_assign_integer of_long d (Some (ZArray ht)) k)
  = match long_at ht k with Some l => of_long l | None => d end.
Proof.
  unfold cb_assign_integer, long_at.
  destruct (zend_symtable_str_find ht k) as [[] |]; simpl; try discriminate; reflexivity.
Qed.

Lemma cb_assign_string_or_default (ht : HashTable) (k : string) (d : string) :
  ec_set (ec (fst (cb_assign_string (fun s => s) d (Some (ZArray ht)) k))) = false ->
  snd (cb_assign_string (fun s => s) d (Some (ZArray ht)) k)
  = match string_at ht k with Some s => s | None => d end.
Proof.
  unfold cb_assign_string, string_at.
  destruct (zend_symtable_str_find ht k) as [[] |]; simpl; try discriminate; reflexivity.
Qed.

(** The loops over [consistentWith] of [query] and [search_query] produce
    one token for each record, and every token is the same: the one built
    from the keys [partitionId], [partitionUuid], [sequenceNumber] and
    [bucketName] of the bag of the call, whatever the records hold.  Its
    numbers are the integers of the bag as unsigned numbers of 16, 64 and 64
    bits. *)
Theorem consistent_with_tokens_come_from_the_bag :
  forall (ht : HashTable) (items : list zval) (vectors tokens : list mutation_token),
    connection_handle.mutation_tokens (Some (ZArray ht)) items vectors = Ok tokens ->
    tokens = (vectors ++ repeat (token_of_bag ht) (List.length items))%list.
Proof.
  intros ht items. induction items as [| item rest IH]; intros vectors tokens;
    cbn [connection_handle.mutation_tokens].
  - intros Heq. injection Heq as <-. simpl. rewrite app_nil_r. reflexivity.
  - pose proof (cb_assign_integer_or_default to_uint16 ht "partitionId" 0) as Hid.
    pose proof (cb_assign_integer_or_default to_uint64 ht "partitionUuid" 0) as Huuid.
    pose proof (cb_assign_integer_or_default to_uint64 ht "sequenceNumber" 0) as Hseq.
    pose proof (cb_assign_string_or_default ht "bucketName" "") as Hbucket.
    simpl partition_id. simpl partition_uuid. simpl sequence_number. simpl bucket_name.
    destruct (cb_assign_integer to_uint16 0 (Some (ZArray ht)) "partitionId")
      as [e1 id_].
    destruct (cb_assign_integer to_uint64 0 (Some (ZArray ht)) "partitionUuid")
      as [e2 uuid].
    destruct (cb_assign_integer to_uint64 0 (Some (ZArray ht)) "sequenceNumber")
      as [e3 seqno].
    destruct (cb_assign_string (fun s => s) "" (Some (ZArray ht)) "bucketName")
      as [e4 bucket_].
    simpl in Hid, Huuid, Hseq, Hbucket.
    destruct (ec_set (ec e1)); [discriminate |].
    destruct (ec_set (ec e2)); [discriminate |].
    destruct (ec_set (ec e3)); [discriminate |].
    destruct (ec_set (ec e4)); [discriminate |].
    intros Htokens. apply IH in Htokens. rewrite Htokens, <- app_assoc.
    rewrite (Hid eq_refl), (Huuid eq_refl), (Hseq eq_refl), (Hbucket eq_refl).
    reflexivity.
Qed.

Lemma consistent_with_tokens_come_from_the_bag_witness :
  connection_handle.mutation_tokens
    (Some (ZArray [(KStr "bucketName", ZString "travel-sample")]))
    [ZArray [(KStr "bucketName", ZString "beer-sample"); (KStr "partitionId", ZLong 7)]] []
  = Ok [ {| partition_uuid := 0; sequence_number := 0; partition_id := 0;
            bucket_name := "travel-sample" |} ].
Proof.
  destruct (connection_handle.mutation_tokens
              (Some (ZArray [(KStr "bucketName", ZString "travel-sample")]))
              [ZArray [(KStr "bucketName", ZString "beer-sample");
                       (KStr "partitionId", ZLong 7)]] [])
    as [tokens | e | ] eqn:Hrun;
    [| vm_compute in Hrun; discriminate | vm_compute in Hrun; discriminate].
  rewrite (consistent_with_tokens_come_from_the_bag _ _ _ _ Hrun). reflexivity.
Defined.

(** ** Enumerated integer options *)

Lemma as_unsigned_correct (v : Z) : zend_long v -> to_uint64 v = as_unsigned v.
Proof.
  apply to_uint64_of_zend_long.
Qed.

Ltac decide_codes :=
  repeat match goal with
         | |- context [(?a =? ?b)%Z] => destruct (Z.eqb_spec a b); try lia
         | |- context [(?a <? ?b)%Z] => destruct (Z.ltb_spec a b); try lia
         end;
  try reflexivity.

(** The integer codes of [profile] (query), [highlightStyle] (search) and
    [scanConsistency] (view): the listed codes set the field, the value 0
    leaves it unassigned without an error, and every other value fails with
    [invalid_argument] and a message that shows the value as an unsigned
    64-bit number. *)
Theorem enumerated_codes :
  forall (ht : HashTable) (v : Z),
    zend_long v ->
    (zend_symtable_str_find ht "profile" = Some (ZLong v) ->
     connection_handle.assign_profile (Some (ZArray ht))
     = if (v =? 1)%Z then Ok (Some profile_off)
       else if (v =? 2)%Z then Ok (Some profile_phases)
       else if (v =? 3)%Z then Ok (Some profile_timings)
       else if (v =? 0)%Z then Ok None
       else Failed (invalid_argument 918 "query"
                      ("invalid value used for profile: " ++ fmt_dec (as_unsigned v))))
    /\ (zend_symtable_str_find ht "highlightStyle" = Some (ZLong v) ->
        connection_handle.assign_highlight_style (Some (ZArray ht))
        = if (v =? 1)%Z then Ok (Some highlight_ansi)
          else if (v =? 2)%Z then Ok (Some highlight_html)
          else if (v =? 0)%Z then Ok None
          else Failed (invalid_argument 1309 "search_query"
                         ("invalid value used for highlight style: "
                          ++ fmt_dec (as_unsigned v))))
    /\ (zend_symtable_str_find ht "scanConsistency" = Some (ZLong v) ->
        connection_handle.assign_view_consistency (Some (ZArray ht))
        = if (v =? 1)%Z then Ok (Some not_bounded)
          else if (v =? 2)%Z then Ok (Some request_plus)
          else if (v =? 3)%Z then Ok (Some update_after)
          else if (v =? 0)%Z then Ok None
          else Failed (invalid_argument 1567 "view_query"
                         ("invalid value used for scan consistency: "
                          ++ fmt_dec (as_unsigned v)))).
Proof.
  intros ht v Hrange.
  pose proof (as_unsigned_correct v Hrange) as Hu.
  assert (Hcases : as_unsigned v = v /\ 0 <= v \/ as_unsigned v = v + 18446744073709551616 /\ v < 0).
  { unfold as_unsigned. change (2 ^ 64) with 18446744073709551616.
    destruct (Z.ltb_spec v 0); lia. }
  unfold zend_long in Hrange. change (2 ^ 63) with 9223372036854775808 in Hrange.
  repeat match goal with |- _ /\ _ => split end; intros Hfind.
  - unfold connection_handle.assign_profile, cb_get_integer. rewrite Hfind.
    cbn [ec_set ec no_error negb]. rewrite Hu.
    set (shown := fmt_dec (as_unsigned v)).
    destruct Hcases as [[Hw Hv] | [Hw Hv]]; rewrite Hw; decide_codes.
  - unfold connection_handle.assign_highlight_style, cb_get_integer. rewrite Hfind.
    cbn [ec_set ec no_error negb]. rewrite Hu.
    set (shown := fmt_dec (as_unsigned v)).
    destruct Hcases as [[Hw Hv] | [Hw Hv]]; rewrite Hw; decide_codes.
  - unfold connection_handle.assign_view_consistency, cb_get_integer. rewrite Hfind.
    cbn [ec_set ec no_error negb]. rewrite Hu.
    set (shown := fmt_dec (as_unsigned v)).
    destruct Hcases as [[Hw Hv] | [Hw Hv]]; rewrite Hw; decide_codes.
Qed.

Lemma enumerated_codes_witness :
  connection_handle.assign_profile (Some (ZArray [(KStr "profile", ZLong (-1))]))
  = Failed (invalid_argument 918 "query"
              "invalid value used for profile: 18446744073709551615").
Proof.
  assert (Hrange : zend_long (-1)) by (unfold zend_long; lia).
  destruct (enumerated_codes [(KStr "profile", ZLong (-1))] (-1) Hrange) as [Hprofile _].
  rewrite (Hprofile eq_refl). reflexivity.
Defined.

(** ** Arguments of a view query *)

Lemma view_order_assigned (options : option zval) (order : option sort_order) :
  connection_handle.assign_view_order options = Ok order -> order <> None.
Proof.
  unfold connection_handle.assign_view_order.
  destruct (cb_get_integer to_uint64 0 options "order") as [e v].
  destruct (negb (ec_set (ec e))); [| discriminate].
  destruct (v =? 0)%Z; [intros Heq; injection Heq as <-; discriminate |].
  destruct (v =? 1)%Z; [intros Heq; injection Heq as <-; discriminate | discriminate].
Qed.

Lemma view_name_space_cases (space : Z) :
  connection_handle.view_name_space_of space
  = if (space mod 2 ^ 32 =? 1)%Z then Ok development
    else if (space mod 2 ^ 32 =? 2)%Z then Ok production
    else Failed (invalid_argument 1536 "view_query"
                   ("invalid value used for namespace: " ++ fmt_dec (space mod 2 ^ 32))).
Proof.
  reflexivity.
Qed.

(** [view_query] checks the namespace before it reads the bag: a namespace
    that is neither 1 nor 2 as an unsigned 32-bit number is rejected whatever
    the bag is.  A request that is decoded has the namespace of the argument,
    and its order is always assigned: a bag without [order] asks for the
    ascending order. *)
Theorem view_arguments :
  forall (bucket_ design_document view_ : string) (space : Z) (options : option zval),
    let decoded := connection_handle.view_request_of_options bucket_ design_document view_
                     space options in
    (space mod 2 ^ 32 <> 1 -> space mod 2 ^ 32 <> 2 ->
     decoded
     = Failed (invalid_argument 1536 "view_query"
                 ("invalid value used for namespace: " ++ fmt_dec (space mod 2 ^ 32))))
    /\ (forall request,
           decoded = Ok request ->
           view_order request <> None
           /\ (space mod 2 ^ 32 = 1 /\ view_name_space request = development
               \/ space mod 2 ^ 32 = 2 /\ view_name_space request = production)
           /\ (forall ht, options = Some (ZArray ht) ->
                          zend_symtable_str_find ht "order" = None ->
                          view_order request = Some ascending)).
Proof.
  intros bucket_ design_document view_ space options decoded.
  unfold decoded, connection_handle.view_request_of_options.
  rewrite view_name_space_cases. split.
  - intros H1 H2.
    destruct (Z.eqb_spec (space mod 2 ^ 32) 1); [contradiction |].
    destruct (Z.eqb_spec (space mod 2 ^ 32) 2); [contradiction |]. reflexivity.
  - intros request.
    assert (Hspace : forall n : operations.name_space,
               (if (space mod 2 ^ 32 =? 1)%Z then Ok development
                else if (space mod 2 ^ 32 =? 2)%Z then Ok production
                else Failed (invalid_argument 1536 "view_query"
                               ("invalid value used for namespace: "
                                ++ fmt_dec (space mod 2 ^ 32)))) = Ok n ->
               space mod 2 ^ 32 = 1 /\ n = development
               \/ space mod 2 ^ 32 = 2 /\ n = production).
    { intros n. destruct (Z.eqb_spec (space mod 2 ^ 32) 1).
      - intros Heq. injection Heq as <-. left. split; [assumption | reflexivity].
      - destruct (Z.eqb_spec (space mod 2 ^ 32) 2); [| discriminate].
        intros Heq. injection Heq as <-. right. split; [assumption | reflexivity]. }
    repeat invert_step.
    intros Hrequest. injection Hrequest as <-. cbn [view_order view_name_space].
    split; [| split].
    + eapply view_order_assigned. eassumption.
    + apply Hspace. first [assumption | reflexivity].
    + intros ht -> Habsent.
      match goal with
      | H : connection_handle.assign_view_order _ = Ok _ |- _ =>
          unfold connection_handle.assign_view_order, cb_get_integer in H;
          rewrite Habsent in H; simpl in H; injection H as <-
      end.
      reflexivity.
Qed.

Lemma view_arguments_witness :
  connection_handle.view_request_of_options "beer-sample" "beer" "by_name" 4294967299
    (Some (ZArray []))
  = Failed (invalid_argument 1536 "view_query" "invalid value used for namespace: 3").
Proof.
  destruct (view_arguments "beer-sample" "beer" "by_name" 4294967299 (Some (ZArray [])))
    as [Hreject _].
  rewrite Hreject; [reflexivity | discriminate | discriminate].
Defined.

(** ** Cluster-level options *)

Lemma existsb_eqb_false (k : string) (keys : list string) :
  existsb (String.eqb k) keys = false <-> ~ In k keys.
Proof.
  split.
  - intros Hfalse Hin.
    assert (Htrue : existsb (String.eqb k) keys = true).
    { apply existsb_exists. exists k. split; [exact Hin | apply String.eqb_refl]. }
    congruence.
  - intros Hnot. destruct (existsb (String.eqb k) keys) eqn:Hex; [| reflexivity].
    apply existsb_exists in Hex. destruct Hex as (x & Hx & Heq).
    apply String.eqb_eq in Heq. subst x. contradiction.
Qed.

Lemma distinct_nodup (l : list string) : distinct l = true -> NoDup l.
Proof.
  induction l as [| x rest IH]; simpl; [constructor |].
  rewrite andb_true_iff, negb_true_iff, existsb_eqb_false.
  intros [Hx Hrest]. constructor; [exact Hx | apply IH; exact Hrest].
Qed.

Lemma cluster_option_keys_distinct : NoDup cluster_option_keys.
Proof.
  apply distinct_nodup. vm_compute. reflexivity.
Qed.

Section ClusterOptionsFacts.

Import ClusterOptions.

Lemma assign_option_other (a : assignment) (key : string) (value : zval)
  (options : cluster_options) :
  key <> option_name a -> assign_option a key value options = Next options.
Proof.
  intros Hneq. unfold assign_option.
  destruct (String.eqb_spec key (option_name a)); [contradiction | reflexivity].
Qed.

Lemma assign_options_unknown (invocations : list assignment) (key : string)
  (value : zval) (options : cluster_options) :
  ~ In key (map option_name invocations) ->
  assign_options invocations key value options = Next options.
Proof.
  induction invocations as [| a rest IH]; simpl; [reflexivity |].
  intros Hnot.
  rewrite assign_option_other by (intros Heq; apply Hnot; left; symmetry; exact Heq).
  apply IH. tauto.
Qed.

Lemma assign_options_dispatch (invocations : list assignment) (a : assignment)
  (value : zval) (options : cluster_options) :
  NoDup (map option_name invocations) ->
  In a invocations ->
  assign_options invocations (option_name a) value options
  = assign_option a (option_name a) value options.
Proof.
  induction invocations as [| h rest IH]; simpl; [contradiction |].
  intros Hnodup Hin. inversion Hnodup as [| x l Hfresh Hrest]; subst.
  destruct Hin as [-> | Hin].
  - destruct (assign_option a (option_name a) value options); try reflexivity.
    apply assign_options_unknown. exact Hfresh.
  - rewrite assign_option_other.
    + apply IH; assumption.
    + intros Heq. apply Hfresh. rewrite <- Heq. apply in_map. exact Hin.
Qed.

Lemma assign_tls_verify_other (key : string) (value : zval) (options : cluster_options) :
  key <> "tlsVerify" -> assign_tls_verify key value options = Next options.
Proof.
  intros Hneq. unfold assign_tls_verify.
  destruct (String.eqb_spec key "tlsVerify"); [contradiction | reflexivity].
Qed.

Lemma assign_nested_other (name_ : string) (line_ : nat) (what : string)
  (invocations : list assignment) (key : string) (value : zval)
  (options : cluster_options) :
  key <> name_ ->
  assign_nested name_ line_ what invocations key value options = Done (Next options).
Proof.
  intros Hneq. unfold assign_nested.
  destruct (String.eqb_spec key name_); [contradiction | reflexivity].
Qed.

Lemma apply_option_tail (key : string) (value : zval) (options : cluster_options) :
  ~ In key ["tlsVerify"; "thresholdLoggingTracerOptions"; "loggingMeterOptions"] ->
  apply_option key value options
  = Done (assign_options cluster_invocations key value options).
Proof.
  intros Hnot. unfold apply_option.
  assert (Htls : key <> "tlsVerify") by (intros ->; apply Hnot; simpl; tauto).
  assert (Htracer : key <> "thresholdLoggingTracerOptions")
    by (intros ->; apply Hnot; simpl; tauto).
  assert (Hmeter : key <> "loggingMeterOptions") by (intros ->; apply Hnot; simpl; tauto).
  destruct (assign_options cluster_invocations key value options) as [o | |];
    try reflexivity.
  rewrite assign_tls_verify_other by exact Htls.
  rewrite assign_nested_other by exact Htracer. simpl.
  rewrite assign_nested_other by exact Hmeter. reflexivity.
Qed.

Lemma apply_option_unknown (key : string) (value : zval) (options : cluster_options) :
  ~ In key cluster_option_keys -> apply_option key value options = Done (Next options).
Proof.
  unfold cluster_option_keys. rewrite in_app_iff. intros Hnot.
  rewrite apply_option_tail by tauto.
  rewrite assign_options_unknown by tauto. reflexivity.
Qed.

Lemma apply_option_dispatch (a : assignment) (value : zval) (options : cluster_options) :
  In a cluster_invocations ->
  apply_option (option_name a) value options
  = Done (assign_option a (option_name a) value options).
Proof.
  intros Hin.
  pose proof cluster_option_keys_distinct as Hnodup.
  unfold cluster_option_keys in Hnodup.
  rewrite apply_option_tail.
  - rewrite assign_options_dispatch; [reflexivity | | exact Hin].
    apply NoDup_app_remove_r in Hnodup. exact Hnodup.
  - assert (Hdisjoint :
              forallb (fun k => negb (existsb (String.eqb k)
                                        ["tlsVerify"; "thresholdLoggingTracerOptions";
                                         "loggingMeterOptions"]))
                (map option_name cluster_invocations) = true)
      by (vm_compute; reflexivity).
    rewrite forallb_forall in Hdisjoint.
    specialize (Hdisjoint (option_name a) (in_map _ _ _ Hin)).
    apply negb_true_iff, existsb_eqb_false in Hdisjoint. exact Hdisjoint.
Qed.

End ClusterOptionsFacts.

(** [apply_options] skips the entries whose key it does not know: the bag
    and the bag without these entries give the same result, and a bag that
    holds only such entries leaves the options of the cluster as they are. *)
Theorem unknown_cluster_options_are_skipped :
  forall (connstr : ClusterOptions.cluster_options) (ht : HashTable),
    ClusterOptions.apply_options connstr (Some (ZArray ht))
    = ClusterOptions.apply_options connstr
        (Some (ZArray (filter (fun entry => negb (unknown_cluster_option entry)) ht)))
    /\ (forallb unknown_cluster_option ht = true ->
        ClusterOptions.apply_options connstr (Some (ZArray ht)) = Done (no_error, connstr)).
Proof.
  intros connstr ht. unfold ClusterOptions.apply_options. revert connstr.
  induction ht as [| [[h | key_] value] rest IH]; intros connstr.
  - split; reflexivity.
  - split; [reflexivity | discriminate].
  - assert (Hentry : unknown_cluster_option (KStr key_, value)
                     = negb (existsb (String.eqb key_) cluster_option_keys))
      by reflexivity.
    cbn [filter forallb]. rewrite Hentry.
    destruct (existsb (String.eqb key_) cluster_option_keys) eqn:Hknown; cbn [negb andb].
    + split; [| discriminate].
      cbn [ClusterOptions.foreach_str_key_val].
      destruct (ClusterOptions.apply_option key_ value connstr) as [[o | | e] |];
        cbn [obind]; try reflexivity; apply IH.
    + apply existsb_eqb_false in Hknown.
      cbn [ClusterOptions.foreach_str_key_val].
      rewrite (apply_option_unknown key_ value connstr Hknown). cbn [obind].
      apply IH.
Qed.

Lemma unknown_cluster_options_are_skipped_witness :
  ClusterOptions.apply_options []
    (Some (ZArray [(KStr "wanDevelopment", ZTrue); (KStr "numKvConnections", ZLong 4)]))
  = Done (no_error, []).
Proof.
  apply (proj2 (unknown_cluster_options_are_skipped []
                  [(KStr "wanDevelopment", ZTrue); (KStr "numKvConnections", ZLong 4)])).
  vm_compute. reflexivity.
Defined.

(** A key that an invocation of an [ASSIGN_*_OPTION] macro tests is handled
    by that invocation alone.  For a duration: the null value is skipped, a
    negative integer is rejected with [invalid_argument] and a message that
    names the key, both without a change of the options, and any other
    integer, zero included, is assigned as a number of milliseconds. *)
Theorem cluster_durations :
  forall (a : ClusterOptions.assignment) (options : ClusterOptions.cluster_options),
    In a ClusterOptions.cluster_invocations ->
    (forall value,
        ClusterOptions.apply_option (ClusterOptions.option_name a) value options
        = Done (ClusterOptions.assign_option a (ClusterOptions.option_name a) value options))
    /\ (ClusterOptions.kind a = ClusterOptions.DURATION ->
        ClusterOptions.apply_option (ClusterOptions.option_name a) ZNull options
        = Done (ClusterOptions.Continue options)
        /\ forall ms : Z,
            ClusterOptions.apply_option (ClusterOptions.option_name a) (ZLong ms) options
            = if (ms <? 0)%Z
              then Done (ClusterOptions.Return
                           (invalid_argument (ClusterOptions.line a) "apply_options"
                              ("expected duration as a positive number for "
                               ++ ClusterOptions.option_name a))
                           options)
              else Done (ClusterOptions.Next
                           (map_assign options (ClusterOptions.member a)
                              (ClusterOptions.duration_ms ms)))).
Proof.
  intros a options Hin. split.
  - intros value. apply apply_option_dispatch. exact Hin.
  - intros Hkind. split.
    + rewrite apply_option_dispatch by exact Hin.
      unfold ClusterOptions.assign_option. rewrite String.eqb_refl, Hkind. reflexivity.
    + intros ms. rewrite apply_option_dispatch by exact Hin.
      unfold ClusterOptions.assign_option, ClusterOptions.invalid.
      rewrite String.eqb_refl, Hkind. destruct (ms <? 0)%Z; reflexivity.
Qed.

Lemma cluster_durations_witness :
  ClusterOptions.apply_option "queryTimeout" (ZLong (-1)) []
  = Done (ClusterOptions.Return
            (invalid_argument 1844 "apply_options"
               "expected duration as a positive number for queryTimeout")
            []).
Proof.
  assert (Hin : In (ClusterOptions.invocation ClusterOptions.DURATION "queryTimeout"
                      "query_timeout" 1844) ClusterOptions.cluster_invocations)
    by (simpl; tauto).
  destruct (cluster_durations _ [] Hin) as [_ Hduration].
  destruct (Hduration eq_refl) as [_ Hms].
  apply (Hms (-1)).
Defined.

Section FailFast.

Import ClusterOptions.

Lemma validation_error_is_set (e : core_error_info) :
  validation_error e -> ec_set (ec e) = true.
Proof.
  intros [Hcode _]. rewrite Hcode. reflexivity.
Qed.

Lemma assign_option_return (a : assignment) (key : string) (value : zval)
  (options options' : cluster_options) (e : core_error_info) :
  assign_option a key value options = Return e options' -> validation_error e.
Proof.
  unfold assign_option, invalid.
  destruct (String.eqb key (option_name a)); [| discriminate].
  destruct (kind a), value; try discriminate;
    repeat match goal with
           | |- context [if ?b then _ else _] => destruct b
           end;
    try discriminate; intros Heq; injection Heq as <- _;
    apply invalid_argument_is_validation.
Qed.

Lemma assign_options_return (invocations : list assignment) (key : string)
  (value : zval) (options options' : cluster_options) (e : core_error_info) :
  assign_options invocations key value options = Return e options' ->
  validation_error e.
Proof.
  revert options. induction invocations as [| a rest IH]; intros options; simpl;
    [discriminate |].
  destruct (assign_option a key value options) eqn:Hstep.
  - apply IH.
  - discriminate.
  - intros Heq. injection Heq as <- <-. apply (assign_option_return _ _ _ _ _ _ Hstep).
Qed.

Variable body : string -> zval -> cluster_options -> outcome flow.
Hypothesis body_returns_errors :
  forall key value options e options',
    body key value options = Done (Return e options') -> validation_error e.

Lemma foreach_error_or_finished (entries : HashTable) (options : cluster_options)
  (e : core_error_info) (options' : cluster_options) :
  foreach_str_key_val body entries options = Done (e, options') ->
  validation_error e \/ e = no_error.
Proof.
  revert options. induction entries as [| [[h | key_] value] rest IH]; intros options;
    cbn [foreach_str_key_val].
  - intros Heq. injection Heq as <- <-. right. reflexivity.
  - discriminate.
  - destruct (body key_ value options) as [[o | o | err o] |] eqn:Hbody; cbn [obind];
      try discriminate; try apply IH.
    intros Heq. injection Heq as <- <-. left.
    apply (body_returns_errors _ _ _ _ _ Hbody).
Qed.

Lemma foreach_app (first rest : HashTable) (options : cluster_options) :
  foreach_str_key_val body (first ++ rest)%list options
  = match foreach_str_key_val body first options with
    | Done (e, options') =>
        if ec_set (ec e) then Done (e, options')
        else foreach_str_key_val body rest options'
    | Undefined => Undefined
    end.
Proof.
  revert options. induction first as [| [[h | key_] value] more IH]; intros options;
    cbn [foreach_str_key_val app].
  - reflexivity.
  - reflexivity.
  - destruct (body key_ value options) as [[o | o | err o] |] eqn:Hbody; cbn [obind];
      try reflexivity; try apply IH.
    rewrite (validation_error_is_set _ (body_returns_errors _ _ _ _ _ Hbody)).
    reflexivity.
Qed.

End FailFast.

Lemma apply_option_returns_errors (key : string) (value : zval)
  (options options' : ClusterOptions.cluster_options) (e : core_error_info) :
  ClusterOptions.apply_option key value options = Done (ClusterOptions.Return e options') ->
  validation_error e.
Proof.
  assert (Hnested : forall name_ line_ what invocations o,
             ClusterOptions.assign_nested name_ line_ what invocations key value o
             = Done (ClusterOptions.Return e options') -> validation_error e).
  { intros name_ line_ what invocations o. unfold ClusterOptions.assign_nested.
    destruct (String.eqb key name_); [| discriminate].
    destruct value; try discriminate;
      try (intros Heq; injection Heq as <- _; apply invalid_argument_is_validation).
    destruct (ClusterOptions.foreach_str_key_val
                (fun k v inner => Done (ClusterOptions.assign_options invocations k v inner))
                ht o) as [[err assigned] |] eqn:Hinner; cbn [obind]; [| discriminate].
    destruct (ec_set (ec err)) eqn:Hset; [| discriminate].
    intros Heq. injection Heq as <- _.
    apply foreach_error_or_finished in Hinner.
    - destruct Hinner as [Hvalid | ->]; [exact Hvalid | discriminate].
    - intros k v inner err' left_ Hbody. injection Hbody as Hbody.
      apply (assign_options_return _ _ _ _ _ _ Hbody). }
  unfold ClusterOptions.apply_option.
  destruct (ClusterOptions.assign_options ClusterOptions.cluster_invocations key value
              options) as [o | o | err o] eqn:Hfirst.
  - destruct (ClusterOptions.assign_tls_verify key value o) as [o1 | o1 | err o1] eqn:Htls.
    + destruct (ClusterOptions.assign_nested "thresholdLoggingTracerOptions" 1900
                  " as tracer options" ClusterOptions.tracer_invocations key value o1)
        as [[o2 | o2 | err o2] |] eqn:Htracer; cbn [obind]; try discriminate.
      * apply Hnested.
      * intros Heq. injection Heq as <- <-. apply (Hnested _ _ _ _ _ Htracer).
    + discriminate.
    + intros Heq. injection Heq as <- _. revert Htls.
      unfold ClusterOptions.assign_tls_verify.
      destruct (String.eqb key "tlsVerify"); [| discriminate].
      destruct value; try discriminate;
        try (intros Heq; injection Heq as <- _; apply invalid_argument_is_validation).
      destruct (String.eqb s "peer"); [discriminate |].
      destruct (String.eqb s "none"); [discriminate |].
      intros Heq. injection Heq as <- _. apply invalid_argument_is_validation.
  - discriminate.
  - intros Heq. injection Heq as <- _. apply (assign_options_return _ _ _ _ _ _ Hfirst).
Qed.

(** The error that [apply_options] returns is a validation error, or there
    is none. *)
Lemma apply_options_errors (connstr : ClusterOptions.cluster_options)
  (options : option zval) (e : core_error_info)
  (connstr' : ClusterOptions.cluster_options) :
  ClusterOptions.apply_options connstr options = Done (e, connstr') ->
  validation_error e \/ e = no_error.
Proof.
  unfold ClusterOptions.apply_options.
  destruct options as [[| | | | | | ht |] |];
    try (intros Heq; injection Heq as <- <-; left; apply invalid_argument_is_validation).
  apply foreach_error_or_finished. intros k v o err o'; apply apply_option_returns_errors.
Qed.

Lemma apply_option_tracer (inner : HashTable)
  (options : ClusterOptions.cluster_options) :
  ClusterOptions.apply_option "thresholdLoggingTracerOptions" (ZArray inner) options
  = match ClusterOptions.foreach_str_key_val
            (fun k v o =>
               Done (ClusterOptions.assign_options ClusterOptions.tracer_invocations k v o))
            inner options with
    | Done (e, assigned) =>
        Done (if ec_set (ec e) then ClusterOptions.Return e assigned
              else ClusterOptions.Next assigned)
    | Undefined => Undefined
    end.
Proof.
  unfold ClusterOptions.apply_option.
  replace (ClusterOptions.assign_options ClusterOptions.cluster_invocations
             "thresholdLoggingTracerOptions" (ZArray inner) options)
    with (ClusterOptions.Next options) by reflexivity.
  replace (ClusterOptions.assign_tls_verify "thresholdLoggingTracerOptions"
             (ZArray inner) options)
    with (ClusterOptions.Next options) by reflexivity.
  unfold ClusterOptions.assign_nested at 1.
  cbn [String.eqb Ascii.eqb Bool.eqb].
  destruct (ClusterOptions.foreach_str_key_val
              (fun k v o =>
                 Done (ClusterOptions.assign_options ClusterOptions.tracer_invocations
                         k v o)) inner options) as [[e assigned] |];
    cbn [obind]; [| reflexivity].
  destruct (ec_set (ec e)); reflexivity.
Qed.

(** [apply_options] works through the entries in their order and stops at
    the first one that fails: on a bag made of two parts it returns the error
    of the first part when there is one, without reading the second part, and
    otherwise goes on with the second part from the options that the first
    part produced.  The members are assigned in place: the options that are
    returned with an error hold what the entries before the failing one have
    assigned, and, when the failing entry is in the nested bag of the tracer
    options, what the inner entries before it have assigned. *)
Theorem apply_options_stops_at_first_error :
  forall (connstr : ClusterOptions.cluster_options) (first rest : HashTable),
    ClusterOptions.apply_options connstr (Some (ZArray (first ++ rest)%list))
    = match ClusterOptions.apply_options connstr (Some (ZArray first)) with
      | Done (e, connstr') =>
          if ec_set (ec e) then Done (e, connstr')
          else ClusterOptions.apply_options connstr' (Some (ZArray rest))
      | Undefined => Undefined
      end
    /\ (forall inner : HashTable,
           ClusterOptions.apply_options connstr
             (Some (ZArray ((KStr "thresholdLoggingTracerOptions", ZArray inner) :: rest)))
           = match ClusterOptions.foreach_str_key_val
                     (fun k v o =>
                        Done (ClusterOptions.assign_options
                                ClusterOptions.tracer_invocations k v o))
                     inner connstr with
             | Done (e, assigned) =>
                 if ec_set (ec e) then Done (e, assigned)
                 else ClusterOptions.apply_options assigned (Some (ZArray rest))
             | Undefined => Undefined
             end).
Proof.
  intros connstr first rest. split.
  - unfold ClusterOptions.apply_options.
    apply foreach_app. intros k v o err o'; apply apply_option_returns_errors.
  - intros inner. unfold ClusterOptions.apply_options.
    cbn [ClusterOptions.foreach_str_key_val]. rewrite apply_option_tracer.
    destruct (ClusterOptions.foreach_str_key_val
                (fun k v o =>
                   Done (ClusterOptions.assign_options ClusterOptions.tracer_invocations
                           k v o)) inner connstr) as [[e assigned] |];
      cbn [obind]; [| reflexivity].
    destruct (ec_set (ec e)); reflexivity.
Qed.

(** ** The probe and the teardown, continued *)

(** Whatever the engine answers, [cluster_version] adds to the calls that
    the engine has received one request for the description of the cluster,
    or that request and the opening of the named bucket, or these two and a
    second request; it never opens the cluster and never closes a bucket.
    Without a bucket name, or when the first response has another status
    than service-not-available, it makes the one request and answers from
    that response. *)
Theorem cluster_version_calls :
  forall (S : Type) (engine : probe.engine S) (bucket_ : string) (w : probe.world),
    let first := probe.on_cluster_describe engine (fst w) in
    let result := probe.cluster_version engine bucket_ w in
    (exists calls,
        snd (snd result) = (snd w ++ calls)%list
        /\ (calls = [probe.call_cluster_describe]
            \/ calls = [probe.call_cluster_describe; probe.call_open_bucket bucket_]
            \/ calls = [probe.call_cluster_describe; probe.call_open_bucket bucket_;
                        probe.call_cluster_describe]))
    /\ (bucket_ = ""
        \/ probe.describe_ec (fst first) <> common_errc_service_not_available ->
        result
        = (probe.version_of (fst first),
           (snd first, (snd w ++ [probe.call_cluster_describe])%list))).
Proof.
  intros S engine bucket_ w first result. unfold result.
  rewrite cluster_version_unfold.
  unfold probe.cluster_describe, probe.submit. fold first.
  destruct first as [resp s1]. cbn [fst snd].
  destruct (probe.needs_bucket resp bucket_) eqn:Hneeds.
  - split.
    + unfold probe.bucket_open, probe.submit. cbn [fst snd].
      destruct (probe.on_open_bucket engine bucket_ s1) as [code s2].
      unfold probe.error_at.
      destruct (ec_set code) eqn:Hcode; cbn [ec]; [rewrite Hcode |].
      * eexists. split; [cbn [fst snd]; rewrite <- app_assoc; reflexivity |].
        right. left. reflexivity.
      * replace (ec_set (ec no_error)) with false by reflexivity.
        rewrite cluster_version_without_bucket.
        unfold probe.cluster_describe, probe.submit. cbn [fst snd].
        destruct (probe.on_cluster_describe engine s2) as [resp2 s3].
        eexists. split; [cbn [fst snd]; rewrite <- !app_assoc; reflexivity |].
        right. right. reflexivity.
    + unfold probe.needs_bucket in Hneeds. apply andb_true_iff in Hneeds.
      destruct Hneeds as [Hstatus Hname]. intros [-> | Hother].
      * discriminate.
      * apply error_code_eqb_eq in Hstatus. contradiction.
  - split; [| reflexivity].
    exists [probe.call_cluster_describe]. split; [reflexivity | left; reflexivity].
Qed.

Lemma cluster_version_calls_witness :
  probe.cluster_version Fixtures.needs_a_bucket "" (O, [probe.call_open])
  = (probe.version_of (fst (probe.on_cluster_describe Fixtures.needs_a_bucket O)),
     (snd (probe.on_cluster_describe Fixtures.needs_a_bucket O),
      [probe.call_open; probe.call_cluster_describe])).
Proof.
  apply (proj2 (cluster_version_calls nat Fixtures.needs_a_bucket "" (O, [probe.call_open]))).
  left. reflexivity.
Defined.

(** The teardown of a connection and the owners of its implementation.
    The destructor starts only when the handle has given up the
    implementation and the function of the worker has returned, so that no
    thread runs the event loop during the teardown.  When the handle is
    given up first, the destructor runs on the thread of the worker: the
    worker is then never joined and the handle never released.  With an
    engine that does not complete an unattended close the teardown shows no
    more than the request of the close.  At the end of the destructor no
    step is left, the cluster is released and no close is pending; with a
    cluster the promise has its value, the worker has been joined from
    another thread, and the engine is one that completes an unattended
    close. *)
Theorem teardown_after_the_last_owner :
  forall (engine handle : bool) (trace : list teardown.event) (s : teardown.state),
    teardown.execution (teardown.owned engine handle true) trace s ->
    (teardown.point s <> teardown.not_entered ->
     teardown.handle_held s = false /\ teardown.worker_running s = false)
    /\ (teardown.on_worker s = true ->
        ~ In teardown.worker_joined trace /\ ~ In teardown.handle_released trace)
    /\ (engine = false -> trace = [] \/ trace = [teardown.close_requested])
    /\ (teardown.point s = teardown.at_exit ->
        (forall label s', ~ teardown.step s label s')
        /\ teardown.cluster_ s = false
        /\ teardown.close_pending s = false
        /\ (handle = true ->
            teardown.barrier s = true /\ teardown.worker_joinable s = false
            /\ teardown.on_worker s = false /\ engine = true)).
Proof.
  intros engine handle trace s Hrun.
  apply teardown_invariant_holds in Hrun. destruct Hrun as [Hengine Hinv].
  assert (Hnone : forall e : teardown.event, ~ In e []) by (intros e []).
  assert (Hone : forall e, e <> teardown.close_requested ->
                           ~ In e [teardown.close_requested]).
  { intros e He [Heq | []]. congruence. }
  repeat match goal with |- _ /\ _ => split end.
  - intros Hpoint. destruct (teardown.point s); try contradiction; split; apply Hinv.
  - intros Hworker. destruct (teardown.point s).
    + destruct Hinv as (-> & _). split; apply Hnone.
    + destruct Hinv as (-> & _). split; apply Hnone.
    + destruct Hinv as (_ & _ & _ & _ & _ & [(_ & _ & ->) | (_ & _ & _ & ->)]);
        split; intros Hin; cbn in Hin; intuition discriminate.
    + destruct Hinv as (_ & _ & _ & _ & _ & _ & _ & _ & ->).
      split; intros Hin; cbn in Hin; intuition discriminate.
    + destruct Hinv as (_ & _ & _ & _ & _ & Hhost & _). congruence.
    + destruct Hinv as (_ & _ & _ & _ & [(_ & _ & Hhost & _) | (_ & ->)]);
        [congruence | split; apply Hnone].
  - intros Hnever. destruct (teardown.point s).
    + left. apply Hinv.
    + left. apply Hinv.
    + destruct Hinv as (_ & _ & _ & _ & _ & [(_ & _ & ->) | (_ & _ & Hcompletes & _)]);
        [right; reflexivity | congruence].
    + destruct Hinv as (_ & _ & _ & _ & _ & _ & _ & Hcompletes & _). congruence.
    + destruct Hinv as (_ & _ & _ & _ & _ & _ & _ & _ & Hcompletes & _). congruence.
    + destruct Hinv as (_ & _ & _ & _ & [(_ & _ & _ & _ & Hcompletes & _) | (_ & ->)]);
        [congruence | left; reflexivity].
  - intros Hexit. rewrite Hexit in Hinv.
    destruct Hinv as (Hcluster & _ & _ & Hpending & Hend).
    split; [| split; [exact Hcluster | split; [exact Hpending |]]].
    + intros label s' Hstep. destruct Hstep; congruence.
    + intros Hhandle.
      destruct Hend as [(_ & Hjoin & Hhost & Hbar & Hcompletes & _) | (Hnot & _)];
        [| congruence].
      repeat match goal with |- _ /\ _ => split end; assumption.
Qed.

Lemma teardown_after_the_last_owner_witness :
  exists s,
    teardown.execution (teardown.owned true true true) [] s
    /\ teardown.on_worker s = true
    /\ teardown.point s = teardown.at_entry
    /\ teardown.worker_running s = false.
Proof.
  pose (s0 := teardown.owned true true true).
  pose (s1 := teardown.release_handle s0).
  pose (s2 := teardown.enter true (teardown.return_worker s1)).
  assert (H1 : teardown.execution s0 [] s1).
  { apply (execution_silent s0 s0 s1 [] (teardown.execution_refl s0)).
    apply (teardown.drop_handle_first s0); reflexivity. }
  assert (H2 : teardown.execution s0 [] s2).
  { apply (execution_silent s0 s1 s2 [] H1).
    apply (teardown.worker_returns_last s1); reflexivity. }
  exists s2. split; [exact H2 | split; [reflexivity | split; [reflexivity |]]].
  destruct (teardown_after_the_last_owner true true [] s2 H2) as (Howners & _).
  apply Howners. discriminate.
Defined.

(** ** Credentials *)

Lemma c_str_prefix (s : string) : exists rest, s = c_str s ++ rest.
Proof.
  induction s as [| c s IH]; cbn [c_str].
  - exists "". reflexivity.
  - destruct (Ascii.eqb c Ascii.zero).
    + exists (String c s). reflexivity.
    + destruct IH as [rest IH]. exists rest. cbn. rewrite <- IH. reflexivity.
Qed.

Lemma c_str_nul_free (s : string) : nul_free (c_str s).
Proof.
  unfold nul_free. induction s as [| c s IH]; cbn [c_str].
  - intros [].
  - destruct (Ascii.eqb_spec c Ascii.zero) as [-> | Hc].
    + intros [].
    + cbn. intros [Hzero | Hin]; [congruence | exact (IH Hin)].
Qed.

Lemma c_str_of_nul_free (s : string) : nul_free s -> c_str s = s.
Proof.
  unfold nul_free. induction s as [| c s IH]; cbn [c_str]; [reflexivity |].
  cbn. intros Hfree. destruct (Ascii.eqb_spec c Ascii.zero) as [-> | Hc].
  - exfalso. apply Hfree. left. reflexivity.
  - rewrite IH; [reflexivity |]. intros Hin. apply Hfree. right. exact Hin.
Qed.

Lemma sasl_mechanisms_strings (items : list zval) (mechanisms : list string) :
  Connection.sasl_mechanisms items mechanisms = (mechanisms ++ strings_of items)%list.
Proof.
  revert mechanisms. unfold strings_of.
  induction items as [| item rest IH]; intros mechanisms; cbn [Connection.sasl_mechanisms flat_map].
  - rewrite app_nil_r. reflexivity.
  - destruct item; rewrite IH; cbn [app]; try reflexivity.
    rewrite <- app_assoc. reflexivity.
Qed.

Lemma strings_of_in (items : list zval) (s : string) :
  In s (strings_of items) <-> In (ZString s) items.
Proof.
  unfold strings_of. rewrite in_flat_map. split.
  - intros (v & Hin & Hs). destruct v; cbn in Hs; try contradiction.
    destruct Hs as [-> | []]. exact Hin.
  - intros Hin. exists (ZString s). split; [exact Hin | left; reflexivity].
Qed.

Lemma string_at_find (ht : HashTable) (k s : string) :
  string_at ht k = Some s -> zend_symtable_str_find ht k = Some (ZString s).
Proof.
  unfold string_at. destruct (zend_symtable_str_find ht k) as [[] |]; try discriminate.
  intros Heq. injection Heq as ->. reflexivity.
Qed.

Lemma find_string_at (ht : HashTable) (k s : string) :
  zend_symtable_str_find ht k = Some (ZString s) -> string_at ht k = Some s.
Proof.
  unfold string_at. intros ->. reflexivity.
Qed.

Lemma credentials_errors (credentials : Connection.cluster_credentials)
  (options : option zval) :
  ec_set (ec (fst (Connection.extract_credentials credentials options))) = true ->
  validation_error (fst (Connection.extract_credentials credentials options)).
Proof.
  unfold Connection.extract_credentials.
  repeat match goal with
         | |- context [match ?x with _ => _ end] => destruct x
         end;
    cbn [fst]; first [discriminate | intros _; apply invalid_argument_is_validation].
Qed.

(** An error of [extract_credentials] is a validation error raised in this
    function, and leaves the certificate and the mechanisms as they were.
    When there is no error the bag is an array whose "authenticator" is an
    array of the type "password" or "certificate": the first gives the user
    name and the password and leaves the certificate, the second gives the
    two paths and leaves the rest.  The four strings are taken up to their
    first NUL. *)
Theorem credentials_come_from_the_authenticator :
  forall (credentials : Connection.cluster_credentials) (options : option zval),
    let e := fst (Connection.extract_credentials credentials options) in
    let assigned := snd (Connection.extract_credentials credentials options) in
    (ec_set (ec e) = true ->
     validation_error e /\ snd (location e) = "extract_credentials"
     /\ Connection.certificate_path assigned = Connection.certificate_path credentials
     /\ Connection.key_path assigned = Connection.key_path credentials
     /\ Connection.allowed_sasl_mechanisms assigned
        = Connection.allowed_sasl_mechanisms credentials)
    /\ (ec_set (ec e) = false ->
        e = no_error
        /\ exists ht auth,
            options = Some (ZArray ht)
            /\ zend_symtable_str_find ht "authenticator" = Some (ZArray auth)
            /\ ((string_at auth "type" = Some "password"
                 /\ (exists user secret,
                        string_at auth "username" = Some user
                        /\ string_at auth "password" = Some secret
                        /\ Connection.username assigned = c_str user
                        /\ Connection.password assigned = c_str secret)
                 /\ Connection.certificate_path assigned
                    = Connection.certificate_path credentials
                 /\ Connection.key_path assigned = Connection.key_path credentials)
                \/ (string_at auth "type" = Some "certificate"
                    /\ (exists certificate secret_key,
                           string_at auth "certificatePath" = Some certificate
                           /\ string_at auth "keyPath" = Some secret_key
                           /\ Connection.certificate_path assigned = c_str certificate
                           /\ Connection.key_path assigned = c_str secret_key)
                    /\ Connection.username assigned = Connection.username credentials
                    /\ Connection.password assigned = Connection.password credentials
                    /\ Connection.allowed_sasl_mechanisms assigned
                       = Connection.allowed_sasl_mechanisms credentials))).
Proof.
  intros credentials options. cbv zeta.
  unfold Connection.extract_credentials.
  destruct options as [[| | | | | | ht |] |];
    try (split; [intros _; repeat split | discriminate]).
  destruct (zend_symtable_str_find ht "authenticator") as [[| | | | | | auth |] |] eqn:Hauth;
    try (split; [intros _; repeat split | discriminate]).
  destruct (zend_symtable_str_find auth "type") as [[| | | | | auth_type | |] |] eqn:Htype;
    try (split; [intros _; repeat split | discriminate]).
  apply find_string_at in Htype.
  destruct (String.eqb_spec auth_type "password") as [-> | Hpassword].
  - destruct (zend_symtable_str_find auth "username") as [[| | | | | user | |] |] eqn:Huser;
      try (split; [intros _; repeat split | discriminate]).
    destruct (zend_symtable_str_find auth "password") as [[| | | | | secret | |] |]
      eqn:Hsecret;
      try (split; [intros _; repeat split | discriminate]).
    apply find_string_at in Huser, Hsecret.
    destruct (zend_symtable_str_find auth "allowedSaslMechanisms")
      as [[| | | | | | mechanisms |] |];
      cbn [fst snd];
      first [ split; [intros _; repeat split | discriminate]
            | split; [discriminate |]; intros _; split; [reflexivity |];
              exists ht, auth; split; [reflexivity | split; [exact Hauth |]];
              left; split; [exact Htype |];
              split; [exists user, secret; repeat split; assumption
                     | split; reflexivity] ].
  - destruct (String.eqb_spec auth_type "certificate") as [-> | Hcertificate].
    + destruct (zend_symtable_str_find auth "certificatePath")
        as [[| | | | | certificate | |] |] eqn:Hpath;
        try (split; [intros _; repeat split | discriminate]).
      destruct (zend_symtable_str_find auth "keyPath") as [[| | | | | secret_key | |] |]
        eqn:Hkey;
        try (split; [intros _; repeat split | discriminate]).
      apply find_string_at in Hpath, Hkey.
      split; [discriminate |]. intros _. split; [reflexivity |].
      exists ht, auth. split; [reflexivity | split; [exact Hauth |]].
      right. split; [exact Htype | split; [| repeat split]].
      exists certificate, secret_key. repeat split; assumption.
    + split; [intros _; repeat split | discriminate].
Qed.

Lemma credentials_come_from_the_authenticator_witness :
  fst (Connection.extract_credentials no_credentials
         (password_bag "Administrator" "password" ZNull)) = no_error.
Proof.
  apply (proj1 (proj2 (credentials_come_from_the_authenticator no_credentials
                         (password_bag "Administrator" "password" ZNull)) eq_refl)).
Defined.

(** The mechanisms of a password authenticator.  Without the key
    "allowedSaslMechanisms", or with the null value, the mechanisms stay.
    With an array they are replaced by the strings among its values, in
    their order and with their full length: a value that is not a string is
    passed over without an error, so that an array without a string leaves
    no mechanism.  With any other value the call fails, after the user name
    and the password have been assigned. *)
Theorem sasl_mechanisms_keep_only_strings :
  forall (credentials : Connection.cluster_credentials) (ht auth : HashTable)
         (user secret : string),
    zend_symtable_str_find ht "authenticator" = Some (ZArray auth) ->
    string_at auth "type" = Some "password" ->
    string_at auth "username" = Some user ->
    string_at auth "password" = Some secret ->
    let found := zend_symtable_str_find auth "allowedSaslMechanisms" in
    let e := fst (Connection.extract_credentials credentials (Some (ZArray ht))) in
    let assigned := snd (Connection.extract_credentials credentials (Some (ZArray ht))) in
    (found = None \/ found = Some ZNull ->
     e = no_error
     /\ Connection.allowed_sasl_mechanisms assigned
        = Connection.allowed_sasl_mechanisms credentials)
    /\ (forall mechanisms,
           found = Some (ZArray mechanisms) ->
           e = no_error
           /\ Connection.allowed_sasl_mechanisms assigned
              = strings_of (hash_values mechanisms)
           /\ (forall mech,
                  In mech (Connection.allowed_sasl_mechanisms assigned)
                  <-> In (ZString mech) (hash_values mechanisms))
           /\ (forallb (fun v => negb (is_string v)) (hash_values mechanisms) = true ->
               Connection.allowed_sasl_mechanisms assigned = []))
    /\ (forall v,
           found = Some v -> scalar v ->
           e = invalid_argument 1991 "extract_credentials"
                 "expected allowedSaslMechanisms to be an array in the authenticator"
           /\ Connection.username assigned = c_str user
           /\ Connection.password assigned = c_str secret).
Proof.
  intros credentials ht auth user secret Hauth Htype Huser Hsecret found e assigned.
  apply string_at_find in Htype, Huser, Hsecret.
  unfold e, assigned, found, Connection.extract_credentials.
  rewrite Hauth, Htype, Huser, Hsecret. cbn [String.eqb Ascii.eqb Bool.eqb].
  split; [| split].
  - intros [-> | ->]; split; reflexivity.
  - intros mechanisms ->. cbn [fst snd Connection.allowed_sasl_mechanisms].
    rewrite sasl_mechanisms_strings. cbn [app].
    split; [reflexivity | split; [reflexivity | split]].
    + intros mech. apply strings_of_in.
    + intros Hnone. unfold strings_of.
      induction (hash_values mechanisms) as [| v rest IH]; [reflexivity |].
      cbn [forallb] in Hnone. apply andb_true_iff in Hnone.
      destruct Hnone as [Hv Hrest]. cbn [flat_map].
      rewrite (IH Hrest). destruct v; try reflexivity. discriminate.
  - intros v -> Hscalar. bag_cases Hscalar; repeat split.
Qed.

Lemma sasl_mechanisms_keep_only_strings_witness :
  Connection.allowed_sasl_mechanisms
    (snd (Connection.extract_credentials no_credentials
            (password_bag "Administrator" "password"
               (ZArray [(KIdx 0, ZString "SCRAM-SHA256"); (KIdx 1, ZLong 7);
                        (KIdx 2, ZString "PLAIN")]))))
  = ["SCRAM-SHA256"; "PLAIN"].
Proof.
  destruct (sasl_mechanisms_keep_only_strings no_credentials
              [(KStr "authenticator",
                ZArray [(KStr "type", ZString "password");
                        (KStr "username", ZString "Administrator");
                        (KStr "password", ZString "password");
                        (KStr "allowedSaslMechanisms",
                         ZArray [(KIdx 0, ZString "SCRAM-SHA256"); (KIdx 1, ZLong 7);
                                 (KIdx 2, ZString "PLAIN")])]);
               (KStr "kvTimeout", ZLong 2500)]
              _ "Administrator" "password" eq_refl eq_refl eq_refl eq_refl)
    as (_ & Harray & _).
  destruct (Harray _ eq_refl) as (_ & Hmechanisms & _).
  exact Hmechanisms.
Defined.

(** ** The creation of a connection *)

Section Creation.

Context {Parsed : Type}
  (parse_connection_string : string -> Connection.connection_string Parsed)
  (default_credentials : Connection.cluster_credentials).

Let create := Connection.create_connection_handle parse_connection_string
                default_credentials.

Lemma create_connection_handle_cases (connection_string_ : string) (options : option zval)
  (idle_expiry : Z) :
  let connstr := parse_connection_string connection_string_ in
  let applied := ClusterOptions.apply_options (Connection.options connstr) options in
  let extracted := Connection.extract_credentials default_credentials options in
  create connection_string_ options idle_expiry
  = match Connection.error connstr with
    | Some reason =>
        Done (None,
              {| ec := common_errc_parsing_failure;
                 location := (2033%nat, "create_connection_handle");
                 message := reason;
                 error_context := no_error_context |})
    | None =>
        match applied with
        | Undefined => Undefined
        | Done (e, assigned) =>
            if ec_set (ec e) then Done (None, e)
            else if ec_set (ec (fst extracted)) then Done (None, fst extracted)
            else
              Done (Some (Connection.make_connection_handle
                            {| Connection.credentials := snd extracted;
                               Connection.connstr :=
                                 {| Connection.parsed := Connection.parsed connstr;
                                    Connection.error := Connection.error connstr;
                                    Connection.options := assigned |} |}
                            idle_expiry),
                    no_error)
        end
    end.
Proof.
  cbv zeta. unfold create, Connection.create_connection_handle.
  destruct (Connection.error (parse_connection_string connection_string_));
    [reflexivity |].
  destruct (ClusterOptions.apply_options
              (Connection.options (parse_connection_string connection_string_)) options)
    as [[e assigned] |]; cbn [obind]; [| reflexivity].
  destruct (ec_set (ec e)); [reflexivity |].
  destruct (Connection.extract_credentials default_credentials options) as [e' c].
  reflexivity.
Qed.

End Creation.

(** [create_connection_handle] returns a handle or an error, never both and
    never neither.  A connection string that does not parse gives the code
    parsing-failure with the reason of the parser, whatever the bag holds;
    after that every error is a validation error, the errors of the cluster
    options before those of the authenticator.  A bag that is not an array
    is rejected by [apply_options]: the test of the bag in
    [extract_credentials] never decides. *)
Theorem create_connection_handle_errors :
  forall (Parsed : Type)
         (parse_connection_string : string -> Connection.connection_string Parsed)
         (default_credentials : Connection.cluster_credentials)
         (connection_string_ : string) (options : option zval) (idle_expiry : Z),
    let created :=
      Connection.create_connection_handle parse_connection_string default_credentials
        connection_string_ options idle_expiry in
    let connstr := parse_connection_string connection_string_ in
    (forall handle e,
        created = Done (handle, e) ->
        (handle = None <-> ec_set (ec e) = true)
        /\ (handle <> None -> e = no_error)
        /\ (ec_set (ec e) = true ->
            Connection.error connstr = None -> validation_error e))
    /\ (forall reason,
           Connection.error connstr = Some reason ->
           exists e,
             created = Done (None, e)
             /\ ec e = common_errc_parsing_failure /\ message e = reason)
    /\ (Connection.error connstr = None ->
        (forall ht, options <> Some (ZArray ht)) ->
        created
        = Done (None,
                invalid_argument 1829 "apply_options" "expected array for cluster options"))
    /\ (Connection.error connstr = None ->
        forall e assigned,
          ClusterOptions.apply_options (Connection.options connstr) options
          = Done (e, assigned) ->
          ec_set (ec e) = true -> created = Done (None, e)).
Proof.
  intros Parsed parse_connection_string default_credentials connection_string_ options
    idle_expiry created connstr.
  pose proof (create_connection_handle_cases parse_connection_string default_credentials
                connection_string_ options idle_expiry) as Hcases.
  cbv zeta in Hcases. fold created connstr in Hcases.
  split; [| split; [| split]].
  - intros handle e. rewrite Hcases.
    destruct (Connection.error connstr) as [reason |].
    + intros Heq. injection Heq as <- <-.
      split; [split; reflexivity | split; [congruence | discriminate]].
    + destruct (ClusterOptions.apply_options (Connection.options connstr) options)
        as [[e' assigned] |] eqn:Happlied; [| discriminate].
      apply apply_options_errors in Happlied.
      destruct (ec_set (ec e')) eqn:Hset.
      * intros Heq. injection Heq as <- <-.
        split; [split; [intros _; exact Hset | reflexivity] |].
        split; [congruence |]. intros _ _.
        destruct Happlied as [Hvalid | ->]; [exact Hvalid | discriminate].
      * pose proof (credentials_errors default_credentials options) as Hcredentials.
        destruct (ec_set (ec (fst (Connection.extract_credentials default_credentials
                                     options)))) eqn:Hset'.
        -- intros Heq. injection Heq as <- <-.
           split; [split; [intros _; exact Hset' | reflexivity] |].
           split; [congruence |]. intros _ _. apply Hcredentials. reflexivity.
        -- intros Heq. injection Heq as <- <-.
           split; [split; [discriminate | discriminate] |].
           split; [reflexivity | discriminate].
  - intros reason Hreason. rewrite Hcases, Hreason.
    eexists. split; [reflexivity | split; reflexivity].
  - intros Hparsed Hbag. rewrite Hcases, Hparsed.
    unfold ClusterOptions.apply_options.
    destruct options as [[| | | | | | ht |] |]; try reflexivity.
    exfalso. apply (Hbag ht). reflexivity.
  - intros Hparsed e assigned Happlied Hset.
    rewrite Hcases, Hparsed, Happlied, Hset. reflexivity.
Qed.

Lemma create_connection_handle_errors_witness :
  Connection.create_connection_handle parse_non_empty no_credentials
    "couchbase://127.0.0.1" (Some (ZLong 1)) 0
  = Done (None,
          invalid_argument 1829 "apply_options" "expected array for cluster options").
Proof.
  destruct (create_connection_handle_errors string parse_non_empty no_credentials
              "couchbase://127.0.0.1" (Some (ZLong 1)) 0) as (_ & _ & Hbag & _).
  apply Hbag; [reflexivity | discriminate].
Defined.

(** A handle that [create_connection_handle] returns holds a cluster and a
    started worker, the expiry it was given, the credentials of the
    authenticator and the options of the parser as [apply_options] changed
    them; the rest of the parsed connection string is kept.  A teardown of
    it that reaches its end has therefore shown the close, the wait, the
    join and the release, whatever the engine is. *)
Theorem created_handle_is_started :
  forall (Parsed : Type)
         (parse_connection_string : string -> Connection.connection_string Parsed)
         (default_credentials : Connection.cluster_credentials)
         (connection_string_ : string) (options : option zval) (idle_expiry : Z)
         (handle : Connection.connection_handle Parsed) (e : core_error_info),
    Connection.create_connection_handle parse_connection_string default_credentials
      connection_string_ options idle_expiry = Done (Some handle, e) ->
    let connstr := parse_connection_string connection_string_ in
    let self := Connection.impl_ handle in
    Connection.cluster_ self = true
    /\ Connection.worker self = true
    /\ Connection.idle_expiry_ handle = idle_expiry
    /\ Connection.credentials (Connection.origin_ self)
       = snd (Connection.extract_credentials default_credentials options)
    /\ ClusterOptions.apply_options (Connection.options connstr) options
       = Done (no_error, Connection.options (Connection.connstr (Connection.origin_ self)))
    /\ Connection.parsed (Connection.connstr (Connection.origin_ self))
       = Connection.parsed connstr
    /\ (forall engine trace s,
           teardown.execution (Connection.teardown_entry engine self) trace s ->
           teardown.point s = teardown.at_exit ->
           trace = [teardown.close_requested; teardown.close_completed;
                    teardown.wait_returned; teardown.worker_joined;
                    teardown.handle_released]).
Proof.
  intros Parsed parse_connection_string default_credentials connection_string_ options
    idle_expiry handle e Hcreated connstr self.
  rewrite create_connection_handle_cases in Hcreated. cbv zeta in Hcreated.
  fold connstr in Hcreated.
  destruct (Connection.error connstr) as [reason |]; [discriminate |].
  destruct (ClusterOptions.apply_options (Connection.options connstr) options)
    as [[e' assigned] |] eqn:Happlied; [| discriminate].
  destruct (ec_set (ec e')) eqn:Hset; [discriminate |].
  destruct (ec_set (ec (fst (Connection.extract_credentials default_credentials options))));
    [discriminate |].
  injection Hcreated as <- <-. unfold self. cbn.
  repeat match goal with |- _ /\ _ => split end; try reflexivity.
  - apply apply_options_errors in Happlied as Herror.
    destruct Herror as [Hvalid | ->]; [| reflexivity].
    apply validation_error_is_set in Hvalid. congruence.
  - intros engine trace s Hrun Hexit.
    apply teardown_invariant_holds in Hrun. destruct Hrun as [_ Hinv].
    rewrite Hexit in Hinv.
    destruct Hinv as (_ & _ & _ & _ & [(_ & _ & _ & _ & _ & ->) | (Hnone & _)]);
      [reflexivity | discriminate].
Qed.

Lemma created_handle_is_started_witness :
  exists handle,
    Connection.create_connection_handle parse_non_empty no_credentials
      "couchbase://127.0.0.1" (password_bag "Administrator" "password" ZNull) 0
    = Done (Some handle, no_error)
    /\ Connection.worker (Connection.impl_ handle) = true.
Proof.
  eexists. split; [vm_compute; reflexivity |].
  apply (created_handle_is_started string parse_non_empty no_credentials
           "couchbase://127.0.0.1" (password_bag "Administrator" "password" ZNull) 0
           _ no_error eq_refl).
Defined.

(** ** The output arrays *)

Lemma next_free_element_app (first rest : HashTable) :
  next_free_element (first ++ rest)%list
  = Z.max (next_free_element first) (next_free_element rest).
Proof.
  induction first as [| [[h | k] v] more IH]; cbn [next_free_element app].
  - assert (Hnonneg : forall ht, 0 <= next_free_element ht).
    { clear. induction ht as [| [[h | k] v] more IH]; cbn [next_free_element]; lia. }
    specialize (Hnonneg rest). lia.
  - rewrite IH. lia.
  - exact IH.
Qed.

Lemma indices_succ (n : nat) : indices (S n) = (indices n ++ [KIdx (Z.of_nat n)])%list.
Proof.
  unfold indices. rewrite seq_S, map_app. reflexivity.
Qed.

(** The loop that appends one entry for each item keeps the items in their
    order, under the indices from zero. *)
Lemma append_all_entries {A : Type} (entry : A -> zval) (items : list A) :
  map fst (Output.append_all entry items) = indices (List.length items)
  /\ hash_values (Output.append_all entry items) = map entry items.
Proof.
  unfold Output.append_all.
  assert (Hloop : forall array,
             next_free_element array = Z.of_nat (List.length array) ->
             map fst array = indices (List.length array) ->
             let filled :=
               fold_left (fun array item => add_next_index array (entry item)) items array in
             map fst filled = indices (List.length array + List.length items)
             /\ hash_values filled = (hash_values array ++ map entry items)%list).
  { induction items as [| item rest IH]; intros array Hnext Hkeys; cbn [fold_left].
    - cbn. rewrite Nat.add_0_r, app_nil_r. split; [exact Hkeys | reflexivity].
    - destruct (IH (add_next_index array (entry item))) as [Hfilled Hvalues].
      + unfold add_next_index. rewrite next_free_element_app, length_app.
        cbn [next_free_element List.length]. rewrite Hnext. lia.
      + unfold add_next_index. rewrite map_app, length_app, Hkeys, Hnext.
        cbn [map fst List.length]. rewrite Nat.add_1_r, indices_succ. reflexivity.
      + cbv zeta. rewrite Hfilled, Hvalues. unfold add_next_index, hash_values.
        rewrite length_app, map_app. cbn [List.length map snd].
        rewrite <- app_assoc. cbn [app].
        split; [f_equal; lia | reflexivity]. }
  destruct (Hloop [] eq_refl eq_refl) as [Hkeys Hvalues].
  split; [exact Hkeys | exact Hvalues].
Qed.

Lemma query_retval_members (resp : Output.query_response) :
  exists meta,
    member_of (Output.query_retval resp) "rows"
    = Some (ZArray (Output.append_all (fun row => ZString (c_str row))
                      (Output.query_rows resp)))
    /\ member_of (Output.query_retval resp) "errors"
       = option_map (fun errors =>
                       ZArray (Output.append_all Output.query_problem_to_zval errors))
           (Output.query_errors (Output.query_meta resp))
    /\ member_of (Output.query_retval resp) "warnings"
       = option_map (fun warnings =>
                       ZArray (Output.append_all Output.query_problem_to_zval warnings))
           (Output.query_warnings (Output.query_meta resp))
    /\ member_of (Output.query_retval resp) "meta" = Some (ZArray meta)
    /\ zend_symtable_str_find meta "errors" = None
    /\ zend_symtable_str_find meta "warnings" = None.
Proof.
  unfold Output.query_retval.
  destruct (Output.query_meta resp) as [id_ request_ status_ profile_ signature_ metrics_
                                          errors_ warnings_].
  cbn [Output.query_client_context_id Output.query_request_id Output.query_status
       Output.query_profile Output.query_signature Output.query_metrics_
       Output.query_errors Output.query_warnings].
  destruct profile_, signature_, metrics_, errors_, warnings_;
    eexists; repeat match goal with |- _ /\ _ => split end; reflexivity.
Qed.

(** The rows of the output.  When [query] returns an array, its "rows" are
    the rows with which the engine answered the decoded request, in their
    order and under the indices from zero, each cut at its first NUL.  The
    rows of [analytics_query] are copied with their length, so that a row
    with a NUL is kept whole there. *)
Theorem output_rows_follow_the_response :
  forall (Payload : Type) (cluster_ : cluster Payload) (statement : string)
         (options : option zval) (v : zval),
    (forall to_response,
        Output.query to_response cluster_ statement options = Ok v ->
        exists request rows,
          connection_handle.query_request_of_options statement options = Ok request
          /\ member_of v "rows" = Some (ZArray rows)
          /\ map fst rows
             = indices (List.length
                          (Output.query_rows
                             (to_response (response_payload
                                             (execute_query cluster_ request)))))
          /\ hash_values rows
             = map (fun row => ZString (c_str row))
                 (Output.query_rows
                    (to_response (response_payload (execute_query cluster_ request)))))
    /\ (forall to_response,
           Output.analytics_query to_response cluster_ statement options = Ok v ->
           exists request rows,
             connection_handle.analytics_request_of_options statement options = Ok request
             /\ member_of v "rows" = Some (ZArray rows)
             /\ map fst rows
                = indices (List.length
                             (Output.analytics_rows
                                (to_response (response_payload
                                                (execute_analytics cluster_ request)))))
             /\ hash_values rows
                = map ZString
                    (Output.analytics_rows
                       (to_response (response_payload
                                       (execute_analytics cluster_ request))))).
Proof.
  intros Payload cluster_ statement options v. split.
  - intros to_response. unfold Output.query, connection_handle.query.
    destruct (connection_handle.query_request_of_options statement options)
      as [request | |]; cbn [rbind]; try discriminate.
    unfold impl.query, impl.service_execute.
    destruct (ec_set (svc_ec (response_ctx (execute_query cluster_ request))));
      cbn [rbind]; [discriminate |].
    intros Heq. injection Heq as <-.
    destruct (query_retval_members
                (to_response (response_payload (execute_query cluster_ request))))
      as (meta & Hrows & _).
    destruct (append_all_entries (fun row => ZString (c_str row))
                (Output.query_rows
                   (to_response (response_payload (execute_query cluster_ request)))))
      as [Hkeys Hvalues].
    eexists. eexists. split; [reflexivity |].
    split; [exact Hrows | split; [exact Hkeys | exact Hvalues]].
  - intros to_response. unfold Output.analytics_query, connection_handle.analytics_query.
    destruct (connection_handle.analytics_request_of_options statement options)
      as [request | |]; cbn [rbind]; try discriminate.
    unfold impl.analytics_query, impl.service_execute.
    destruct (ec_set (svc_ec (response_ctx (execute_analytics cluster_ request))));
      cbn [rbind]; [discriminate |].
    intros Heq. injection Heq as <-.
    destruct (append_all_entries ZString
                (Output.analytics_rows
                   (to_response (response_payload (execute_analytics cluster_ request)))))
      as [Hkeys Hvalues].
    eexists. eexists. split; [reflexivity |].
    split; [reflexivity | split; [exact Hkeys | exact Hvalues]].
Qed.

Lemma output_rows_follow_the_response_witness :
  exists rows,
    member_of (Output.query_retval sample_query_response) "rows" = Some (ZArray rows)
    /\ hash_values rows = [ZString "{}"; ZString "a"].
Proof.
  destruct (proj1 (output_rows_follow_the_response unit
                     (Fixtures.replying Fixtures.kv_ok Fixtures.travel_token ec_success)
                     "SELECT 1" (Some (ZArray [])) (Output.query_retval sample_query_response))
              (fun _ => sample_query_response) eq_refl)
    as (request & rows & _ & Hrows & _ & Hvalues).
  exists rows. split; [exact Hrows | exact Hvalues].
Defined.

Lemma query_problem_members (p : Output.query_problem) :
  member_of (Output.query_problem_to_zval p) "code"
  = Some (ZString (c_str (Output.problem_message p)))
  /\ member_of (Output.query_problem_to_zval p) "reason"
     = option_map ZLong (Output.problem_reason p)
  /\ member_of (Output.query_problem_to_zval p) "retry"
     = option_map (fun retry : bool => if retry then ZTrue else ZFalse)
         (Output.problem_retry p).
Proof.
  unfold Output.query_problem_to_zval.
  destruct (Output.problem_reason p), (Output.problem_retry p);
    repeat match goal with |- _ /\ _ => split end; reflexivity.
Qed.

(** The errors and the warnings of a query response are entries of the
    output array itself, not of its "meta".  In each of their entries the
    key "code" holds the message: the number is stored first and replaced, so
    that two problems that differ in their code only give the same entry.
    The warnings of an analytics response are built in the same way. *)
Theorem problem_codes_hold_the_message :
  forall (resp : Output.query_response),
    (forall problems,
        Output.query_errors (Output.query_meta resp) = Some problems
        \/ Output.query_warnings (Output.query_meta resp) = Some problems ->
        exists entries meta,
          (member_of (Output.query_retval resp) "errors" = Some (ZArray entries)
           \/ member_of (Output.query_retval resp) "warnings" = Some (ZArray entries))
          /\ hash_values entries = map Output.query_problem_to_zval problems
          /\ member_of (Output.query_retval resp) "meta" = Some (ZArray meta)
          /\ zend_symtable_str_find meta "errors" = None
          /\ zend_symtable_str_find meta "warnings" = None)
    /\ (forall p,
           member_of (Output.query_problem_to_zval p) "code"
           = Some (ZString (c_str (Output.problem_message p)))
           /\ forall code,
               Output.query_problem_to_zval (with_code p code)
               = Output.query_problem_to_zval p)
    /\ (forall w,
           member_of (Output.analytics_problem_to_zval w) "code"
           = Some (ZString (c_str (Output.analytics_message w)))).
Proof.
  intros resp. split; [| split].
  - intros problems Hproblems.
    destruct (query_retval_members resp)
      as (meta & _ & Herrors & Hwarnings & Hmeta & Hno_errors & Hno_warnings).
    destruct Hproblems as [Hsome | Hsome]; rewrite Hsome in *;
      cbn [option_map] in *.
    + exists (Output.append_all Output.query_problem_to_zval problems), meta.
      split; [left; exact Herrors |].
      split; [apply append_all_entries |].
      split; [exact Hmeta | split; assumption].
    + exists (Output.append_all Output.query_problem_to_zval problems), meta.
      split; [right; exact Hwarnings |].
      split; [apply append_all_entries |].
      split; [exact Hmeta | split; assumption].
  - intros p. split; [apply query_problem_members |].
    intros code. unfold Output.query_problem_to_zval, with_code.
    cbn [Output.problem_code Output.problem_message Output.problem_reason
         Output.problem_retry].
    reflexivity.
  - intros w. reflexivity.
Qed.

Lemma problem_codes_hold_the_message_witness :
  exists entries,
    member_of (Output.query_retval sample_query_response) "errors"
    = Some (ZArray entries)
    /\ hash_values entries
       = [ZArray [(KStr "code", ZString "syntax error"); (KStr "retry", ZFalse)]].
Proof.
  destruct (proj1 (problem_codes_hold_the_message sample_query_response) _
              (or_introl eq_refl))
    as (entries & meta & Hentries & Hvalues & _).
  exists entries. split; [| exact Hvalues].
  destruct Hentries as [Herrors | Hwarnings]; [exact Herrors |].
  vm_compute in Hwarnings. discriminate Hwarnings.
Defined.

Lemma view_row_members (row : Output.view_row) :
  member_of (Output.view_row_to_zval row) "id"
  = option_map (fun id => ZString (c_str id)) (Output.row_id row)
  /\ member_of (Output.view_row_to_zval row) "value"
     = Some (ZString (c_str (Output.row_value row)))
  /\ member_of (Output.view_row_to_zval row) "key"
     = Some (ZString (c_str (Output.row_key row))).
Proof.
  unfold Output.view_row_to_zval.
  destruct (Output.row_id row); repeat match goal with |- _ /\ _ => split end;
    reflexivity.
Qed.

(** When [view_query] returns an array, the array has the one key "rows":
    the rows of the response in their order, each with its value, its key
    and, if there is one, its identifier.  The metadata of the response,
    the debug information and the number of rows, is not in the output, so
    that two responses with the same rows give the same output. *)
Theorem view_output_has_only_rows :
  forall (Payload : Type) (to_response : Payload -> Output.view_response)
         (cluster_ : cluster Payload) (bucket_ design_document view_ : string)
         (space : Z) (options : option zval) (v : zval),
    Output.view_query to_response cluster_ bucket_ design_document view_ space options
    = Ok v ->
    exists request rows,
      connection_handle.view_request_of_options bucket_ design_document view_ space options
      = Ok request
      /\ let resp := to_response (response_payload (execute_view cluster_ request)) in
         v = ZArray [(KStr "rows", ZArray rows)]
         /\ map fst rows = indices (List.length (Output.view_rows resp))
         /\ hash_values rows = map Output.view_row_to_zval (Output.view_rows resp)
         /\ member_of v "meta" = None
         /\ (forall resp',
                Output.view_rows resp' = Output.view_rows resp ->
                Output.view_retval resp' = v)
         /\ (forall row,
                In row (Output.view_rows resp) ->
                member_of (Output.view_row_to_zval row) "value"
                = Some (ZString (c_str (Output.row_value row)))
                /\ member_of (Output.view_row_to_zval row) "key"
                   = Some (ZString (c_str (Output.row_key row)))
                /\ member_of (Output.view_row_to_zval row) "id"
                   = option_map (fun id => ZString (c_str id)) (Output.row_id row)).
Proof.
  intros Payload to_response cluster_ bucket_ design_document view_ space options v.
  unfold Output.view_query, connection_handle.view_query.
  destruct (connection_handle.view_request_of_options bucket_ design_document view_ space
              options) as [request | |]; cbn [rbind]; try discriminate.
  unfold impl.view_query, impl.service_execute.
  destruct (ec_set (view_ec (response_ctx (execute_view cluster_ request))));
    cbn [rbind]; [discriminate |].
  intros Heq. injection Heq as <-.
  exists request.
  exists (Output.append_all Output.view_row_to_zval
            (Output.view_rows
               (to_response (response_payload (execute_view cluster_ request))))).
  split; [reflexivity |]. cbv zeta.
  destruct (append_all_entries Output.view_row_to_zval
              (Output.view_rows
                 (to_response (response_payload (execute_view cluster_ request)))))
    as [Hkeys Hvalues].
  split; [reflexivity |].
  split; [exact Hkeys |].
  split; [exact Hvalues |].
  split; [reflexivity |].
  split.
  - intros resp' Hsame. unfold Output.view_retval. rewrite Hsame. reflexivity.
  - intros row _. destruct (view_row_members row) as (Hid & Hvalue & Hkey).
    split; [exact Hvalue | split; [exact Hkey | exact Hid]].
Qed.

Lemma view_output_has_only_rows_witness :
  member_of (Output.view_retval sample_view_response) "meta" = None.
Proof.
  destruct (view_output_has_only_rows unit (fun _ => sample_view_response)
              (Fixtures.replying Fixtures.kv_ok Fixtures.travel_token ec_success)
              "travel-sample" "airlines" "by_id" 2 (Some (ZArray []))
              (Output.view_retval sample_view_response) eq_refl)
    as (request & rows & _ & _ & _ & _ & Hmeta & _).
  exact Hmeta.
Defined.

(** ** Mutation tokens, continued *)

Lemma fmt_hex_injective (a b : Z) : 0 <= a -> 0 <= b -> fmt_hex a = fmt_hex b -> a = b.
Proof.
  intros Ha Hb Heq. unfold fmt_hex in Heq.
  assert (Hnonnil : forall n, N.to_hex_uint n <> Hexadecimal.Nil).
  { intros n. rewrite <- (HexadecimalN.Unsigned.of_to n) at 1.
    rewrite HexadecimalN.Unsigned.to_of. apply HexadecimalFacts.unorm_nonnil. }
  assert (Hdigits : Some (N.to_hex_uint (Z.to_N a)) = Some (N.to_hex_uint (Z.to_N b))).
  { rewrite <- (HexadecimalString.NilZero.usu _ (Hnonnil (Z.to_N a))).
    rewrite <- (HexadecimalString.NilZero.usu _ (Hnonnil (Z.to_N b))).
    rewrite Heq. reflexivity. }
  injection Hdigits as Hdigits.
  apply HexadecimalN.Unsigned.to_uint_inj in Hdigits. lia.
Qed.

(** The array of a mutation token determines the token: the hexadecimal
    strings of the partition identifier and of the sequence number are
    written without loss. *)
Theorem mutation_token_to_zval_injective :
  forall (token token' : mutation_token),
    unsigned_token token -> unsigned_token token' ->
    connection_handle.mutation_token_to_zval token
    = connection_handle.mutation_token_to_zval token' ->
    token = token'.
Proof.
  intros [uuid seqno id_ bucket_] [uuid' seqno' id' bucket'] [Huuid Hseqno]
    [Huuid' Hseqno'].
  cbn [partition_uuid sequence_number] in Huuid, Hseqno, Huuid', Hseqno'.
  unfold connection_handle.mutation_token_to_zval.
  cbn [partition_uuid sequence_number partition_id bucket_name add_assoc key_is
       String.eqb Ascii.eqb Bool.eqb].
  intros Heq. injection Heq as Hbucket Hid Huuid_eq Hseqno_eq.
  apply fmt_hex_injective in Huuid_eq; [| assumption | assumption].
  apply fmt_hex_injective in Hseqno_eq; [| assumption | assumption].
  subst. reflexivity.
Qed.

Lemma mutation_token_to_zval_injective_witness :
  Fixtures.travel_token = Fixtures.travel_token.
Proof.
  apply (mutation_token_to_zval_injective Fixtures.travel_token Fixtures.travel_token).
  - split; vm_compute; discriminate.
  - split; vm_compute; discriminate.
  - reflexivity.
Defined.
